(** * sync_strava.py: merge, week index, aerobic-efficiency analysis,
      prediction and status of the marathon training tracker

    The development embeds the pure core of [sync_strava.py]
    ([norm_api], [merge], [plan_week], [riegel], [analyse], [predict],
    [build_status]) and proves the properties its specification states.

    Conventions of the embedding.
    - A Python [int] is a [Z].
    - A Python [float] is a value of a type [num] that carries the
      operations the script uses (class [PyNum]).  Everything that only
      depends on the control flow is proved for every such arithmetic.
      Two instances are given: [binary64] (primitive IEEE-754 doubles, the
      arithmetic CPython runs; used to evaluate the code on concrete
      inputs) and [exactQ] (exact rationals; used where a property needs
      the laws of an ordered field, which rounding breaks).
    - A Python [str] is a [string] of bytes (ASCII data).
    - A raised exception is the [Raise] case of the error monad [exn].
    - The row dictionaries are records; the value [""] that the script
      stores for a missing heart rate is [None] in [avg_hr].
    - A decoded API activity is a record whose numeric entries are
      missing, [null], an integer or a real, as the API delivers them.

    Limits of the [binary64] instance: an integer that enters a float
    operation is taken below 2^53 in magnitude, where its conversion is
    exact.  [sum] adds from left to right, as CPython does up to version
    3.11; later versions compensate the rounding errors of a sum of floats.
    The power function of the C library is not part of the arithmetic: the
    square [speed ** 2] of the regression is a function that may raise and
    on which [analyse] depends, and the power of [riegel] is a parameter
    that stands for the one value [2.0 ** 1.06] the script computes. *)

From Stdlib Require Import ZArith QArith Qround Bool List String Ascii Lia Lqa.
From Stdlib Require Import Permutation Sorted DecimalString.
From Stdlib Require Import Floats.PrimFloat Floats.SpecFloat Floats.FloatOps.
Import ListNotations.

Local Open Scope string_scope.
Local Open Scope Z_scope.

(** ** Exceptions *)

Inductive pyerr : Type :=
| ValueError
| TypeError
| ZeroDivisionError
| OverflowError.

Inductive exn (A : Type) : Type :=
| Ok (a : A)
| Raise (e : pyerr).

Arguments Ok {A} a.
Arguments Raise {A} e.

Definition bind {A B : Type} (c : exn A) (k : A -> exn B) : exn B :=
  match c with
  | Ok a => k a
  | Raise e => Raise e
  end.

Notation "x <- c ;; k" := (bind c (fun x => k))
  (at level 61, c at next level, right associativity).

(** ** Numbers *)

(** [round_half_even q] is the integer nearest to [q], ties going to the
    even neighbour: the rounding rule of Python's [round]. *)
Definition round_half_even (q : Q) : Z :=
  let d := Z.pos (Qden q) in
  let f := Qnum q / d in
  let r := Qnum q mod d in
  match 2 * r ?= d with
  | Lt => f
  | Gt => f + 1
  | Eq => if Z.even f then f else f + 1
  end.

(** [truncate q] drops the fractional part, as Python's [int] does. *)
Definition truncate (q : Q) : Z := Z.quot (Qnum q) (Z.pos (Qden q)).

Definition pow10 (nd : nat) : Z := 10 ^ Z.of_nat nd.

(** The operations of Python floats that the script uses. *)
Class PyNum (num : Type) : Type := {
  of_int : Z -> num;                 (* int -> float conversion *)
  of_lit : Q -> num;                 (* a decimal literal such as 1.12 *)
  nadd : num -> num -> num;
  nsub : num -> num -> num;
  nmul : num -> num -> num;
  ndiv : num -> num -> num;          (* divisor already known non-zero *)
  nopp : num -> num;
  neqb : num -> num -> bool;         (* == *)
  nltb : num -> num -> bool;         (* <  *)
  nleb : num -> num -> bool;         (* <= *)
  round_nd : nat -> num -> num;      (* round(x, ndigits) *)
  round_int : num -> exn Z;          (* round(x) *)
  trunc_int : num -> exn Z           (* int(x) *)
}.

(** *** Exact rationals *)

Definition Qltb (x y : Q) : bool :=
  match Qcompare x y with
  | Lt => true
  | _ => false
  end.

Definition Qround_nd (nd : nat) (q : Q) : Q :=
  Qmake (round_half_even (Qmult q (inject_Z (pow10 nd)))) (Z.to_pos (pow10 nd)).

#[export] Instance exactQ : PyNum Q := {
  of_int := inject_Z;
  of_lit := fun q => q;
  nadd := Qplus;
  nsub := Qminus;
  nmul := Qmult;
  ndiv := Qdiv;
  nopp := Qopp;
  neqb := Qeq_bool;
  nltb := Qltb;
  nleb := Qle_bool;
  round_nd := Qround_nd;
  round_int := fun q => Ok (round_half_even q);
  trunc_int := fun q => Ok (truncate q)
}.

(** *** IEEE-754 binary64 *)

(** Conversion of an integer, correctly rounded. *)
Definition b64_of_Z (z : Z) : float :=
  SF2Prim (binary_normalize prec emax z 0 false).

(** The rational a finite double denotes. *)
Definition b64_exact (s : bool) (m : positive) (e : Z) : Q :=
  let sm := if s then Z.neg m else Z.pos m in
  match e with
  | Z.neg p => Qmake sm (2 ^ p)%positive
  | _ => inject_Z (sm * 2 ^ e)
  end.

(** [round(x, nd)]: the exact value is rounded half-even at [nd] decimal
    places and the decimal result converted back to the nearest double;
    zeros, infinities and NaN are returned unchanged. *)
Definition b64_round_nd (nd : nat) (x : float) : float :=
  match Prim2SF x with
  | S754_finite s m e =>
      let n := round_half_even (Qmult (b64_exact s m e) (inject_Z (pow10 nd))) in
      if n =? 0 then (if s then neg_zero else zero)
      else PrimFloat.div (b64_of_Z n) (b64_of_Z (pow10 nd))
  | _ => x
  end.

Definition b64_round_int (x : float) : exn Z :=
  match Prim2SF x with
  | S754_finite s m e => Ok (round_half_even (b64_exact s m e))
  | S754_zero _ => Ok 0
  | S754_infinity _ => Raise OverflowError
  | S754_nan => Raise ValueError
  end.

Definition b64_trunc_int (x : float) : exn Z :=
  match Prim2SF x with
  | S754_finite s m e => Ok (truncate (b64_exact s m e))
  | S754_zero _ => Ok 0
  | S754_infinity _ => Raise OverflowError
  | S754_nan => Raise ValueError
  end.

#[export] Instance binary64 : PyNum float := {
  of_int := b64_of_Z;
  of_lit := fun q => PrimFloat.div (b64_of_Z (Qnum q)) (b64_of_Z (Z.pos (Qden q)));
  nadd := PrimFloat.add;
  nsub := PrimFloat.sub;
  nmul := PrimFloat.mul;
  ndiv := PrimFloat.div;
  nopp := PrimFloat.opp;
  neqb := PrimFloat.eqb;
  nltb := PrimFloat.ltb;
  nleb := PrimFloat.leb;
  round_nd := b64_round_nd;
  round_int := b64_round_int;
  trunc_int := b64_trunc_int
}.

(** ** Strings and formatting *)

(** [str(n)] for an integer. *)
Definition str_of_Z (z : Z) : string := NilZero.string_of_int (Z.to_int z).

(** The format [{n:02d}]: at least two characters, padded with a zero. *)
Definition fmt_02d (z : Z) : string :=
  let s := str_of_Z z in
  if (String.length s <? 2)%nat then "0" ++ s else s.

Definition is_digit (c : ascii) : bool :=
  let n := Z.of_nat (nat_of_ascii c) in (48 <=? n) && (n <=? 57).

Definition digit_val (c : ascii) : Z := Z.of_nat (nat_of_ascii c) - 48.

Definition in_range (lo hi : Z) (c : ascii) : bool :=
  is_digit c && (lo <=? digit_val c) && (digit_val c <=? hi).

(** ** Calendar dates *)

(** A [datetime.date]. *)
Record pydate : Type := mk_date { year : Z; month : Z; day : Z }.

Definition is_leap (y : Z) : bool :=
  (y mod 4 =? 0) && (negb (y mod 100 =? 0) || (y mod 400 =? 0)).

Definition days_in_month (y m : Z) : Z :=
  if m =? 2 then (if is_leap y then 29 else 28)
  else if (m =? 4) || (m =? 6) || (m =? 9) || (m =? 11) then 30
  else 31.

Definition days_before_year (y : Z) : Z :=
  let y1 := y - 1 in y1 * 365 + y1 / 4 - y1 / 100 + y1 / 400.

Definition days_before_month (y m : Z) : Z :=
  nth (Z.to_nat m) [0; 0; 31; 59; 90; 120; 151; 181; 212; 243; 273; 304; 334] 0
  + (if (2 <? m) && is_leap y then 1 else 0).

(** [date(y, m, d)]: the constructor checks its arguments. *)
Definition date_new (y m d : Z) : exn pydate :=
  if (1 <=? y) && (y <=? 9999) && (1 <=? m) && (m <=? 12)
     && (1 <=? d) && (d <=? days_in_month y m)
  then Ok (mk_date y m d)
  else Raise ValueError.

Definition toordinal (d : pydate) : Z :=
  days_before_year (year d) + days_before_month (year d) (month d) + day d.

(** The directive [%m]: the alternatives [1[0-2]], [0[1-9]], [[1-9]],
    tried in this order.  The result is the value and the unread rest. *)
Definition parse_month (s : string) : option (Z * string) :=
  match s with
  | String c1 rest =>
      let one := if in_range 1 9 c1 then Some (digit_val c1, rest) else None in
      match rest with
      | String c2 rest' =>
          if Ascii.eqb c1 "1" && in_range 0 2 c2 then Some (10 + digit_val c2, rest')
          else if Ascii.eqb c1 "0" && in_range 1 9 c2 then Some (digit_val c2, rest')
          else one
      | EmptyString => one
      end
  | EmptyString => None
  end.

(** The directive [%d]: [3[0-1]], [[1-2]\d], [0[1-9]], [[1-9]], [ [1-9]]. *)
Definition parse_day (s : string) : option (Z * string) :=
  match s with
  | String c1 rest =>
      let one := if in_range 1 9 c1 then Some (digit_val c1, rest) else None in
      match rest with
      | String c2 rest' =>
          if Ascii.eqb c1 "3" && in_range 0 1 c2 then Some (30 + digit_val c2, rest')
          else if in_range 1 2 c1 && is_digit c2
               then Some (10 * digit_val c1 + digit_val c2, rest')
          else if (Ascii.eqb c1 "0" || Ascii.eqb c1 " ") && in_range 1 9 c2
               then Some (digit_val c2, rest')
          else one
      | EmptyString => one
      end
  | EmptyString => None
  end.

(** [datetime.strptime(s, "%Y-%m-%d").date()].  The whole string has to be
    consumed, and the fields have to form a date. *)
Definition strptime_ymd (s : string) : exn pydate :=
  match s with
  | String y1 (String y2 (String y3 (String y4 (String sep1 rest)))) =>
      if is_digit y1 && is_digit y2 && is_digit y3 && is_digit y4
         && Ascii.eqb sep1 "-"
      then
        let y := 1000 * digit_val y1 + 100 * digit_val y2
                 + 10 * digit_val y3 + digit_val y4 in
        match parse_month rest with
        | Some (m, String sep2 rest') =>
            if Ascii.eqb sep2 "-" then
              match parse_day rest' with
              | Some (d, EmptyString) => date_new y m d
              | _ => Raise ValueError
              end
            else Raise ValueError
        | _ => Raise ValueError
        end
      else Raise ValueError
  | _ => Raise ValueError
  end.

(** [strftime("%Y-%m-%d")] of a date. *)
Definition fmt_04d (z : Z) : string :=
  let s := str_of_Z z in
  match String.length s with
  | 1%nat => "000" ++ s
  | 2%nat => "00" ++ s
  | 3%nat => "0" ++ s
  | _ => s
  end.

Definition strftime_ymd (d : pydate) : string :=
  fmt_04d (year d) ++ "-" ++ fmt_02d (month d) ++ "-" ++ fmt_02d (day d).

(** ** Constants *)

Definition PLAN_START : pydate := mk_date 2025 12 22.
Definition TARGET_SECS : Z := 9300.
Definition TARGET_DIST_M : Z := 42195.
Definition HM_PB_SECS : Z := 4380.
Definition HM_DIST_M : Q := 21097.5%Q.

(** ** Week indexer *)

Definition plan_week (date_str : string) : exn (option Z) :=
  d <- strptime_ymd date_str ;;
  let days := toordinal d - toordinal PLAN_START in
  if days <? 0 then Ok None
  else
    let w := days / 7 + 1 in
    Ok (if (1 <=? w) && (w <=? 18) then Some w else None).

(** ** Status builder *)

(** The part of the summary that [build_status] derives from the predicted
    time; the other entries are copied from the analysis. *)
Record status_summary : Type := mk_status {
  label : string;
  status : string;
  predicted_time : string;
  predicted_seconds : Z;
  target_seconds : Z;
  delta_seconds : Z
}.

Definition build_status (pred_secs : Z) : status_summary :=
  let delta := TARGET_SECS - pred_secs in
  let ph := pred_secs / 3600 in
  let pm := (pred_secs mod 3600) / 60 in
  let ps := pred_secs mod 60 in
  let pred_str := str_of_Z ph ++ ":" ++ fmt_02d pm ++ ":" ++ fmt_02d ps in
  let '(st, lbl) :=
    if 180 <? delta then
      ("AHEAD", "AHEAD OF TARGET — ON FOR " ++ pred_str)
    else if -60 <=? delta then
      ("ON TRACK", "ON TRACK FOR " ++ pred_str)
    else if -300 <=? delta then
      ("CLOSE", "CLOSE — " ++ pred_str ++ " PROJECTED")
    else
      ("OFF PACE", "NEEDS WORK — " ++ pred_str ++ " PROJECTED") in
  mk_status lbl st pred_str pred_secs TARGET_SECS delta.

(** ** Canonical records, normaliser and merger *)

Section Pipeline.

Context {num : Type} {arith : PyNum num}.

(** Truth value of a number: everything but zero. *)
Definition truthy (x : num) : bool := negb (neqb x (of_int 0)).

(** [x / y] for a float divisor, and for an [int] divisor. *)
Definition py_div (x y : num) : exn num :=
  if neqb y (of_int 0) then Raise ZeroDivisionError else Ok (ndiv x y).

Definition py_div_int (x : num) (n : Z) : exn num :=
  if n =? 0 then Raise ZeroDivisionError else Ok (ndiv x (of_int n)).

(** [sum(xs)], which starts from the integer 0. *)
Definition py_sum (xs : list num) : num := fold_left nadd xs (of_int 0).

(** [max(a, b)] and [min(a, b)] keep the first argument on ties. *)
Definition py_max (a b : num) : num := if nltb a b then b else a.
Definition py_min (a b : num) : num := if nltb b a then b else a.

(** A number as the decoder or [float(...)] delivers it: the script keeps
    an integer heart rate from the API as an [int]. *)
Inductive pyval : Type :=
| PInt (z : Z)
| PFloat (x : num).

(** [float(v)]. *)
Definition float_of (v : pyval) : num :=
  match v with
  | PInt z => of_int z
  | PFloat x => x
  end.

(** The canonical activity record.  [avg_hr = None] stands for the empty
    string the script stores when there is no heart rate. *)
Record row : Type := mk_row {
  activity_id : string;
  date : string;
  name : string;
  distance_km : num;
  moving_secs : Z;
  avg_hr : option pyval
}.

(** Truth value of the [avg_hr] entry: [""] and a zero are false. *)
Definition hr_truthy (h : option pyval) : bool :=
  match h with
  | Some (PInt z) => negb (z =? 0)
  | Some (PFloat x) => truthy x
  | None => false
  end.

Definition set_avg_hr (h : option pyval) (v : row) : row :=
  mk_row (activity_id v) (date v) (name v) (distance_km v) (moving_secs v) h.

(** *** API activities *)

(** A numeric entry of a decoded JSON object: missing, [null], an integer
    or a real. *)
Inductive jfield : Type :=
| Absent
| Null
| JInt (z : Z)
| JFloat (x : num).

Inductive json_id : Type :=
| IdInt (z : Z)
| IdStr (s : string).

Record activity : Type := mk_activity {
  a_id : json_id;
  a_start_date_local : string;
  a_name : option string;
  a_distance : jfield;
  a_moving_time : jfield;
  a_average_heartrate : jfield
}.

Definition str_of_id (i : json_id) : string :=
  match i with
  | IdInt z => str_of_Z z
  | IdStr s => s
  end.

(** [a.get("average_heartrate") or ""]. *)
Definition hr_or_empty (f : jfield) : option pyval :=
  match f with
  | Absent => None
  | Null => None
  | JInt z => if z =? 0 then None else Some (PInt z)
  | JFloat x => if truthy x then Some (PFloat x) else None
  end.

Definition norm_api (a : activity) : exn row :=
  dist <- match a_distance a with
          | Absent => Ok (ndiv (of_int 0) (of_int 1000))
          | Null => Raise TypeError
          | JInt z => Ok (ndiv (of_int z) (of_int 1000))
          | JFloat x => Ok (ndiv x (of_int 1000))
          end ;;
  secs <- match a_moving_time a with
          | Absent => Ok 0
          | Null => Raise TypeError
          | JInt z => Ok z
          | JFloat x => trunc_int x
          end ;;
  Ok (mk_row (str_of_id (a_id a))
             (substring 0 10 (a_start_date_local a))
             (match a_name a with Some s => s | None => "" end)
             (round_nd 2 dist)
             secs
             (hr_or_empty (a_average_heartrate a))).

(** *** The master dictionary *)

(** [master] maps an activity id to its row and keeps insertion order. *)
Definition master : Type := list (string * row).

Fixpoint dict_mem (k : string) (m : master) : bool :=
  match m with
  | [] => false
  | (k', _) :: m' => String.eqb k' k || dict_mem k m'
  end.

(** [m[k] = v]: replaces the value in place, or appends a new entry. *)
Fixpoint dict_set (k : string) (v : row) (m : master) : master :=
  match m with
  | [] => [(k, v)]
  | (k', v') :: m' =>
      if String.eqb k' k then (k', v) :: m' else (k', v') :: dict_set k v m'
  end.

(** In-place change of the row stored under [k]. *)
Fixpoint dict_update (k : string) (f : row -> row) (m : master) : master :=
  match m with
  | [] => []
  | (k', v') :: m' =>
      if String.eqb k' k then (k', f v') :: m' else (k', v') :: dict_update k f m'
  end.

(** In-place change of the first row, in iteration order, that meets [p]. *)
Fixpoint update_first (p : row -> bool) (f : row -> row) (m : master) : master :=
  match m with
  | [] => []
  | (k', v') :: m' =>
      if p v' then (k', f v') :: m' else (k', v') :: update_first p f m'
  end.

(** The fallback key: date and distance rounded to 0.1 km. *)
Definition same_run (r v : row) : bool :=
  String.eqb (date v) (date r)
  && neqb (round_nd 1 (distance_km v)) (round_nd 1 (distance_km r)).

(** One iteration of the loop over the API rows. *)
Definition merge_api_row (m : master) (r : row) : master :=
  if dict_mem (activity_id r) m then
    if hr_truthy (avg_hr r)
    then dict_update (activity_id r) (set_avg_hr (avg_hr r)) m
    else m
  else
    match find (fun kv => same_run r (snd kv)) m with
    | Some _ =>
        if hr_truthy (avg_hr r)
        then update_first (same_run r) (set_avg_hr (avg_hr r)) m
        else m
    | None => dict_set (activity_id r) r m
    end.

Definition seed_export (export_rows : list row) : master :=
  fold_left (fun m r => dict_set (activity_id r) r m) export_rows [].

(** [sorted(rows, key=lambda x: x["date"])]: a stable sort that only uses
    [<] on the keys. *)
Fixpoint insert_by_date (x : row) (l : list row) : list row :=
  match l with
  | [] => [x]
  | y :: l' =>
      if String.ltb (date y) (date x) then y :: insert_by_date x l'
      else x :: l
  end.

Definition sorted_by_date (l : list row) : list row :=
  fold_right insert_by_date [] l.

Definition merge (export_rows api_rows : list row) : list row :=
  let m := fold_left merge_api_row api_rows (seed_export export_rows) in
  sorted_by_date (map snd m).

(** ** Aerobic-efficiency analysis *)

(** A qualifying run with its derived values. *)
Record run : Type := mk_run {
  r_date : string;
  r_speed : num;
  r_hr : num;
  r_ae : num;
  r_dist_km : num
}.

Record week_stats : Type := mk_week {
  w_ae : num;
  w_avg_hr : num;
  w_avg_pace_minkm : num;
  w_n : Z
}.

Record analysis : Type := mk_analysis {
  by_week : list (Z * week_stats);
  ae_trend : string;
  ae_trend_pct : option num;
  ae_delta_wk : option num;
  hr_at_mp : option num;
  red_zone_hr : num;
  hr_buffer : option num;
  current_week : option Z
}.

(** The filter that selects [hr_runs]. *)
Definition qualifies (r : row) : bool :=
  hr_truthy (avg_hr r) && (0 <? moving_secs r) && nleb (of_int 5) (distance_km r).

(** [float(r["avg_hr"])]; the empty string is not a number. *)
Definition float_of_hr (h : option pyval) : exn num :=
  match h with
  | Some v => Ok (float_of v)
  | None => Raise ValueError
  end.

(** [by_week[w].append(x)] on a [defaultdict(list)]. *)
Fixpoint week_append (w : Z) (x : run) (m : list (Z * list run)) : list (Z * list run) :=
  match m with
  | [] => [(w, [x])]
  | (k, l) :: m' =>
      if k =? w then (k, (l ++ [x])%list) :: m' else (k, l) :: week_append w x m'
  end.

(** The entry the loop appends for a run: speed in m/s and the efficiency
    [speed / float(avg_hr) * 1000]. *)
Definition run_of (r : row) : exn run :=
  speed <- py_div_int (nmul (distance_km r) (of_int 1000)) (moving_secs r) ;;
  h <- float_of_hr (avg_hr r) ;;
  q <- py_div speed h ;;
  Ok (mk_run (date r) speed h (nmul q (of_int 1000)) (distance_km r)).

(** The loop that fills [by_week]; [if not w: continue] skips a missing
    week (and a week 0). *)
Fixpoint group_by_week (hr_runs : list row) (acc : list (Z * list run))
  : exn (list (Z * list run)) :=
  match hr_runs with
  | [] => Ok acc
  | r :: rest =>
      w <- plan_week (date r) ;;
      match w with
      | None => group_by_week rest acc
      | Some w =>
          if w =? 0 then group_by_week rest acc
          else
            x <- run_of r ;;
            group_by_week rest (week_append w x acc)
      end
  end.

(** [sorted(by_week.items())]: the keys are distinct, so the order is the
    order of the week numbers. *)
Fixpoint insert_by_week {A : Type} (x : Z * A) (l : list (Z * A)) : list (Z * A) :=
  match l with
  | [] => [x]
  | y :: l' =>
      if fst y <? fst x then y :: insert_by_week x l' else x :: l
  end.

Definition sorted_items {A : Type} (l : list (Z * A)) : list (Z * A) :=
  fold_right insert_by_week [] l.

Fixpoint map_exn {A B : Type} (f : A -> exn B) (l : list A) : exn (list B) :=
  match l with
  | [] => Ok []
  | x :: l' => y <- f x ;; ys <- map_exn f l' ;; Ok (y :: ys)
  end.

Definition len {A : Type} (l : list A) : Z := Z.of_nat (List.length l).

(** The entry of [wk_ae] for one week. *)
Definition week_entry (runs : list run) : exn week_stats :=
  m_ae <- py_div_int (py_sum (map r_ae runs)) (len runs) ;;
  m_hr <- py_div_int (py_sum (map r_hr runs)) (len runs) ;;
  paces <- map_exn (fun r => p <- py_div (of_int 1000) (r_speed r) ;;
                             py_div_int p 60) runs ;;
  m_pace <- py_div_int (py_sum paces) (len runs) ;;
  Ok (mk_week (round_nd 4 m_ae) (round_nd 1 m_hr) (round_nd 2 m_pace) (len runs)).

Definition wk_ae_of (bw : list (Z * list run)) : exn (list (Z * week_stats)) :=
  map_exn (fun wr => e <- week_entry (snd wr) ;; Ok (fst wr, e)) (sorted_items bw).

(** [sorted(wk_ae)]: the sorted list of the keys. *)
Definition sorted_keys {A : Type} (d : list (Z * A)) : list Z :=
  map fst (sorted_items (map (fun kv => (fst kv, tt)) d)).

(** [wk_ae[w]["ae"]]; the script only looks up keys of [wk_ae]. *)
Fixpoint ae_at (d : list (Z * week_stats)) (w : Z) : num :=
  match d with
  | [] => of_int 0
  | (k, e) :: d' => if k =? w then w_ae e else ae_at d' w
  end.

(** The block "AE trend": the trend word and the percentage. *)
Definition ae_trend_of (wk_ae : list (Z * week_stats)) : exn (string * option num) :=
  let wks := sorted_keys wk_ae in
  if 2 <=? len wks then
    let mid := len wks / 2 in
    first_ae <- py_div_int (py_sum (map (ae_at wk_ae) (firstn (Z.to_nat mid) wks))) mid ;;
    second_ae <- py_div_int (py_sum (map (ae_at wk_ae) (skipn (Z.to_nat mid) wks)))
                            (len wks - mid) ;;
    q <- py_div (nsub second_ae first_ae) first_ae ;;
    let ae_pct := round_nd 1 (nmul q (of_int 100)) in
    Ok (if nltb (of_int 1) ae_pct then "improving"
        else if nltb ae_pct (of_int (-1)) then "declining"
        else "stable",
        Some ae_pct)
  else Ok ("insufficient data", None).

(** The marathon-pace speed, [TARGET_DIST_M / TARGET_SECS]. *)
Definition mp_speed : num := ndiv (of_int TARGET_DIST_M) (of_int TARGET_SECS).

(** [r["speed"] ** 2].  On floats Python calls the power function of the C
    library and raises [OverflowError] when the result is out of range, so
    the square is a function that may raise; on exact numbers it is the
    product. *)
Variable square : num -> exn num.

(** The denominator [n * sx2 - sx * sx] of the least squares with every
    square written as a product, which is what it is in exact arithmetic. *)
Definition ls_denom (all_pts : list run) : num :=
  let n := len all_pts in
  let sx := py_sum (map r_speed all_pts) in
  let sx2 := py_sum (map (fun r => nmul (r_speed r) (r_speed r)) all_pts) in
  nsub (nmul (of_int n) sx2) (nmul sx sx).

(** The block "Linear regression of HR vs speed". *)
Definition hr_at_mp_of (all_pts : list run) : exn (option num) :=
  if 3 <=? len all_pts then
    let n := len all_pts in
    let sx := py_sum (map r_speed all_pts) in
    let sy := py_sum (map r_hr all_pts) in
    let sxy := py_sum (map (fun r => nmul (r_speed r) (r_hr r)) all_pts) in
    squares <- map_exn (fun r => square (r_speed r)) all_pts ;;
    let sx2 := py_sum squares in
    let denom := nsub (nmul (of_int n) sx2) (nmul sx sx) in
    if truthy denom then
      a <- py_div (nsub (nmul (of_int n) sxy) (nmul sx sy)) denom ;;
      b <- py_div_int (nsub sy (nmul a sx)) n ;;
      Ok (Some (round_nd 1 (nadd (nmul a mp_speed) b)))
    else Ok None
  else Ok None.

(** [max(xs, default=175)]: the first of the largest elements. *)
Definition max_or_175 (xs : list num) : num :=
  match xs with
  | [] => of_int 175
  | x :: xs' => fold_left py_max xs' x
  end.

Definition est_max_hr_of (hrs : list num) : num :=
  nmul (max_or_175 hrs) (of_lit 1.12%Q).

Definition red_zone_hr_of (hrs : list num) : num :=
  round_nd 1 (nmul (est_max_hr_of hrs) (of_lit 0.90%Q)).

(** [round(red_zone_hr - hr_at_mp, 1) if hr_at_mp else None]. *)
Definition hr_buffer_of (red_zone : num) (at_mp : option num) : option num :=
  match at_mp with
  | Some h => if truthy h then Some (round_nd 1 (nsub red_zone h)) else None
  | None => None
  end.

(** The block "Week-over-week AE delta". *)
Definition ae_delta_wk_of (wk_ae : list (Z * week_stats)) : exn (option num) :=
  let wks := sorted_keys wk_ae in
  let current_wk := last (map Some wks) None in
  let prev_wk := if 2 <=? len wks then last (map Some (removelast wks)) None else None in
  match current_wk, prev_wk with
  | Some c, Some p =>
      if negb (c =? 0) && negb (p =? 0) then
        q <- py_div (nsub (ae_at wk_ae c) (ae_at wk_ae p)) (ae_at wk_ae p) ;;
        Ok (Some (round_nd 1 (nmul q (of_int 100))))
      else Ok None
  | _, _ => Ok None
  end.

Definition analyse (rows : list row) : exn analysis :=
  let hr_runs := filter qualifies rows in
  bw <- group_by_week hr_runs [] ;;
  wk_ae <- wk_ae_of bw ;;
  trend <- ae_trend_of wk_ae ;;
  let all_pts := List.concat (map snd bw) in
  at_mp <- hr_at_mp_of all_pts ;;
  hrs <- map_exn (fun r => float_of_hr (avg_hr r)) hr_runs ;;
  let red := red_zone_hr_of hrs in
  delta <- ae_delta_wk_of wk_ae ;;
  Ok (mk_analysis wk_ae (fst trend) (snd trend) delta at_mp red
                  (hr_buffer_of red at_mp)
                  (last (map Some (sorted_keys wk_ae)) None)).

(** ** Predictor *)

Section Predictor.

(** [x ** y] where it is a float: the script raises the ratio
    [TARGET_DIST_M / HM_DIST_M], which is 2.0, to the power 1.06 and nothing
    else, and there the power function of the C library returns. *)
Variable pow : num -> num -> num.

Definition riegel (t1_secs : Z) (d1_m : num) (d2_m : Z) : exn num :=
  ratio <- py_div (of_int d2_m) d1_m ;;
  Ok (nmul (of_int t1_secs) (pow ratio (of_lit 1.06%Q))).

(** [analysis.get("ae_trend_pct") or 0]. *)
Definition pct_or_0 (p : option num) : num :=
  match p with
  | Some x => if truthy x then x else of_int 0
  | None => of_int 0
  end.

Definition modifier_of (p : option num) : num :=
  py_max (of_int (-90)) (py_min (of_int 90) (nmul (nopp (pct_or_0 p)) (of_int 15))).

Definition predict (rows : list row) (a : analysis) : exn (Z * option Z) :=
  base_secs <- riegel HM_PB_SECS (of_lit HM_DIST_M) TARGET_DIST_M ;;
  let modifier := modifier_of (ae_trend_pct a) in
  let pred_secs := nadd base_secs modifier in
  n <- round_int pred_secs ;;
  Ok (n, None).

End Predictor.

End Pipeline.

Arguments row num : clear implicits.
Arguments pyval num : clear implicits.
Arguments run num : clear implicits.
Arguments week_stats num : clear implicits.
Arguments analysis num : clear implicits.
Arguments activity num : clear implicits.
Arguments jfield num : clear implicits.
Arguments master num : clear implicits.

(** ** Vocabulary of the statements *)

(** The integers [lo], [lo + 1], ..., [lo + n - 1]. *)
Definition Zrange (lo n : Z) : list Z :=
  map Z.of_nat (seq (Z.to_nat lo) (Z.to_nat n)).

(** [strftime] writes the year as four digits that read back as the year. *)
Definition chk_year (y : Z) : bool :=
  match fmt_04d y with
  | String a (String b (String c (String e EmptyString))) =>
      is_digit a && is_digit b && is_digit c && is_digit e
      && (1000 * digit_val a + 100 * digit_val b + 10 * digit_val c + digit_val e =? y)
  | _ => false
  end.

(** The directives [%m-%d] read back what [strftime] writes for month [m]
    and day [d]. *)
Definition chk_month_day (m d : Z) : bool :=
  match parse_month (fmt_02d m ++ "-" ++ fmt_02d d) with
  | Some (m', String sep rest) =>
      (m' =? m) && Ascii.eqb sep "-"
      && match parse_day rest with
         | Some (d', EmptyString) => d' =? d
         | _ => false
         end
  | _ => false
  end.

Section Vocabulary.

Context {num : Type} {arith : PyNum num}.

Definition keys (m : master num) : list string := map fst m.

(** Every row of the dictionary is stored under its own id, and no id is
    stored twice. *)
Definition well_keyed (m : master num) : Prop :=
  NoDup (keys m) /\ Forall (fun kv => activity_id (snd kv) = fst kv) m.

(** The row that replaces [e] when the API row [a] is merged into it. *)
Definition merged_with (a e : row num) : row num :=
  if hr_truthy (avg_hr a) then set_avg_hr (avg_hr a) e else e.

(** The merged record [m] is the export record [e] with the heart rate of
    the API record [a], if [a] has one. *)
Definition takes_hr_of (a e m : row num) : Prop :=
  activity_id m = activity_id e
  /\ date m = date e
  /\ distance_km m = distance_km e
  /\ name m = name e
  /\ moving_secs m = moving_secs e
  /\ (avg_hr a <> None -> avg_hr m = avg_hr a)
  /\ (avg_hr a = None -> avg_hr m = avg_hr e).

(** The qualifying rows whose date lies in one of the 18 plan weeks. *)
Definition in_plan (r : row num) : bool :=
  match plan_week (date r) with
  | Ok (Some _) => true
  | _ => false
  end.

(** The points of the regression: the runs of all weeks. *)
Definition points (bw : list (Z * list (run num))) : list (run num) :=
  List.concat (map snd bw).

(** Strictly increasing week numbers. *)
Definition ascending (ws : list Z) : Prop := StronglySorted Z.lt ws.

Definition mean (xs : list num) : exn num := py_div_int (py_sum xs) (len xs).

Definition trend_word (change : num) : string :=
  if nltb (of_int 1) change then "improving"
  else if nltb change (of_int (-1)) then "declining"
  else "stable".

(** The trend as the specification words it, on the efficiencies of the
    populated weeks in week order: the change is classified as it is. *)
Definition trend_unrounded (aes : list num) : exn (string * option num) :=
  if 2 <=? len aes then
    let mid := len aes / 2 in
    first_ae <- mean (firstn (Z.to_nat mid) aes) ;;
    second_ae <- mean (skipn (Z.to_nat mid) aes) ;;
    q <- py_div (nsub second_ae first_ae) first_ae ;;
    let change := nmul q (of_int 100) in
    Ok (trend_word change, Some change)
  else Ok ("insufficient data", None).

(** The same with the change rounded to one decimal place before it is
    classified and reported. *)
Definition trend_rounded (aes : list num) : exn (string * option num) :=
  if 2 <=? len aes then
    let mid := len aes / 2 in
    first_ae <- mean (firstn (Z.to_nat mid) aes) ;;
    second_ae <- mean (skipn (Z.to_nat mid) aes) ;;
    q <- py_div (nsub second_ae first_ae) first_ae ;;
    let change := round_nd 1 (nmul q (of_int 100)) in
    Ok (trend_word change, Some change)
  else Ok ("insufficient data", None).

(** The efficiencies of the populated weeks, in the order of [wk_ae]. *)
Definition week_aes (wk_ae : list (Z * week_stats num)) : list num :=
  map (fun kv => w_ae (snd kv)) wk_ae.

(** The Riegel baseline of the fixed half-marathon reference,
    [t1 * (d2 / d1) ** 1.06]. *)
Definition riegel_baseline (pow : num -> num -> num) : num :=
  nmul (of_int HM_PB_SECS)
       (pow (ndiv (of_int TARGET_DIST_M) (of_lit HM_DIST_M)) (of_lit 1.06%Q)).

(** An average-heartrate entry that is missing, [null] or a zero. *)
Definition missing_or_zero (f : jfield num) : bool :=
  match f with
  | Absent => true
  | Null => true
  | JInt z => z =? 0
  | JFloat x => neqb x (of_int 0)
  end.

End Vocabulary.

(** The variance of the speeds of the points in exact arithmetic: the mean
    of the squared deviations from the mean speed. *)
Definition mean_speed (pts : list (run Q)) : Q :=
  (py_sum (map r_speed pts) / inject_Z (len pts))%Q.

Definition speed_variance (pts : list (run Q)) : Q :=
  (py_sum (map (fun r => (r_speed r - mean_speed pts) * (r_speed r - mean_speed pts)) pts)
   / inject_Z (len pts))%Q.

(** ** Sample data *)

(** The end-to-end example of the specification: an export row with id
    "A" and an API activity with id "B" for the same run.  The decoder may
    deliver each of the three numbers as an [int] or as a [float]. *)
Definition export_A (nm : string) : row float :=
  mk_row "A" "2025-12-22" nm (of_int 10) 2400 None.

Definition json_number (as_int : bool) (z : Z) : jfield float :=
  if as_int then JInt z else JFloat (of_int z).

Definition api_B (time_of_day nm : string) (di mi hi : bool) : activity float :=
  mk_activity (IdStr "B") ("2025-12-22" ++ time_of_day) (Some nm)
              (json_number di 10005) (json_number mi 2401) (json_number hi 150).

(** The record [norm_api] makes of [api_B]. *)
Definition normalised_B (nm : string) (hi : bool) : row float :=
  mk_row "B" "2025-12-22" nm (of_lit 10.01%Q) 2401
         (Some (if hi then PInt 150 else PFloat (of_int 150))).


(** The square as the product.  That is [x ** 2] on exact numbers, and on
    doubles whenever the square of [x] is itself a double. *)
Definition square_product {num : Type} {arith : PyNum num} (x : num) : exn num :=
  Ok (nmul x x).

(** A square that always overflows: an analysis that returns with it has
    not evaluated any [speed ** 2]. *)
Definition square_overflows (x : float) : exn float := Raise OverflowError.

(** The doubles next to the product, below and above. *)
Definition square_below (x : float) : exn float := Ok (next_down (x * x)%float).

Definition square_above (x : float) : exn float := Ok (next_up (x * x)%float).

(** Two weeks of one run each; the efficiency rises by 1.04 %. *)
Definition two_weeks : list (row float) :=
  [ mk_row "1" "2025-12-23" "Steady" (of_int 10) 2500 (Some (PFloat (of_int 160)));
    mk_row "2" "2025-12-30" "Steady" (of_lit 10.104%Q) 2500 (Some (PFloat (of_int 160))) ].

(** Three weeks of one run each, at 4.0, 4.25 and 4.5 m/s: the squares of
    these speeds are doubles. *)
Definition three_weeks : list (row float) :=
  [ mk_row "1" "2025-12-23" "Steady" (of_int 10) 2500 (Some (PFloat (of_int 160)));
    mk_row "2" "2025-12-30" "Steady" (of_lit 10.625%Q) 2500 (Some (PFloat (of_int 162)));
    mk_row "3" "2026-01-07" "Long" (of_lit 13.5%Q) 3000 (Some (PFloat (of_int 165))) ].

(** Three runs at 2.0, 3.0 and 4.0 m/s whose heart rates fall on a line
    that reaches zero at the marathon-pace speed. *)
Definition zero_prediction : list (row float) :=
  [ mk_row "21" "2025-12-23" "a" (of_int 10) 5000 (Some (PFloat (of_lit 253.7096774%Q)));
    mk_row "22" "2025-12-30" "b" (of_int 12) 4000 (Some (PFloat (of_lit 153.7096774%Q)));
    mk_row "23" "2026-01-07" "c" (of_int 12) 3000 (Some (PFloat (of_lit 53.7096774%Q))) ].

(** Five runs of the first week with one speed, 10 km in 3001 s. *)
Definition same_speed : list (row float) :=
  map (fun d => mk_row d ("2025-12-2" ++ d) "Steady" (of_int 10) 3001
                       (Some (PFloat (of_int 150))))
      ["3"; "4"; "5"; "6"; "7"].

(** Three qualifying runs of November 2025, before the plan starts. *)
Definition before_plan : list (row float) :=
  [ mk_row "11" "2025-11-04" "Easy" (of_int 10) 3000 (Some (PFloat (of_int 140)));
    mk_row "12" "2025-11-11" "Tempo" (of_int 12) 3000 (Some (PFloat (of_int 155)));
    mk_row "13" "2025-11-18" "Long" (of_int 21) 6000 (Some (PFloat (of_int 150))) ].

(** Two runs of about 5 km on one day, known to the API only. *)
Definition api_morning : activity float :=
  mk_activity (IdInt 101) "2026-01-10T07:02:11Z" (Some "Morning Run")
              (JInt 5012) (JInt 1500) (JInt 148).

Definition api_evening : activity float :=
  mk_activity (IdInt 102) "2026-01-10T18:40:05Z" (Some "Evening Run")
              (JInt 5030) (JInt 1520) (JInt 152).

(** A long run and an easy run of the export, and three API activities:
    the long run under its own id, the long run once more under another
    id, and an activity that has the id of the easy run with the day and
    the distance of the long run. *)
Definition export_long : row float :=
  mk_row "201" "2026-01-10" "Long Run" (of_int 10) 3000 (Some (PFloat (of_int 140))).

Definition export_easy : row float :=
  mk_row "202" "2026-01-11" "Easy Run" (of_int 8) 2700 (Some (PFloat (of_int 135))).

Definition api_long : activity float :=
  mk_activity (IdInt 201) "2026-01-10T08:00:00Z" (Some "Long Run")
              (JInt 10000) (JInt 3000) (JInt 148).

Definition api_long_again : activity float :=
  mk_activity (IdInt 301) "2026-01-10T08:00:05Z" (Some "Long Run")
              (JInt 10020) (JInt 3001) (JInt 152).

Definition api_easy_id_long_key : activity float :=
  mk_activity (IdInt 202) "2026-01-10T08:00:00Z" (Some "Long Run")
              (JInt 10000) (JInt 3000) (JInt 150).

(** ** Further functions of the script *)

(** [fmt_time(secs)] for an integer number of seconds. *)
Definition fmt_time (secs : Z) : string :=
  let h := secs / 3600 in
  let rem := secs mod 3600 in
  let m := rem / 60 in
  let s := rem mod 60 in
  if h =? 0 then str_of_Z m ++ ":" ++ fmt_02d s
  else str_of_Z h ++ ":" ++ fmt_02d m ++ ":" ++ fmt_02d s.

(** The loop of [fetch_api_runs].  The answers of the server to the
    requests for page 1, 2, ... are the batches of [pages]; after them the
    server answers with an empty batch.  A decoded activity is taken with
    its ["type"] entry, [None] when there is none. *)
Section Fetch.

Variable A : Type.

Definition is_run (x : option string * A) : bool :=
  match fst x with
  | Some t => String.eqb t "Run"
  | None => false
  end.

Fixpoint fetch_api_runs (pages : list (list (option string * A)))
  : list (option string * A) :=
  match pages with
  | [] => []
  | batch :: rest =>
      match batch with
      | [] => []
      | _ :: _ =>
          (filter is_run batch
           ++ (if len batch <? 200 then [] else fetch_api_runs rest))%list
      end
  end.

End Fetch.

Arguments is_run {A} x.
Arguments fetch_api_runs {A} pages.

(** [fmt_pace(speed_ms)]. *)
Definition fmt_pace {num : Type} {arith : PyNum num} (speed_ms : num) : exn string :=
  sec_per_km <- py_div (of_int 1000) speed_ms ;;
  n <- trunc_int sec_per_km ;;
  Ok (str_of_Z (n / 60) ++ ":" ++ fmt_02d (n mod 60) ++ "/km").

(** *** The [.env] loader *)

(** The ASCII characters that [str.strip] removes. *)
Definition py_isspace (c : ascii) : bool :=
  let n := Z.of_nat (nat_of_ascii c) in
  ((9 <=? n) && (n <=? 13)) || ((28 <=? n) && (n <=? 32)).

Fixpoint lstrip (s : string) : string :=
  match s with
  | EmptyString => EmptyString
  | String c s' => if py_isspace c then lstrip s' else s
  end.

Fixpoint rstrip (s : string) : string :=
  match s with
  | EmptyString => EmptyString
  | String c s' =>
      match rstrip s' with
      | EmptyString => if py_isspace c then EmptyString else String c EmptyString
      | t => String c t
      end
  end.

(** [s.strip()]. *)
Definition strip (s : string) : string := lstrip (rstrip s).

(** [s.startswith("#")]. *)
Definition starts_with_hash (s : string) : bool :=
  match s with
  | String c _ => Ascii.eqb c "#"
  | EmptyString => false
  end.

(** [s.split("=", 1)] when ["=" in s], and [None] when not. *)
Fixpoint split_eq (s : string) : option (string * string) :=
  match s with
  | EmptyString => None
  | String c s' =>
      if Ascii.eqb c "=" then Some (EmptyString, s')
      else match split_eq s' with
           | Some (k, v) => Some (String c k, v)
           | None => None
           end
  end.

(** The dictionary [env], in insertion order. *)
Fixpoint env_set (k v : string) (env : list (string * string)) : list (string * string) :=
  match env with
  | [] => [(k, v)]
  | (k', v') :: env' =>
      if String.eqb k' k then (k', v) :: env' else (k', v') :: env_set k v env'
  end.

Fixpoint env_get (k : string) (env : list (string * string)) : option string :=
  match env with
  | [] => None
  | (k', v') :: env' => if String.eqb k' k then Some v' else env_get k env'
  end.

(** The body of the loop of [load_env] for one line of the file. *)
Definition env_step (env : list (string * string)) (line : string) : list (string * string) :=
  let line := strip line in
  if negb (String.eqb line "") && negb (starts_with_hash line) then
    match split_eq line with
    | Some (k, v) => env_set (strip k) (strip v) env
    | None => env
    end
  else env.

(** [load_env] on the lines of a file that exists. *)
Definition load_env (lines : list string) : list (string * string) :=
  fold_left env_step lines [].

(** A string of white space. *)
Fixpoint all_space (s : string) : bool :=
  match s with
  | EmptyString => true
  | String c s' => py_isspace c && all_space s'
  end.

(** No ["="] in the string. *)
Fixpoint no_eq (s : string) : bool :=
  match s with
  | EmptyString => true
  | String c s' => negb (Ascii.eqb c "=") && no_eq s'
  end.

(** No white space at either end. *)
Definition trimmed (s : string) : Prop := lstrip s = s /\ rstrip s = s.

(** ** Vocabulary of the further statements *)

Section MoreVocabulary.

Context {num : Type} {arith : PyNum num}.

(** [x] may stand before [y] in a list sorted by date: [y] is not
    earlier than [x]. *)
Definition date_le (x y : row num) : Prop := String.ltb (date y) (date x) = false.

(** [m] is the row [r] up to the heart rate. *)
Definition same_but_hr (r m : row num) : Prop := set_avg_hr (avg_hr m) r = m.

(** [v] is the last row of [es] that carries its id. *)
Definition last_with_its_id (es : list (row num)) (v : row num) : Prop :=
  exists pre post,
    es = (pre ++ v :: post)%list /\ ~ In (activity_id v) (map activity_id post).

(** No row of [rs] that carries a heart rate has the id of [e] or meets
    [e] on the key (date, distance rounded to 0.1 km). *)
Definition untouched_by (rs : list (row num)) (e : row num) : Prop :=
  forall r, In r rs -> hr_truthy (avg_hr r) = true ->
    activity_id r <> activity_id e /\ same_run r e = false.

(** The API row [a], merged after the export rows [es] and the API rows
    [pre], lands on the record of [e]: it has the id of [e]; or no row so
    far has its id, [e] meets it on the key, and every row so far that
    meets it on the key has the id of [e]. *)
Definition lands_on (es pre : list (row num)) (a e : row num) : Prop :=
  activity_id a = activity_id e
  \/ (~ In (activity_id a) (map activity_id (es ++ pre))
      /\ same_run a e = true
      /\ forall x, In x (es ++ pre)%list -> same_run a x = true ->
           activity_id x = activity_id e).

(** A week of [by_week]: its number is one of the plan, and it has a run. *)
Definition week_ok (kv : Z * list (run num)) : Prop :=
  1 <= fst kv <= 18 /\ snd kv <> [].

(** The sum of a list of integers. *)
Definition zsum (l : list Z) : Z := fold_right Z.add 0 l.

(** The run counts of the populated weeks. *)
Definition week_counts (wk_ae : list (Z * week_stats num)) : list Z :=
  map (fun kv => w_n (snd kv)) wk_ae.

End MoreVocabulary.

(** The points lie on the line [hr = a * speed + b]. *)
Definition on_line (a b : Q) (pts : list (run Q)) : Prop :=
  Forall (fun p => Qeq (r_hr p) (a * r_speed p + b)) pts.

(** * Properties *)

(** ** Status builder *)

(** C1 (amended): [build_status] puts delta = target - predicted into
    exactly one of four buckets: AHEAD iff delta > 180, ON TRACK iff
    -60 <= delta <= 180, CLOSE iff -300 <= delta < -60, OFF PACE iff
    delta < -300.  So 180 and -60 are ON TRACK, and -300 is CLOSE. *)
Theorem build_status_buckets : forall pred_secs : Z,
  let delta := TARGET_SECS - pred_secs in
  let s := build_status pred_secs in
  delta_seconds s = delta
  /\ (status s = "AHEAD" <-> 180 < delta)
  /\ (status s = "ON TRACK" <-> -60 <= delta <= 180)
  /\ (status s = "CLOSE" <-> -300 <= delta < -60)
  /\ (status s = "OFF PACE" <-> delta < -300)
  /\ (delta = 180 -> status s = "ON TRACK")
  /\ (delta = -60 -> status s = "ON TRACK")
  /\ (delta = -300 -> status s = "CLOSE").
Proof.
  intros p delta s. subst s. unfold build_status. fold delta.
  destruct (180 <? delta) eqn:H1; [|destruct (-60 <=? delta) eqn:H2;
    [|destruct (-300 <=? delta) eqn:H3]]; cbn [status delta_seconds];
  repeat match goal with
  | H : (_ <? _) = true |- _ => apply Z.ltb_lt in H
  | H : (_ <? _) = false |- _ => apply Z.ltb_ge in H
  | H : (_ <=? _) = true |- _ => apply Z.leb_le in H
  | H : (_ <=? _) = false |- _ => apply Z.leb_gt in H
  end;
  repeat split; intros; try reflexivity; try lia; try discriminate.
Qed.

Lemma build_status_buckets_witness :
  TARGET_SECS - 9120 = 180 /\ status (build_status 9120) = "ON TRACK".
Proof.
  split; [reflexivity|].
  destruct (build_status_buckets 9120) as (_ & _ & _ & _ & _ & H180 & _).
  apply H180. reflexivity.
Defined.

(** C1, as stated, fails at delta = -300 (predicted time 9600 s): the
    status is CLOSE, not OFF PACE. *)
Lemma build_status_minus_300_is_close :
  delta_seconds (build_status 9600) = -300
  /\ status (build_status 9600) = "CLOSE"
  /\ status (build_status 9600) <> "OFF PACE".
Proof. repeat split. discriminate. Qed.

(** ** Week indexer *)

Lemma plan_week_of_date : forall s d,
  strptime_ymd s = Ok d ->
  plan_week s =
    let days := toordinal d - toordinal PLAN_START in
    if days <? 0 then Ok None
    else Ok (if (1 <=? days / 7 + 1) && (days / 7 + 1 <=? 18)
             then Some (days / 7 + 1) else None).
Proof.
  intros s d Hs. unfold plan_week. rewrite Hs. reflexivity.
Qed.

Lemma Zrange_In : forall lo n z, 0 <= lo -> lo <= z < lo + n -> In z (Zrange lo n).
Proof.
  intros lo n z Hlo H. unfold Zrange. apply in_map_iff. exists (Z.to_nat z).
  split; [lia|]. apply in_seq. lia.
Qed.

Lemma chk_year_all : forallb chk_year (Zrange 1 9999) = true.
Proof. vm_compute. reflexivity. Qed.

Lemma chk_month_day_all :
  forallb (fun m => forallb (chk_month_day m) (Zrange 1 31)) (Zrange 1 12) = true.
Proof. vm_compute. reflexivity. Qed.

Lemma strptime_of_parts : forall y m d,
  chk_year y = true -> chk_month_day m d = true ->
  strptime_ymd (fmt_04d y ++ "-" ++ fmt_02d m ++ "-" ++ fmt_02d d) = date_new y m d.
Proof.
  intros y m d Hy Hmd. unfold chk_year in Hy.
  destruct (fmt_04d y) as [|a [|b [|c [|e [|? ?]]]]]; try discriminate.
  apply andb_true_iff in Hy. destruct Hy as [Hy Hval].
  apply andb_true_iff in Hy. destruct Hy as [Hy He].
  apply andb_true_iff in Hy. destruct Hy as [Hy Hc].
  apply andb_true_iff in Hy. destruct Hy as [Ha Hb].
  apply Z.eqb_eq in Hval.
  unfold chk_month_day in Hmd. cbn [append] in Hmd.
  cbn [append]. unfold strptime_ymd.
  rewrite Ha, Hb, Hc, He, Hval. simpl andb. cbv iota.
  destruct (parse_month _) as [[m' [|sep rest]]|]; try discriminate.
  apply andb_true_iff in Hmd. destruct Hmd as [Hmd Hd].
  apply andb_true_iff in Hmd. destruct Hmd as [Hm Hsep].
  rewrite Hsep. apply Z.eqb_eq in Hm. subst m'.
  destruct (parse_day rest) as [[d' [|? ?]]|]; try discriminate.
  apply Z.eqb_eq in Hd. subst d'. reflexivity.
Qed.

(** Every calendar date, written as [strftime] writes it, is read back. *)
Lemma strptime_strftime : forall y m d dt,
  date_new y m d = Ok dt -> strptime_ymd (strftime_ymd dt) = Ok dt.
Proof.
  intros y m d dt H. pose proof H as H'. unfold date_new in H.
  destruct (_ && _) eqn:E; [|discriminate]. inversion H; subst dt.
  repeat (apply andb_true_iff in E; destruct E as [E ?]).
  apply Z.leb_le in E, H0, H1, H2, H3, H4.
  assert (Hd : d <= 31).
  { unfold days_in_month in H0. repeat destruct (_ =? _) in H0; simpl in H0;
      try destruct (is_leap y); lia. }
  unfold strftime_ymd. cbn [year month day].
  rewrite strptime_of_parts; [exact H'| |].
  - pose proof chk_year_all as A. rewrite forallb_forall in A.
    apply A, Zrange_In; lia.
  - pose proof chk_month_day_all as A. rewrite forallb_forall in A.
    specialize (A m (Zrange_In 1 12 m ltac:(lia) ltac:(lia))).
    rewrite forallb_forall in A. apply A, Zrange_In; lia.
Qed.

Lemma plan_week_cases : forall s d,
  strptime_ymd s = Ok d ->
  let days := toordinal d - toordinal PLAN_START in
  let w := days / 7 + 1 in
  (1 <= w <= 18 -> plan_week s = Ok (Some w))
  /\ (days = 0 -> plan_week s = Ok (Some 1))
  /\ (days = 7 -> plan_week s = Ok (Some 2))
  /\ (days < 0 -> plan_week s = Ok None)
  /\ (19 <= w -> plan_week s = Ok None).
Proof.
  intros s d Hs days w.
  rewrite (plan_week_of_date s d Hs). cbv zeta. fold days. fold w.
  assert (Hneg : days < 0 -> w <= 0).
  { intro Hd. subst w.
    assert (days / 7 < 0) by (apply Z.div_lt_upper_bound; lia). lia. }
  assert (Hpos : 0 <= days -> 1 <= w).
  { intro Hd. subst w. assert (0 <= days / 7) by (apply Z.div_pos; lia). lia. }
  repeat split.
  - intros [Hlo Hhi].
    destruct (days <? 0) eqn:E.
    + apply Z.ltb_lt in E. specialize (Hneg E). lia.
    + apply Z.leb_le in Hlo, Hhi. rewrite Hlo, Hhi. reflexivity.
  - intro H0. subst w. rewrite H0. reflexivity.
  - intro H7. subst w. rewrite H7. reflexivity.
  - intro Hd. apply Z.ltb_lt in Hd. rewrite Hd. reflexivity.
  - intro Hw.
    destruct (days <? 0) eqn:E; [reflexivity|].
    assert (Hgt : (w <=? 18) = false) by (apply Z.leb_gt; lia).
    rewrite Hgt, andb_false_r. reflexivity.
Qed.

(** C5: every calendar date in the form [YYYY-MM-DD] is parsed, and for
    every date string the script can parse, [plan_week] returns
    floor(days / 7) + 1 when this is between 1 and 18, where days is the
    number of days since the plan start; the start itself is week 1, the
    date 7 days later week 2; a date before the start, and a date whose
    week would be 19 or more, give no week. *)
Theorem plan_week_spec :
  (forall y m dd dt,
     date_new y m dd = Ok dt -> strptime_ymd (strftime_ymd dt) = Ok dt)
  /\ (forall s d,
        strptime_ymd s = Ok d ->
        let days := toordinal d - toordinal PLAN_START in
        let w := days / 7 + 1 in
        (1 <= w <= 18 -> plan_week s = Ok (Some w))
        /\ (days = 0 -> plan_week s = Ok (Some 1))
        /\ (days = 7 -> plan_week s = Ok (Some 2))
        /\ (days < 0 -> plan_week s = Ok None)
        /\ (19 <= w -> plan_week s = Ok None)).
Proof.
  split; [exact strptime_strftime | exact plan_week_cases].
Qed.

Lemma plan_week_spec_witness :
  strptime_ymd (strftime_ymd (mk_date 2025 12 29)) = Ok (mk_date 2025 12 29)
  /\ plan_week "2025-12-29" = Ok (Some 2).
Proof.
  split.
  - apply (proj1 plan_week_spec 2025 12 29). reflexivity.
  - apply (proj2 plan_week_spec "2025-12-29" (mk_date 2025 12 29) eq_refl).
    reflexivity.
Defined.

(** Some dates of the plan, across the change of year and of month. *)
Example plan_week_samples :
  plan_week "2025-12-22" = Ok (Some 1)
  /\ plan_week "2025-12-28" = Ok (Some 1)
  /\ plan_week "2026-01-05" = Ok (Some 3)
  /\ plan_week "2026-04-26" = Ok (Some 18)
  /\ plan_week "2026-04-27" = Ok None
  /\ plan_week "2025-12-21" = Ok None
  /\ plan_week "2025-02-29" = Raise ValueError.
Proof. repeat split. Qed.

(** ** Merger *)

Section MergeFacts.

Context {num : Type} {arith : PyNum num}.

Lemma dict_mem_In : forall k (m : master num), dict_mem k m = true <-> In k (keys m).
Proof.
  induction m as [|[k' v] m IH]; simpl.
  - split; [discriminate | tauto].
  - rewrite orb_true_iff, IH, String.eqb_eq. tauto.
Qed.

Lemma dict_mem_not_In : forall k (m : master num), dict_mem k m = false <-> ~ In k (keys m).
Proof.
  intros k m. rewrite <- dict_mem_In. destruct (dict_mem k m); split; congruence.
Qed.

Lemma keys_dict_set : forall k v (m : master num),
  keys (dict_set k v m) = if dict_mem k m then keys m else (keys m ++ [k])%list.
Proof.
  induction m as [|[k' v'] m IH]; simpl; [reflexivity|].
  destruct (String.eqb k' k) eqn:E; simpl; [reflexivity|].
  rewrite IH. destruct (dict_mem k m); reflexivity.
Qed.

Lemma keys_dict_update : forall k f (m : master num), keys (dict_update k f m) = keys m.
Proof.
  induction m as [|[k' v'] m IH]; simpl; [reflexivity|].
  destruct (String.eqb k' k); simpl; congruence.
Qed.

Lemma keys_update_first : forall p f (m : master num), keys (update_first p f m) = keys m.
Proof.
  induction m as [|[k' v'] m IH]; simpl; [reflexivity|].
  destruct (p v'); simpl; congruence.
Qed.

Lemma length_keys : forall m : master num, List.length (keys m) = List.length m.
Proof. intro m. apply length_map. Qed.

Lemma well_keyed_dict_set : forall r (m : master num),
  well_keyed m -> well_keyed (dict_set (activity_id r) r m).
Proof.
  intros r m [Hnd Hid]. split.
  - rewrite keys_dict_set. destruct (dict_mem (activity_id r) m) eqn:E; [exact Hnd|].
    apply dict_mem_not_In in E.
    apply NoDup_rev in Hnd. rewrite <- (rev_involutive (keys m ++ _)).
    apply NoDup_rev. rewrite rev_app_distr. simpl. constructor; [|exact Hnd].
    rewrite <- in_rev. exact E.
  - clear Hnd. induction m as [|[k' v'] m IH]; simpl.
    + repeat constructor.
    + inversion Hid as [|? ? Hh Ht]; subst.
      destruct (String.eqb k' (activity_id r)) eqn:E.
      * apply String.eqb_eq in E. constructor; [simpl; congruence | exact Ht].
      * constructor; [exact Hh | apply IH; exact Ht].
Qed.

Lemma well_keyed_dict_update : forall k h (m : master num),
  well_keyed m -> well_keyed (dict_update k (set_avg_hr h) m).
Proof.
  intros k h m [Hnd Hid]. split; [rewrite keys_dict_update; exact Hnd|].
  clear Hnd. induction m as [|[k' v'] m IH]; simpl; [constructor|].
  inversion Hid as [|? ? Hh Ht]; subst.
  destruct (String.eqb k' k); constructor; auto.
Qed.

Lemma well_keyed_update_first : forall p h (m : master num),
  well_keyed m -> well_keyed (update_first p (set_avg_hr h) m).
Proof.
  intros p h m [Hnd Hid]. split; [rewrite keys_update_first; exact Hnd|].
  clear Hnd. induction m as [|[k' v'] m IH]; simpl; [constructor|].
  inversion Hid as [|? ? Hh Ht]; subst.
  destruct (p v'); constructor; auto.
Qed.

(** What one API row does to the keys: nothing, or one new key at the end. *)
Lemma keys_merge_api_row : forall (m : master num) r,
  keys (merge_api_row m r) = keys m
  \/ (keys (merge_api_row m r) = (keys m ++ [activity_id r])%list
      /\ ~ In (activity_id r) (keys m)).
Proof.
  intros m r. unfold merge_api_row.
  destruct (dict_mem (activity_id r) m) eqn:E.
  - left. destruct (hr_truthy (avg_hr r)); [apply keys_dict_update | reflexivity].
  - destruct (find _ m).
    + left. destruct (hr_truthy (avg_hr r)); [apply keys_update_first | reflexivity].
    + right. rewrite keys_dict_set, E. split; [reflexivity|].
      apply dict_mem_not_In. exact E.
Qed.

Lemma well_keyed_merge_api_row : forall (m : master num) r,
  well_keyed m -> well_keyed (merge_api_row m r).
Proof.
  intros m r Hm. unfold merge_api_row.
  destruct (dict_mem (activity_id r) m).
  - destruct (hr_truthy (avg_hr r)); [apply well_keyed_dict_update|]; exact Hm.
  - destruct (find _ m).
    + destruct (hr_truthy (avg_hr r)); [apply well_keyed_update_first|]; exact Hm.
    + apply well_keyed_dict_set. exact Hm.
Qed.

Lemma well_keyed_fold_api : forall api_rows (m : master num),
  well_keyed m -> well_keyed (fold_left merge_api_row api_rows m).
Proof.
  induction api_rows as [|r rs IH]; simpl; intros m Hm; [exact Hm|].
  apply IH, well_keyed_merge_api_row, Hm.
Qed.

Lemma length_fold_api : forall api_rows (m : master num),
  (List.length m <= List.length (fold_left merge_api_row api_rows m)
   <= List.length m + List.length api_rows)%nat.
Proof.
  induction api_rows as [|r rs IH]; simpl; intros m; [lia|].
  specialize (IH (merge_api_row m r)).
  assert (H : (List.length m <= List.length (merge_api_row m r) <= S (List.length m))%nat).
  { rewrite <- !length_keys.
    destruct (keys_merge_api_row m r) as [-> | [-> _]];
      [|rewrite length_app; simpl]; lia. }
  lia.
Qed.

Lemma seed_fold_spec : forall export_rows (m : master num),
  well_keyed m ->
  let m' := fold_left (fun m r => dict_set (activity_id r) r m) export_rows m in
  well_keyed m'
  /\ (forall k, In k (keys m') <-> In k (keys m) \/ In k (map activity_id export_rows))
  /\ (List.length m' <= List.length m + List.length export_rows)%nat.
Proof.
  induction export_rows as [|r rs IH]; simpl; intros m Hm.
  - repeat split; [apply Hm | apply Hm | tauto | intros [H|[]]; exact H | lia].
  - destruct (IH (dict_set (activity_id r) r m) (well_keyed_dict_set r m Hm))
      as (Hw & Hk & Hl).
    repeat split; [apply Hw | apply Hw | | | ].
    + intro H. apply Hk in H. rewrite keys_dict_set in H.
      destruct (dict_mem (activity_id r) m) eqn:E; [tauto|].
      destruct H as [H|H]; [|tauto]. apply in_app_or in H.
      simpl in H. tauto.
    + intro H. apply Hk. rewrite keys_dict_set.
      destruct (dict_mem (activity_id r) m) eqn:E.
      * apply dict_mem_In in E. destruct H as [H|[H|H]]; subst; tauto.
      * rewrite in_app_iff. simpl. tauto.
    + rewrite <- !length_keys in *. rewrite keys_dict_set in Hl.
      destruct (dict_mem (activity_id r) m); [|rewrite length_app in Hl; simpl in Hl]; lia.
Qed.

Lemma seed_export_spec : forall export_rows : list (row num),
  well_keyed (seed_export export_rows)
  /\ (forall k, In k (keys (seed_export export_rows))
                <-> In k (map activity_id export_rows))
  /\ (List.length (seed_export export_rows) <= List.length export_rows)%nat.
Proof.
  intro es. unfold seed_export.
  destruct (seed_fold_spec es [] (conj (NoDup_nil _) (Forall_nil _))) as (Hw & Hk & Hl).
  repeat split; [apply Hw | apply Hw | | | exact Hl].
  - intro H. apply Hk in H. destruct H as [[]|H]. exact H.
  - intro H. apply Hk. right. exact H.
Qed.

(** The sort permutes its argument. *)
Lemma insert_by_date_perm : forall x (l : list (row num)),
  Permutation (insert_by_date x l) (x :: l).
Proof.
  induction l as [|y l IH]; simpl; [reflexivity|].
  destruct (String.ltb (date y) (date x)); [|reflexivity].
  rewrite IH. apply perm_swap.
Qed.

Lemma sorted_by_date_perm : forall l : list (row num), Permutation (sorted_by_date l) l.
Proof.
  induction l as [|x l IH]; simpl; [reflexivity|].
  rewrite insert_by_date_perm. constructor. exact IH.
Qed.

Lemma ids_of_well_keyed : forall m : master num,
  well_keyed m -> map activity_id (map snd m) = keys m.
Proof.
  intros m [_ Hid]. induction Hid as [|[k v] m Hh Ht IH]; simpl; [reflexivity|].
  simpl in Hh. congruence.
Qed.

Lemma merge_perm_master : forall export_rows api_rows : list (row num),
  exists m : master num,
    m = fold_left merge_api_row api_rows (seed_export export_rows)
    /\ well_keyed m
    /\ Permutation (merge export_rows api_rows) (map snd m).
Proof.
  intros es rs. eexists. split; [reflexivity|]. split.
  - apply well_keyed_fold_api. apply (seed_export_spec es).
  - apply sorted_by_date_perm.
Qed.

Lemma merge_ids_NoDup : forall export_rows api_rows : list (row num),
  NoDup (map activity_id (merge export_rows api_rows)).
Proof.
  intros es rs. destruct (merge_perm_master es rs) as (m & Hm & Hw & Hp).
  apply (Permutation_NoDup (l := map activity_id (map snd m))).
  - apply Permutation_map, Permutation_sym, Hp.
  - rewrite ids_of_well_keyed by exact Hw. apply Hw.
Qed.

Lemma dict_set_fresh : forall k (v : row num) (m : master num),
  dict_mem k m = false -> dict_set k v m = (m ++ [(k, v)])%list.
Proof.
  induction m as [|[k' v'] m IH]; simpl; intro H; [reflexivity|].
  apply orb_false_iff in H. destruct H as [H1 H2].
  rewrite H1, IH by exact H2. reflexivity.
Qed.

Lemma NoDup_map_eq : forall (A B : Type) (f : A -> B) (l : list A) x y,
  NoDup (map f l) -> In x l -> In y l -> f x = f y -> x = y.
Proof.
  induction l as [|z l IH]; simpl; intros x y Hnd Hx Hy Hf; [tauto|].
  inversion Hnd as [|? ? Hnotin Hnd']; subst.
  destruct Hx as [-> | Hx], Hy as [-> | Hy].
  - reflexivity.
  - exfalso. apply Hnotin. rewrite Hf. apply in_map, Hy.
  - exfalso. apply Hnotin. rewrite <- Hf. apply in_map, Hx.
  - eauto.
Qed.

End MergeFacts.

(** C2 (amended): in the output of [merge] no id occurs twice; the output
    has at most as many records as the two inputs together, and at least
    as many as there are distinct ids in the export input. *)
Theorem merge_unique_ids_and_bounds :
  forall (num : Type) (arith : PyNum num) (export_rows api_rows : list (row num)),
  NoDup (map activity_id (merge export_rows api_rows))
  /\ (List.length (merge export_rows api_rows)
      <= List.length export_rows + List.length api_rows)%nat
  /\ (List.length (nodup string_dec (map activity_id export_rows))
      <= List.length (merge export_rows api_rows))%nat.
Proof.
  intros num arith es rs.
  destruct (merge_perm_master es rs) as (m & Hm & Hw & Hp).
  destruct (seed_export_spec es) as (Hsw & Hsk & Hsl).
  pose proof (length_fold_api rs (seed_export es)) as Hlen. rewrite <- Hm in Hlen.
  rewrite (Permutation_length Hp), length_map.
  repeat split.
  - apply merge_ids_NoDup.
  - lia.
  - apply Nat.le_trans with (List.length (seed_export es)); [|lia].
    rewrite <- length_keys. apply NoDup_incl_length.
    + apply NoDup_nodup.
    + intros k Hk. apply nodup_In in Hk. apply Hsk. exact Hk.
Qed.

(** C2, as stated, fails on its lower bound: two API activities of one
    day whose distances round to the same 0.1 km are merged into one
    record, so the output is smaller than the number of distinct API ids. *)
Lemma merge_smaller_than_api_ids :
  exists a1 a2 : row float,
    norm_api api_morning = Ok a1 /\ norm_api api_evening = Ok a2
    /\ List.length (nodup string_dec (map activity_id [a1; a2])) = 2%nat
    /\ List.length (merge [] [a1; a2]) = 1%nat
    /\ ~ (Nat.max (List.length (nodup string_dec (map activity_id (@nil (row float)))))
                  (List.length (nodup string_dec (map activity_id [a1; a2])))
          <= List.length (merge [] [a1; a2]))%nat.
Proof.
  eexists. eexists. split; [vm_compute; reflexivity|].
  split; [vm_compute; reflexivity|].
  split; [vm_compute; reflexivity|].
  split; [vm_compute; reflexivity|].
  vm_compute. intro H. inversion H as [|? H']. inversion H'.
Qed.

(** *** Entries of the dictionary *)

Section MergeMore.

Context {num : Type} {arith : PyNum num}.

Lemma ltb_asym : forall s1 s2 : string,
  String.ltb s1 s2 = true -> String.ltb s2 s1 = false.
Proof.
  intros s1 s2 H. unfold String.ltb in *. rewrite String.compare_antisym.
  destruct (String.compare s1 s2); simpl; congruence.
Qed.

Lemma insert_by_date_sorted : forall (x : row num) l,
  Sorted date_le l -> Sorted date_le (insert_by_date x l).
Proof.
  induction l as [|y l IH]; simpl; intro H.
  - repeat constructor.
  - inversion H as [|? ? Hs Hhd]; subst.
    destruct (String.ltb (date y) (date x)) eqn:E.
    + constructor; [apply IH, Hs|].
      destruct l as [|z l']; simpl.
      * constructor. unfold date_le. apply ltb_asym, E.
      * inversion Hhd as [|? ? Hyz]; subst.
        destruct (String.ltb (date z) (date x)); constructor;
          [exact Hyz | unfold date_le; apply ltb_asym, E].
    + constructor; [exact H|]. constructor. exact E.
Qed.

Lemma sorted_by_date_sorted : forall l : list (row num), Sorted date_le (sorted_by_date l).
Proof.
  induction l as [|x l IH]; simpl; [constructor|].
  apply insert_by_date_sorted, IH.
Qed.

(** What an entry of the dictionary can be after one API row. *)
Lemma dict_update_In_inv : forall k0 f k (v' : row num) (m : master num),
  In (k, v') (dict_update k0 f m) ->
  exists v, In (k, v) m /\ (v' = v \/ v' = f v).
Proof.
  induction m as [|[k1 v1] m IH]; simpl; intro H; [tauto|].
  destruct (String.eqb k1 k0).
  - destruct H as [H|H].
    + inversion H; subst. exists v1. auto.
    + exists v'. auto.
  - destruct H as [H|H].
    + inversion H; subst. exists v'. auto.
    + destruct (IH H) as (v & Hin & Hv). exists v. auto.
Qed.

Lemma update_first_In_inv : forall p f k (v' : row num) (m : master num),
  In (k, v') (update_first p f m) ->
  exists v, In (k, v) m /\ (v' = v \/ v' = f v).
Proof.
  induction m as [|[k1 v1] m IH]; simpl; intro H; [tauto|].
  destruct (p v1).
  - destruct H as [H|H].
    + inversion H; subst. exists v1. auto.
    + exists v'. auto.
  - destruct H as [H|H].
    + inversion H; subst. exists v'. auto.
    + destruct (IH H) as (v & Hin & Hv). exists v. auto.
Qed.

Lemma dict_set_In_inv : forall k0 r k (v' : row num) (m : master num),
  In (k, v') (dict_set k0 r m) -> In (k, v') m \/ (k = k0 /\ v' = r).
Proof.
  induction m as [|[k1 v1] m IH]; simpl; intro H.
  - destruct H as [H|[]]. inversion H; subst. auto.
  - destruct (String.eqb k1 k0) eqn:E.
    + destruct H as [H|H]; [|auto].
      inversion H; subst. apply String.eqb_eq in E. auto.
    + destruct H as [H|H]; [auto|]. destruct (IH H); auto.
Qed.

Lemma merge_api_row_In_inv : forall (m : master num) r k v',
  In (k, v') (merge_api_row m r) ->
  (k = activity_id r /\ v' = r)
  \/ exists v, In (k, v) m /\ (v' = v \/ v' = set_avg_hr (avg_hr r) v).
Proof.
  intros m r k v' H. unfold merge_api_row in H.
  destruct (dict_mem (activity_id r) m).
  - right. destruct (hr_truthy (avg_hr r)).
    + apply dict_update_In_inv in H. exact H.
    + exists v'. auto.
  - destruct (find _ m).
    + right. destruct (hr_truthy (avg_hr r)).
      * apply update_first_In_inv in H. exact H.
      * exists v'. auto.
    + apply dict_set_In_inv in H. destruct H as [H|H]; [|auto].
      right. exists v'. auto.
Qed.

(** Every stored row stays, possibly with the heart rate of the API row. *)
Lemma dict_update_keeps : forall k0 f k (v : row num) (m : master num),
  In (k, v) m -> In (k, v) (dict_update k0 f m) \/ In (k, f v) (dict_update k0 f m).
Proof.
  induction m as [|[k1 v1] m IH]; simpl; intro H; [tauto|].
  destruct (String.eqb k1 k0); destruct H as [H|H].
  - inversion H; subst. right. left. reflexivity.
  - left. right. exact H.
  - left. left. exact H.
  - destruct (IH H); [left | right]; right; assumption.
Qed.

Lemma update_first_keeps : forall p f k (v : row num) (m : master num),
  In (k, v) m -> In (k, v) (update_first p f m) \/ In (k, f v) (update_first p f m).
Proof.
  induction m as [|[k1 v1] m IH]; simpl; intro H; [tauto|].
  destruct (p v1); destruct H as [H|H].
  - inversion H; subst. right. left. reflexivity.
  - left. right. exact H.
  - left. left. exact H.
  - destruct (IH H); [left | right]; right; assumption.
Qed.

Lemma merge_api_row_keeps : forall (m : master num) r k v,
  In (k, v) m ->
  In (k, v) (merge_api_row m r)
  \/ In (k, set_avg_hr (avg_hr r) v) (merge_api_row m r).
Proof.
  intros m r k v H. unfold merge_api_row.
  destruct (dict_mem (activity_id r) m) eqn:E.
  - destruct (hr_truthy (avg_hr r)); [apply dict_update_keeps, H | auto].
  - destruct (find _ m).
    + destruct (hr_truthy (avg_hr r)); [apply update_first_keeps, H | auto].
    + left. rewrite (dict_set_fresh _ _ _ E). apply in_or_app. auto.
Qed.

(** A property of rows that the heart-rate update keeps holds of every
    stored row, if it holds of the initial ones and of the API rows. *)
Lemma fold_api_values_ind : forall (P : row num -> Prop) (rs : list (row num)) (m : master num),
  (forall k v, In (k, v) m -> P v) ->
  (forall r, In r rs -> P r) ->
  (forall r v, In r rs -> P v -> P (set_avg_hr (avg_hr r) v)) ->
  forall k v, In (k, v) (fold_left merge_api_row rs m) -> P v.
Proof.
  intros P. induction rs as [|r rs IH]; simpl; intros m Hm Hrs Hupd k v H.
  - eauto.
  - apply (IH (merge_api_row m r)) in H; auto.
    intros k' v' H'. apply merge_api_row_In_inv in H'.
    destruct H' as [[_ ->] | (v0 & Hin & [-> | ->])]; eauto.
Qed.

Lemma seed_export_values : forall (es : list (row num)) k v,
  In (k, v) (seed_export es) -> In v es.
Proof.
  intros es. unfold seed_export.
  assert (G : forall (rs : list (row num)) (m : master num) k v,
             In (k, v) (fold_left (fun m r => dict_set (activity_id r) r m) rs m) ->
             In (k, v) m \/ In v rs).
  { induction rs as [|r rs IH]; simpl; intros m k v H; [auto|].
    apply IH in H. destruct H as [H|H]; [|auto].
    apply dict_set_In_inv in H. destruct H as [H | [_ ->]]; auto. }
  intros k v H. apply G in H. destruct H as [[]|H]. exact H.
Qed.

Lemma merge_values_ind : forall (P : row num -> Prop) (es rs : list (row num)),
  (forall r, In r es -> P r) ->
  (forall r, In r rs -> P r) ->
  (forall r v, In r rs -> P v -> P (set_avg_hr (avg_hr r) v)) ->
  forall m, In m (merge es rs) -> P m.
Proof.
  intros P es rs Hes Hrs Hupd m Hm. unfold merge in Hm.
  apply (Permutation_in _ (sorted_by_date_perm _)) in Hm.
  apply in_map_iff in Hm. destruct Hm as ([k v] & <- & Hin). simpl.
  apply (fold_api_values_ind P rs (seed_export es)) with (k := k); auto.
  intros k' v' H'. apply Hes. apply (seed_export_values es k' v' H').
Qed.

Lemma keys_fold_api_grow : forall (rs : list (row num)) (m : master num) k,
  In k (keys m) -> In k (keys (fold_left merge_api_row rs m)).
Proof.
  induction rs as [|r rs IH]; simpl; intros m k H; [exact H|].
  apply IH. destruct (keys_merge_api_row m r) as [-> | [-> _]];
    [exact H | apply in_or_app; auto].
Qed.

Lemma keys_fold_api_from : forall (rs : list (row num)) (m : master num) k,
  In k (keys (fold_left merge_api_row rs m)) ->
  In k (keys m) \/ In k (map activity_id rs).
Proof.
  induction rs as [|r rs IH]; simpl; intros m k H; [auto|].
  apply IH in H. destruct H as [H|H]; [|auto].
  destruct (keys_merge_api_row m r) as [E | [E _]]; rewrite E in H; [auto|].
  apply in_app_or in H. destruct H as [H|[H|[]]]; auto.
Qed.

Lemma merge_ids_keys : forall es rs : list (row num),
  forall k, In k (map activity_id (merge es rs))
            <-> In k (keys (fold_left merge_api_row rs (seed_export es))).
Proof.
  intros es rs k.
  destruct (merge_perm_master es rs) as (m & Hm & Hw & Hp).
  rewrite <- Hm, <- (ids_of_well_keyed m Hw).
  split; apply Permutation_in; [|symmetry]; apply Permutation_map; exact Hp.
Qed.

(** After its own step an API row is in the dictionary by id or by key,
    and later steps do not undo this. *)
Lemma same_run_set_avg_hr : forall (a v : row num) h,
  same_run a (set_avg_hr h v) = same_run a v.
Proof. reflexivity. Qed.

Lemma fold_api_keeps_match : forall (a : row num) (rs : list (row num)) (m : master num),
  (exists k v, In (k, v) m /\ same_run a v = true) ->
  exists k v, In (k, v) (fold_left merge_api_row rs m) /\ same_run a v = true.
Proof.
  intros a. induction rs as [|r rs IH]; simpl; intros m H; [exact H|].
  apply IH. destruct H as (k & v & Hin & Hs).
  destruct (merge_api_row_keeps m r k v Hin) as [H|H]; eauto.
Qed.

Lemma merge_api_row_represents : forall (m : master num) (a : row num),
  In (activity_id a) (keys (merge_api_row m a))
  \/ exists k v, In (k, v) (merge_api_row m a) /\ same_run a v = true.
Proof.
  intros m a. unfold merge_api_row.
  destruct (dict_mem (activity_id a) m) eqn:E.
  - left. apply dict_mem_In in E.
    destruct (hr_truthy (avg_hr a)); [rewrite keys_dict_update|]; exact E.
  - destruct (find _ m) as [[k v]|] eqn:F.
    + right. apply find_some in F. destruct F as [Hin Hs]. simpl in Hs.
      destruct (hr_truthy (avg_hr a)); [|eauto].
      destruct (update_first_keeps (same_run a) (set_avg_hr (avg_hr a)) k v m Hin);
        eauto.
    + left. rewrite keys_dict_set, E. apply in_or_app. simpl. auto.
Qed.

End MergeMore.

Section ExportOnly.

Context {num : Type} {arith : PyNum num}.

Lemma dict_set_In_new : forall k (r : row num) (m : master num),
  In (k, r) (dict_set k r m).
Proof.
  induction m as [|[k1 v1] m IH]; simpl; [auto|].
  destruct (String.eqb k1 k) eqn:E; simpl; [|auto].
  apply String.eqb_eq in E. subst. auto.
Qed.

Lemma dict_set_keeps_other : forall k0 (r : row num) k v (m : master num),
  k <> k0 -> In (k, v) m -> In (k, v) (dict_set k0 r m).
Proof.
  induction m as [|[k1 v1] m IH]; simpl; intros Hk H; [tauto|].
  destruct (String.eqb k1 k0) eqn:E; simpl.
  - apply String.eqb_eq in E. destruct H as [H|H]; [|auto].
    inversion H; subst. congruence.
  - destruct H as [H|H]; auto.
Qed.

Lemma seed_export_snoc : forall (es : list (row num)) r,
  seed_export (es ++ [r]) = dict_set (activity_id r) r (seed_export es).
Proof.
  intros es r. unfold seed_export. rewrite fold_left_app. reflexivity.
Qed.

Lemma well_keyed_In : forall (m : master num) k v,
  well_keyed m -> In (k, v) m -> activity_id v = k.
Proof.
  intros m k v [_ Hid] Hin. rewrite Forall_forall in Hid.
  apply (Hid (k, v) Hin).
Qed.

Lemma well_keyed_functional : forall (m : master num) k v1 v2,
  well_keyed m -> In (k, v1) m -> In (k, v2) m -> v1 = v2.
Proof.
  intros m k v1 v2 [Hnd _]. unfold keys in Hnd.
  induction m as [|[k0 v0] m IH]; simpl; intros H1 H2; [tauto|].
  simpl in Hnd. inversion Hnd as [|? ? Hnotin Hnd']; subst.
  destruct H1 as [H1|H1], H2 as [H2|H2].
  - congruence.
  - inversion H1; subst. exfalso. apply Hnotin. apply (in_map fst) in H2. exact H2.
  - inversion H2; subst. exfalso. apply Hnotin. apply (in_map fst) in H1. exact H1.
  - auto.
Qed.

(** The seeding keeps, for every id, the last export row that has it. *)
Lemma seed_export_last : forall (es : list (row num)) v,
  (exists k, In (k, v) (seed_export es)) <-> last_with_its_id es v.
Proof.
  induction es as [|r es IH] using rev_ind; intro v.
  - split.
    + intros (k & []).
    + intros (pre & post & H & _). destruct pre; discriminate.
  - rewrite seed_export_snoc.
    pose proof (proj1 (seed_export_spec es)) as Hw.
    pose proof (well_keyed_dict_set r _ Hw) as Hw'.
    split.
    + intros (k & Hin).
      destruct (string_dec k (activity_id r)) as [-> | Hne].
      * assert (v = r).
        { apply (well_keyed_functional _ _ _ _ Hw' Hin). apply dict_set_In_new. }
        subst v. exists es, []. split; [reflexivity | simpl; tauto].
      * apply dict_set_In_inv in Hin. destruct Hin as [Hin | [Hk _]]; [|congruence].
        pose proof (well_keyed_In _ _ _ Hw Hin) as Hid.
        destruct (proj1 (IH v) (ex_intro _ k Hin)) as (pre & post & Hes & Hnot).
        exists pre, (post ++ [r])%list. split.
        { rewrite Hes, <- app_assoc. reflexivity. }
        rewrite map_app, in_app_iff. simpl. intros [H | [H | []]]; [tauto|].
        congruence.
    + intros (pre & post & Hes & Hnot).
      destruct post as [|p post] using rev_ind.
      * apply (app_inj_tail es pre r v) in Hes. destruct Hes as [_ ->].
        exists (activity_id v). apply dict_set_In_new.
      * clear IHpost.
        change (pre ++ v :: post ++ [p])%list with (pre ++ (v :: post) ++ [p])%list in Hes.
        rewrite app_assoc in Hes. apply app_inj_tail in Hes. destruct Hes as [Hes ->].
        rewrite map_app, in_app_iff in Hnot. simpl in Hnot.
        destruct (proj2 (IH v)) as (k & Hin).
        { exists pre, post. split; [exact Hes | tauto]. }
        exists k. apply dict_set_keeps_other; [|exact Hin].
        rewrite <- (well_keyed_In _ _ _ Hw Hin). intro E. apply Hnot. auto.
Qed.

End ExportOnly.

(** *** Heart-rate priority *)

Section HrPriority.

Context {num : Type} {arith : PyNum num}.

(** With distinct ids the seeding stores the export rows in their order. *)
Lemma seed_fold_distinct : forall (rs : list (row num)) (m : master num),
  NoDup (keys m ++ map activity_id rs) ->
  fold_left (fun m r => dict_set (activity_id r) r m) rs m
  = (m ++ map (fun r => (activity_id r, r)) rs)%list.
Proof.
  induction rs as [|r rs IH]; simpl; intros m Hnd.
  - rewrite app_nil_r. reflexivity.
  - assert (Hset : dict_set (activity_id r) r m = (m ++ [(activity_id r, r)])%list).
    { apply NoDup_remove_2 in Hnd.
      assert (Hn : ~ In (activity_id r) (keys m)) by (intro; apply Hnd, in_or_app; tauto).
      clear - Hn. induction m as [|[k v] m IHm]; simpl; [reflexivity|].
      simpl in Hn. destruct (String.eqb k (activity_id r)) eqn:E.
      - apply String.eqb_eq in E. tauto.
      - rewrite IHm by tauto. reflexivity. }
    rewrite Hset, IH.
    + rewrite <- app_assoc. reflexivity.
    + unfold keys. rewrite map_app. simpl. rewrite <- app_assoc. exact Hnd.
Qed.

Lemma seed_export_distinct : forall es : list (row num),
  NoDup (map activity_id es) ->
  seed_export es = map (fun r => (activity_id r, r)) es.
Proof.
  intros es Hnd. unfold seed_export. rewrite seed_fold_distinct; [reflexivity|].
  exact Hnd.
Qed.

Lemma keys_seed_distinct : forall es : list (row num),
  keys (map (fun r => (activity_id r, r)) es) = map activity_id es.
Proof.
  intro es. unfold keys. rewrite map_map. reflexivity.
Qed.

(** [dict_update] reaches the entry of the key when keys are distinct. *)
Lemma dict_update_In : forall k f (v : row num) (m : master num),
  NoDup (keys m) -> In (k, v) m -> In (k, f v) (dict_update k f m).
Proof.
  induction m as [|[k' v'] m IH]; simpl; intros Hnd Hin; [tauto|].
  inversion Hnd as [|? ? Hnotin Hnd']; subst.
  destruct Hin as [Heq | Hin].
  - inversion Heq; subst. rewrite String.eqb_refl. left. reflexivity.
  - destruct (String.eqb k' k) eqn:E.
    + apply String.eqb_eq in E. subst k'. exfalso. apply Hnotin.
      apply (in_map fst) in Hin. exact Hin.
    + right. apply IH; assumption.
Qed.

(** [update_first] changes the first row that meets the test. *)
Lemma update_first_app : forall p f (pre post : master num) k (v : row num),
  Forall (fun kv => p (snd kv) = false) pre -> p v = true ->
  update_first p f (pre ++ (k, v) :: post)%list = (pre ++ (k, f v) :: post)%list.
Proof.
  induction pre as [|[k' v'] pre IH]; simpl; intros post k v Hpre Hv.
  - rewrite Hv. reflexivity.
  - inversion Hpre as [|? ? Hh Ht]; subst. simpl in Hh. rewrite Hh.
    rewrite IH by assumption. reflexivity.
Qed.

Lemma find_some_if_In : forall (p : string * row num -> bool) (m : master num) x,
  In x m -> p x = true -> exists y, find p m = Some y.
Proof.
  induction m as [|z m IH]; simpl; intros x Hin Hp; [tauto|].
  destruct (p z) eqn:E; [eauto|].
  destruct Hin as [-> | Hin]; [congruence | eauto].
Qed.

(** The heart rate a normalised API row carries is empty or true. *)
Lemma hr_or_empty_cases : forall f : jfield num,
  hr_or_empty f = None \/ hr_truthy (hr_or_empty f) = true.
Proof.
  intros [| |z|x]; simpl; auto.
  - destruct (z =? 0) eqn:E; simpl; [auto | rewrite E; auto].
  - destruct (truthy x) eqn:E; simpl; auto.
Qed.

Lemma norm_api_avg_hr : forall (act : activity num) r,
  norm_api act = Ok r -> avg_hr r = hr_or_empty (a_average_heartrate act).
Proof.
  intros act r. unfold norm_api.
  destruct (a_distance act); simpl; try discriminate;
  destruct (a_moving_time act); simpl; try discriminate;
  try (destruct (trunc_int _); simpl; try discriminate);
  intro H; inversion H; reflexivity.
Qed.

(** One API row against distinct export rows: the step on the id match
    and on the fuzzy match. *)
Lemma merge_single_api : forall (es : list (row num)) (a e : row num) pre post,
  NoDup (map activity_id es) ->
  es = (pre ++ e :: post)%list ->
  (activity_id e = activity_id a
   \/ (~ In (activity_id a) (map activity_id es)
       /\ same_run a e = true
       /\ Forall (fun x => same_run a x = false) pre)) ->
  Permutation (merge es [a]) (pre ++ merged_with a e :: post)%list.
Proof.
  intros es a e pre post Hnd Hes Hmatch.
  unfold merge. rewrite sorted_by_date_perm. simpl.
  rewrite (seed_export_distinct es Hnd).
  set (m := map (fun r => (activity_id r, r)) es).
  assert (Hm : m = (map (fun r => (activity_id r, r)) pre
                    ++ (activity_id e, e) :: map (fun r => (activity_id r, r)) post)%list).
  { subst m. rewrite Hes, map_app. reflexivity. }
  assert (Hsnd : forall l : list (row num),
             map snd (map (fun r => (activity_id r, r)) l) = l).
  { intro l. rewrite map_map. simpl. apply map_id. }
  unfold merge_api_row, merged_with.
  destruct Hmatch as [Hid | (Hnot & Hsame & Hpre)].
  - assert (Hmem : dict_mem (activity_id a) m = true).
    { apply dict_mem_In. subst m. rewrite keys_seed_distinct, Hes, map_app.
      apply in_or_app. right. left. exact Hid. }
    rewrite Hmem. destruct (hr_truthy (avg_hr a)).
    + assert (Hupd : dict_update (activity_id a) (set_avg_hr (avg_hr a)) m
                     = (map (fun r => (activity_id r, r)) pre
                        ++ (activity_id e, set_avg_hr (avg_hr a) e)
                        :: map (fun r => (activity_id r, r)) post)%list).
      { rewrite Hm. rewrite Hes, map_app in Hnd. simpl in Hnd.
        apply NoDup_remove_2 in Hnd.
        assert (Hp : ~ In (activity_id a) (map activity_id pre)).
        { rewrite <- Hid. intro. apply Hnd, in_or_app. tauto. }
        clear - Hp Hid. induction pre as [|x pre IH]; simpl.
        - rewrite Hid, String.eqb_refl. reflexivity.
        - simpl in Hp. destruct (String.eqb (activity_id x) (activity_id a)) eqn:E.
          + apply String.eqb_eq in E. tauto.
          + rewrite IH by tauto. reflexivity. }
      rewrite Hupd, map_app. simpl. rewrite !Hsnd. reflexivity.
    + rewrite Hm, map_app. simpl. rewrite !Hsnd. reflexivity.
  - assert (Hmem : dict_mem (activity_id a) m = false).
    { apply dict_mem_not_In. subst m. rewrite keys_seed_distinct. exact Hnot. }
    rewrite Hmem.
    destruct (find_some_if_In (fun kv => same_run a (snd kv)) m (activity_id e, e))
      as [y Hy].
    { rewrite Hm. apply in_or_app. right. left. reflexivity. }
    { exact Hsame. }
    rewrite Hy. destruct (hr_truthy (avg_hr a)).
    + rewrite Hm, update_first_app.
      * rewrite map_app. simpl. rewrite !Hsnd. reflexivity.
      * apply Forall_map. simpl. exact Hpre.
      * exact Hsame.
    + rewrite Hm, map_app. simpl. rewrite !Hsnd. reflexivity.
Qed.

(** *** Several API rows *)

Lemma dict_update_other : forall k0 f k (v : row num) (m : master num),
  k <> k0 -> In (k, v) m -> In (k, v) (dict_update k0 f m).
Proof.
  induction m as [|[k1 v1] m IH]; simpl; intros Hk H; [tauto|].
  destruct (String.eqb k1 k0) eqn:E.
  - apply String.eqb_eq in E. destruct H as [H|H]; [|right; exact H].
    inversion H; subst. congruence.
  - destruct H as [H|H]; [left; exact H | right; apply IH; assumption].
Qed.

Lemma update_first_other : forall p f k (v : row num) (m : master num),
  p v = false -> In (k, v) m -> In (k, v) (update_first p f m).
Proof.
  induction m as [|[k1 v1] m IH]; simpl; intros Hp H; [tauto|].
  destruct (p v1) eqn:E.
  - destruct H as [H|H]; [|right; exact H].
    inversion H; subst. congruence.
  - destruct H as [H|H]; [left; exact H | right; apply IH; assumption].
Qed.

(** [update_first] changes the row that [find] finds. *)
Lemma update_first_found : forall p f (m : master num) k (v : row num),
  find (fun kv => p (snd kv)) m = Some (k, v) -> In (k, f v) (update_first p f m).
Proof.
  induction m as [|[k1 v1] m IH]; simpl; intros k v H; [discriminate|].
  destruct (p v1).
  - inversion H; subst. left. reflexivity.
  - right. apply IH, H.
Qed.

(** An API row without a heart rate, or with another id and another key,
    leaves a stored row as it is. *)
Lemma merge_api_row_other : forall (m : master num) r k v,
  (hr_truthy (avg_hr r) = true -> activity_id r <> k /\ same_run r v = false) ->
  In (k, v) m -> In (k, v) (merge_api_row m r).
Proof.
  intros m r k v Hr Hin. unfold merge_api_row.
  destruct (dict_mem (activity_id r) m) eqn:E.
  - destruct (hr_truthy (avg_hr r)); [|exact Hin].
    destruct (Hr eq_refl) as [Hk _]. apply dict_update_other; auto.
  - destruct (find _ m).
    + destruct (hr_truthy (avg_hr r)); [|exact Hin].
      destruct (Hr eq_refl) as [_ Hs]. apply update_first_other; assumption.
    + rewrite (dict_set_fresh _ _ _ E). apply in_or_app. auto.
Qed.

Lemma fold_api_other : forall (rs : list (row num)) (m : master num) k v,
  (forall r, In r rs -> hr_truthy (avg_hr r) = true ->
     activity_id r <> k /\ same_run r v = false) ->
  In (k, v) m -> In (k, v) (fold_left merge_api_row rs m).
Proof.
  induction rs as [|r rs IH]; simpl; intros m k v Hrs Hin; [exact Hin|].
  apply IH; [intros r' Hr'; apply Hrs; auto|].
  apply merge_api_row_other; [apply Hrs; auto | exact Hin].
Qed.

(** The record of a stored row stays under its id, up to the heart rate. *)
Lemma fold_api_record : forall (rs : list (row num)) (m : master num) (e : row num) h,
  In (activity_id e, set_avg_hr h e) m ->
  exists h', In (activity_id e, set_avg_hr h' e) (fold_left merge_api_row rs m).
Proof.
  induction rs as [|r rs IH]; simpl; intros m e h Hin; [eauto|].
  destruct (merge_api_row_keeps m r _ _ Hin) as [H|H].
  - apply IH in H. exact H.
  - change (set_avg_hr (avg_hr r) (set_avg_hr h e))
      with (set_avg_hr (avg_hr r) e) in H.
    apply IH in H. exact H.
Qed.

(** Every stored row has the id, the date and the distance of an input
    row. *)
Lemma fold_api_key_of_input : forall (es rs : list (row num)) k v,
  In (k, v) (fold_left merge_api_row rs (seed_export es)) ->
  exists x, In x (es ++ rs)%list
    /\ activity_id x = activity_id v /\ date x = date v
    /\ distance_km x = distance_km v.
Proof.
  intros es rs k v H.
  apply (fold_api_values_ind
           (fun v => exists x, In x (es ++ rs)%list
              /\ activity_id x = activity_id v /\ date x = date v
              /\ distance_km x = distance_km v) rs (seed_export es)) with (k := k);
    [| | |exact H].
  - intros k' v' H'. apply seed_export_values in H'.
    exists v'. split; [apply in_or_app; auto | auto].
  - intros r Hr. exists r. split; [apply in_or_app; auto | auto].
  - intros r v' _ (x & Hx & H1 & H2 & H3). exists x. auto.
Qed.

(** The step of an API row on the record it lands on. *)
Lemma merge_api_row_lands : forall (m : master num) (a e : row num) h,
  well_keyed m ->
  In (activity_id e, set_avg_hr h e) m ->
  (activity_id a = activity_id e
   \/ (dict_mem (activity_id a) m = false
       /\ same_run a e = true
       /\ forall k v, In (k, v) m -> same_run a v = true -> k = activity_id e)) ->
  In (activity_id e,
      if hr_truthy (avg_hr a) then set_avg_hr (avg_hr a) e else set_avg_hr h e)
     (merge_api_row m a).
Proof.
  intros m a e h Hw Hin Hland. unfold merge_api_row.
  destruct Hland as [Hid | (Hmem & Hsame & Honly)].
  - assert (Hmem : dict_mem (activity_id a) m = true).
    { apply dict_mem_In. rewrite Hid. apply (in_map fst) in Hin. exact Hin. }
    rewrite Hmem. destruct (hr_truthy (avg_hr a)); [|exact Hin].
    rewrite Hid.
    apply (dict_update_In (activity_id e) (set_avg_hr (avg_hr a)) _ m (proj1 Hw) Hin).
  - rewrite Hmem.
    destruct (find (fun kv => same_run a (snd kv)) m) as [[k v]|] eqn:F.
    + destruct (hr_truthy (avg_hr a)); [|exact Hin].
      pose proof (update_first_found (same_run a) (set_avg_hr (avg_hr a)) m k v F) as Hupd.
      apply find_some in F. destruct F as [Hkv Hs]. simpl in Hs.
      pose proof (Honly k v Hkv Hs) as Hk. subst k.
      rewrite (well_keyed_functional m _ _ _ Hw Hkv Hin) in Hupd. exact Hupd.
    + exfalso. pose proof (find_none _ _ F _ Hin) as Hn. simpl in Hn.
      rewrite same_run_set_avg_hr in Hn. congruence.
Qed.

(** The record of an export row after all API rows. *)
Lemma merge_record_of_export : forall (es pre post : list (row num)) (a e : row num),
  last_with_its_id es e ->
  let mf := fold_left merge_api_row (pre ++ a :: post) (seed_export es) in
  well_keyed mf
  /\ (exists h, In (activity_id e, set_avg_hr h e) mf)
  /\ (lands_on es pre a e -> hr_truthy (avg_hr a) = true -> untouched_by post e ->
      In (activity_id e, set_avg_hr (avg_hr a) e) mf)
  /\ (hr_truthy (avg_hr a) = false -> untouched_by (pre ++ post) e ->
      In (activity_id e, e) mf).
Proof.
  intros es pre post a e Hlast mf.
  pose proof (proj1 (seed_export_spec es)) as Hws.
  assert (Hseed : In (activity_id e, e) (seed_export es)).
  { destruct (proj2 (seed_export_last es e) Hlast) as (k & Hk).
    rewrite <- (well_keyed_In _ _ _ Hws Hk) in Hk. exact Hk. }
  assert (Hseed' : In (activity_id e, set_avg_hr (avg_hr e) e) (seed_export es)).
  { replace (set_avg_hr (avg_hr e) e) with e by (destruct e; reflexivity). exact Hseed. }
  set (m0 := fold_left merge_api_row pre (seed_export es)).
  assert (Hmf : mf = fold_left merge_api_row post (merge_api_row m0 a)).
  { unfold mf, m0. rewrite fold_left_app. reflexivity. }
  assert (Hw0 : well_keyed m0) by (apply well_keyed_fold_api, Hws).
  assert (Hwf : well_keyed mf) by (apply well_keyed_fold_api, Hws).
  split; [exact Hwf|]. split; [|split].
  - apply (fold_api_record (pre ++ a :: post) _ e (avg_hr e) Hseed').
  - intros Hland Ht Hpost.
    destruct (fold_api_record pre _ e (avg_hr e) Hseed') as (h & Hh). fold m0 in Hh.
    assert (Hstep : In (activity_id e, set_avg_hr (avg_hr a) e) (merge_api_row m0 a)).
    { pose proof (merge_api_row_lands m0 a e h Hw0 Hh) as Hl. rewrite Ht in Hl.
      apply Hl. destruct Hland as [Hid | (Hnot & Hsame & Honly)]; [left; exact Hid|].
      right. split; [|split; [exact Hsame|]].
      - apply dict_mem_not_In. intro Hk. apply Hnot.
        apply keys_fold_api_from in Hk. rewrite map_app, in_app_iff.
        destruct Hk as [Hk|Hk]; [left; apply (seed_export_spec es), Hk | right; exact Hk].
      - intros k v Hkv Hs.
        destruct (fold_api_key_of_input es pre k v Hkv) as (x & Hx & H1 & H2 & H3).
        rewrite <- (well_keyed_In _ _ _ Hw0 Hkv), <- H1. apply Honly; [exact Hx|].
        unfold same_run in *. rewrite H2, H3. exact Hs. }
    rewrite Hmf. apply fold_api_other; [|exact Hstep].
    intros r Hr Hrt. destruct (Hpost r Hr Hrt) as [H1 H2].
    split; [exact H1 | rewrite same_run_set_avg_hr; exact H2].
  - intros Hf Hrest. unfold mf. apply fold_api_other; [|exact Hseed].
    intros r Hr Hrt. apply in_app_or in Hr. destruct Hr as [Hr | [<- | Hr]].
    + apply Hrest; [apply in_or_app; auto | exact Hrt].
    + congruence.
    + apply Hrest; [apply in_or_app; auto | exact Hrt].
Qed.

End HrPriority.

Lemma merged_with_takes_hr : forall (num : Type) (arith : PyNum num)
    (act : activity num) (a e : row num),
  norm_api act = Ok a -> takes_hr_of a e (merged_with a e).
Proof.
  intros num arith act a e Hnorm. unfold takes_hr_of, merged_with.
  repeat split; try (destruct (hr_truthy (avg_hr a)); reflexivity).
  - intro Hne. rewrite (norm_api_avg_hr act a Hnorm) in *.
    destruct (hr_or_empty_cases (a_average_heartrate act)) as [H0 | H1]; [congruence|].
    rewrite H1. reflexivity.
  - intro Hnone. rewrite Hnone. reflexivity.
Qed.

(** C3 (amended): an export record [e] and a normalised API record [a]
    that lands on it are merged into one record with the id, date,
    distance, name and time of [e].  [a] lands on [e] when it has the id
    of [e], or when no row before it has its id, [e] meets it on the key
    (date, distance rounded to 0.1 km) and so does no row of another id
    before it; [e] is the last export row of its id.  If the heart rate of
    [a] is non-empty and no later API row with a heart rate has the id or
    the key of [e], the merged record has the heart rate of [a], whatever
    [e] had; if it is empty and no other API row with a heart rate has the
    id or the key of [e], the heart rate of [e] is kept.  With one API
    record and export records of distinct ids the fuzzy match applies when
    no id matches and goes to the first export record with the key, and no
    record is added. *)
Theorem merge_hr_priority :
  forall (num : Type) (arith : PyNum num) (act : activity num) (a e : row num),
  norm_api act = Ok a ->
  ((activity_id e = activity_id a \/ same_run a e = true) ->
   exists m, merge [e] [a] = [m] /\ takes_hr_of a e m)
  /\ (forall es pre post : list (row num),
        NoDup (map activity_id es) ->
        es = (pre ++ e :: post)%list ->
        (activity_id e = activity_id a
         \/ (~ In (activity_id a) (map activity_id es)
             /\ same_run a e = true
             /\ Forall (fun x => same_run a x = false) pre)) ->
        exists m,
          In m (merge es [a])
          /\ takes_hr_of a e m
          /\ (forall m', In m' (merge es [a]) ->
                activity_id m' = activity_id e -> m' = m)
          /\ List.length (merge es [a]) = List.length es)
  /\ (forall es pre post : list (row num),
        last_with_its_id es e ->
        lands_on es pre a e ->
        exists m,
          In m (merge es (pre ++ a :: post))
          /\ activity_id m = activity_id e
          /\ date m = date e
          /\ distance_km m = distance_km e
          /\ name m = name e
          /\ moving_secs m = moving_secs e
          /\ (forall m', In m' (merge es (pre ++ a :: post)) ->
                activity_id m' = activity_id e -> m' = m)
          /\ (avg_hr a <> None -> untouched_by post e -> avg_hr m = avg_hr a)
          /\ (avg_hr a = None -> untouched_by (pre ++ post) e ->
              avg_hr m = avg_hr e)).
Proof.
  intros num arith act a e Hnorm.
  pose proof (merged_with_takes_hr num arith act a e Hnorm) as Htakes.
  split; [|split].
  - intro Hmatch. exists (merged_with a e). split; [|exact Htakes].
    assert (Hperm : Permutation (merge [e] [a]) [merged_with a e]).
    { apply (merge_single_api [e] a e [] []).
      - repeat constructor. simpl. tauto.
      - reflexivity.
      - destruct (string_dec (activity_id e) (activity_id a)) as [Heq | Hne];
          [left; exact Heq|].
        destruct Hmatch as [Heq | Hsame]; [left; exact Heq|].
        right. repeat split; [|exact Hsame|constructor].
        simpl. intros [H|[]]. congruence. }
    apply Permutation_sym, Permutation_length_1_inv in Hperm. exact Hperm.
  - intros es pre post Hnd Hes Hmatch.
    pose proof (merge_single_api es a e pre post Hnd Hes Hmatch) as Hperm.
    exists (merged_with a e).
    assert (Hin : In (merged_with a e) (merge es [a])).
    { apply (Permutation_in _ (Permutation_sym Hperm)), in_or_app.
      right. left. reflexivity. }
    split; [exact Hin|]. split; [exact Htakes|]. split.
    + intros m' Hin' Hid'.
      destruct Htakes as (Hidm & _). rewrite <- Hidm in Hid'.
      apply (NoDup_map_eq _ _ activity_id (merge es [a])); auto.
      apply merge_ids_NoDup.
    + rewrite (Permutation_length Hperm), Hes, !length_app. reflexivity.
  - intros es pre post Hlast Hland.
    destruct (merge_record_of_export es pre post a e Hlast)
      as (Hw & (h & Hh) & Hsome & Hnone).
    set (mf := fold_left merge_api_row (pre ++ a :: post) (seed_export es)) in *.
    assert (Hmerge : forall k v, In (k, v) mf -> In v (merge es (pre ++ a :: post))).
    { intros k v Hkv. unfold merge.
      apply (Permutation_in _ (Permutation_sym (sorted_by_date_perm _))).
      apply in_map_iff. exists (k, v). auto. }
    exists (set_avg_hr h e).
    split; [apply (Hmerge _ _ Hh)|]. repeat split.
    + intros m' Hin' Hid'.
      apply (NoDup_map_eq _ _ activity_id (merge es (pre ++ a :: post))); auto.
      * apply merge_ids_NoDup.
      * apply (Hmerge _ _ Hh).
    + intros Hne Hpost.
      assert (Ht : hr_truthy (avg_hr a) = true).
      { rewrite (norm_api_avg_hr act a Hnorm) in *.
        destruct (hr_or_empty_cases (a_average_heartrate act)); [congruence | assumption]. }
      pose proof (well_keyed_functional mf _ _ _ Hw Hh (Hsome Hland Ht Hpost)) as E.
      apply (f_equal avg_hr) in E. exact E.
    + intros Hn Hrest.
      assert (Hf : hr_truthy (avg_hr a) = false) by (rewrite Hn; reflexivity).
      pose proof (well_keyed_functional mf _ _ _ Hw Hh (Hnone Hf Hrest)) as E.
      apply (f_equal avg_hr) in E. exact E.
Qed.

Lemma merge_hr_priority_witness :
  (exists m : row float,
     merge [export_A "Run"] [normalised_B "Run" true] = [m]
     /\ activity_id m = "A"
     /\ avg_hr m = Some (PInt 150))
  /\ (exists a m : row float,
        norm_api api_long = Ok a
        /\ In m (merge [export_long; export_easy] [a])
        /\ name m = "Long Run"
        /\ avg_hr m = Some (PInt 148)).
Proof.
  split.
  - destruct (proj1 (merge_hr_priority float binary64
                       (api_B "T07:30:00Z" "Run" true true true)
                       (normalised_B "Run" true) (export_A "Run") eq_refl))
      as (m & Hm & Hid & _ & _ & _ & _ & Hhr & _).
    + right. reflexivity.
    + exists m. repeat split; [exact Hm | exact Hid | apply Hhr; discriminate].
  - assert (Ha : exists a : row float,
               norm_api api_long = Ok a /\ activity_id a = "201"
               /\ avg_hr a = Some (PInt 148)).
    { eexists. split; [vm_compute; reflexivity|]. split; reflexivity. }
    destruct Ha as (a & Ha & Hid & Hhr).
    destruct (proj2 (proj2 (merge_hr_priority float binary64 api_long a export_long Ha))
                    [export_long; export_easy] [] [])
      as (m & Hin & _ & _ & _ & Hname & _ & _ & Hsome & _).
    + exists [], [export_easy]. split; [reflexivity|].
      simpl. intros [H|[]]. discriminate.
    + left. rewrite Hid. reflexivity.
    + exists a, m. split; [exact Ha|]. split; [exact Hin|]. split; [exact Hname|].
      rewrite <- Hhr. apply Hsome; [rewrite Hhr; discriminate|].
      intros r [].
Defined.

(** C3, as stated, fails.  An API record with the id of one export record
    and a heart rate of 148 is followed by an API record with another id,
    the same day, the same rounded distance and a heart rate of 152: the
    merged record ends with 152.  And an API record that has the id of
    the easy run and the day and distance of the long run matches the
    long run on the key and carries a heart rate of 150, but it is merged
    into the easy run: the long run keeps its 140. *)
Lemma merge_hr_of_another_api_row :
  (exists a1 a2 m : row float,
     norm_api api_long = Ok a1 /\ norm_api api_long_again = Ok a2
     /\ activity_id a1 = activity_id export_long
     /\ avg_hr a1 = Some (PInt 148)
     /\ merge [export_long] [a1; a2] = [m]
     /\ activity_id m = activity_id export_long
     /\ avg_hr m = Some (PInt 152))
  /\ (exists a m1 m2 : row float,
        norm_api api_easy_id_long_key = Ok a
        /\ same_run a export_long = true
        /\ avg_hr a = Some (PInt 150)
        /\ merge [export_long; export_easy] [a] = [m1; m2]
        /\ m1 = export_long
        /\ avg_hr m1 = Some (PFloat (of_int 140))
        /\ activity_id m2 = activity_id export_easy
        /\ avg_hr m2 = Some (PInt 150)).
Proof.
  split.
  - do 3 eexists. split; [vm_compute; reflexivity|].
    split; [vm_compute; reflexivity|].
    repeat split; vm_compute; reflexivity.
  - do 3 eexists. split; [vm_compute; reflexivity|].
    repeat split; vm_compute; reflexivity.
Qed.

(** *** Activities without a heart rate *)

Section EmptyHr.

Context {num : Type} {arith : PyNum num}.

Lemma hr_or_empty_missing : forall f : jfield num,
  missing_or_zero f = true -> hr_or_empty f = None.
Proof.
  intros [| |z|x]; simpl; intro H; try reflexivity.
  - rewrite H. reflexivity.
  - unfold truthy. rewrite H. reflexivity.
Qed.

(** An API row without heart rate leaves every stored row as it is. *)
Lemma merge_api_row_empty_hr : forall (m : master num) (r : row num),
  avg_hr r = None ->
  merge_api_row m r = m
  \/ (merge_api_row m r = (m ++ [(activity_id r, r)])%list
      /\ dict_mem (activity_id r) m = false).
Proof.
  intros m r Hr. unfold merge_api_row. rewrite Hr. simpl.
  destruct (dict_mem (activity_id r) m) eqn:E; [left; reflexivity|].
  destruct (find _ m); [left; reflexivity|].
  right. split; [apply dict_set_fresh; exact E | reflexivity].
Qed.

Lemma fold_api_empty_hr : forall (rs : list (row num)) (m : master num),
  Forall (fun r => avg_hr r = None) rs ->
  exists extra, fold_left merge_api_row rs m = (m ++ extra)%list.
Proof.
  induction rs as [|r rs IH]; simpl; intros m Hrs.
  - exists []. rewrite app_nil_r. reflexivity.
  - inversion Hrs as [|? ? Hr Hrs']; subst.
    destruct (merge_api_row_empty_hr m r Hr) as [-> | [-> _]].
    + apply IH. exact Hrs'.
    + destruct (IH (m ++ [(activity_id r, r)])%list Hrs') as [extra He].
      exists ((activity_id r, r) :: extra). rewrite He, <- app_assoc. reflexivity.
Qed.

End EmptyHr.

(** C10: when the average heart rate of an API activity is missing, null
    or zero, the normalised record has the empty heart rate; the analysis
    filter rejects the record; merging it changes no stored record (it is
    dropped or appended); and a merge with only such API records returns
    the seeded export rows unchanged, up to the order, plus new records. *)
Theorem norm_api_missing_hr :
  forall (num : Type) (arith : PyNum num) (act : activity num) (r : row num),
  missing_or_zero (a_average_heartrate act) = true ->
  norm_api act = Ok r ->
  avg_hr r = None
  /\ qualifies r = false
  /\ (forall m : master num,
        merge_api_row m r = m
        \/ merge_api_row m r = (m ++ [(activity_id r, r)])%list)
  /\ (forall (es rs : list (row num)),
        Forall (fun x => avg_hr x = None) rs ->
        exists extra,
          Permutation (merge es (r :: rs)) (map snd (seed_export es) ++ extra)).
Proof.
  intros num arith act r Hz Hnorm.
  assert (Hr : avg_hr r = None).
  { rewrite (norm_api_avg_hr act r Hnorm). apply hr_or_empty_missing, Hz. }
  split; [exact Hr|]. split; [unfold qualifies; rewrite Hr; reflexivity|]. split.
  - intro m. destruct (merge_api_row_empty_hr m r Hr) as [H | [H _]]; auto.
  - intros es rs Hrs.
    destruct (fold_api_empty_hr (r :: rs) (seed_export es)) as [extra He].
    { constructor; assumption. }
    exists (map snd extra). unfold merge. rewrite sorted_by_date_perm, He, map_app.
    reflexivity.
Qed.

Lemma norm_api_missing_hr_witness :
  let act := mk_activity (IdInt 7) "2026-02-01T09:00:00Z" (Some "Easy")
                         (JInt 8000) (JInt 2500) (JFloat (of_int 0)) in
  exists r : row float,
    norm_api act = Ok r /\ avg_hr r = None /\ qualifies r = false.
Proof.
  intro act.
  exists (mk_row "7" "2026-02-01" "Easy" (of_int 8) 2500 None).
  assert (Hn : norm_api act
               = Ok (mk_row "7" "2026-02-01" "Easy" (of_int 8) 2500 None))
    by reflexivity.
  destruct (norm_api_missing_hr float binary64 act _ eq_refl Hn) as (H1 & H2 & _).
  repeat split; assumption.
Defined.

(** ** The end-to-end example *)

(** C9: two export rows with id "A" (2025-12-22, 10.0 km, 2400 s, no heart
    rate) and one API activity with id "B" (same date, 10005 m, 2401 s,
    average heart rate 150): the API record is matched on the key
    (date, 10.0 km), the merged set is the single record "A" with heart
    rate 150, and its date is in week 1. *)
Theorem end_to_end_example :
  forall (time_of_day nm1 nm2 nm3 : string) (di mi hi : bool),
  exists a : row float,
    norm_api (api_B time_of_day nm3 di mi hi) = Ok a
    /\ dict_mem (activity_id a) (seed_export [export_A nm1; export_A nm2]) = false
    /\ same_run a (export_A nm2) = true
    /\ round_nd 1 (distance_km a) = of_int 10
    /\ merge [export_A nm1; export_A nm2] [a]
       = [mk_row "A" "2025-12-22" nm2 (of_int 10) 2400 (avg_hr a)]
    /\ float_of_hr (avg_hr a) = Ok (of_int 150)
    /\ map (fun r => plan_week (date r)) (merge [export_A nm1; export_A nm2] [a])
       = [Ok (Some 1)].
Proof.
  intros t nm1 nm2 nm3 di mi hi.
  exists (normalised_B nm3 hi). split.
  - destruct di, mi, hi, t; vm_compute; reflexivity.
  - destruct hi; repeat split; vm_compute; reflexivity.
Qed.

(** ** Analysis *)

Section AnalysisFacts.

Context {num : Type} {arith : PyNum num}.
Variable square : num -> exn num.

Lemma bind_Ok : forall (A B : Type) (c : exn A) (k : A -> exn B) (b : B),
  (x <- c ;; k x) = Ok b -> exists a, c = Ok a /\ k a = Ok b.
Proof.
  intros A B [a|e] k b H; simpl in H; [eauto | discriminate].
Qed.

Lemma plan_week_range : forall s w, plan_week s = Ok (Some w) -> 1 <= w <= 18.
Proof.
  intros s w H. unfold plan_week in H.
  apply bind_Ok in H. destruct H as (d & _ & H).
  destruct (_ <? 0); [discriminate|].
  destruct (1 <=? _) eqn:E1; [|discriminate].
  destruct (_ <=? 18) eqn:E2; [|discriminate].
  simpl in H. inversion H; subst. apply Z.leb_le in E1, E2. lia.
Qed.

Lemma points_week_append : forall w x (m : list (Z * list (run num))),
  List.length (points (week_append w x m)) = S (List.length (points m)).
Proof.
  unfold points. induction m as [|[k l] m IH]; simpl; [reflexivity|].
  destruct (k =? w); simpl.
  - rewrite !length_app. simpl. lia.
  - rewrite !length_app, IH. lia.
Qed.

(** The points of the regression are the qualifying rows of the plan. *)
Lemma points_group_by_week : forall (rs : list (row num)) acc bw,
  group_by_week rs acc = Ok bw ->
  List.length (points bw)
  = (List.length (points acc) + List.length (filter in_plan rs))%nat.
Proof.
  induction rs as [|r rs IH]; simpl; intros acc bw H.
  - inversion H; subst. lia.
  - unfold in_plan at 1. destruct (plan_week (date r)) as [[w|]|e] eqn:Ew; simpl in H.
    + destruct (w =? 0) eqn:E0.
      * apply plan_week_range in Ew. apply Z.eqb_eq in E0. lia.
      * apply bind_Ok in H. destruct H as (x & _ & H).
        apply IH in H. rewrite H, points_week_append. simpl. lia.
    + apply IH in H. rewrite H. reflexivity.
    + discriminate.
Qed.

Lemma map_exn_cases : forall (A B : Type) (f : A -> exn B) (l : list A),
  (exists ys, map_exn f l = Ok ys)
  \/ (exists x e, In x l /\ f x = Raise e /\ map_exn f l = Raise e).
Proof.
  induction l as [|x l IH]; simpl.
  - left. eexists. reflexivity.
  - destruct (f x) as [y|e] eqn:Ex; simpl.
    + destruct IH as [(ys & Hys) | (x' & e & Hin & Hx' & Hr)].
      * left. rewrite Hys. simpl. eexists. reflexivity.
      * right. exists x', e. rewrite Hr. simpl. auto.
    + right. exists x, e. auto.
Qed.

(** The regression block divides by nothing that is zero: it returns
    unless a square raises, and it returns no value for fewer than three
    points. *)
Lemma hr_at_mp_of_cases : forall pts : list (run num),
  (exists v, hr_at_mp_of square pts = Ok v /\ (v <> None -> 3 <= len pts))
  \/ (exists p e, In p pts /\ square (r_speed p) = Raise e
                  /\ hr_at_mp_of square pts = Raise e).
Proof.
  intro pts. unfold hr_at_mp_of.
  destruct (3 <=? len pts) eqn:E3.
  - apply Z.leb_le in E3.
    destruct (map_exn_cases _ _ (fun r => square (r_speed r)) pts)
      as [(sqs & Hs) | (p & e & Hin & Hp & Hr)].
    + left. rewrite Hs. cbn [bind].
      destruct (truthy _) eqn:Ed.
      * unfold py_div. unfold truthy in Ed. apply negb_true_iff in Ed. rewrite Ed.
        unfold py_div_int.
        assert (En : (len pts =? 0) = false) by (apply Z.eqb_neq; lia).
        rewrite En. simpl. eexists. split; [reflexivity | intros _; exact E3].
      * exists None. split; [reflexivity | congruence].
    + right. exists p, e. rewrite Hr. auto.
  - left. exists None. split; [reflexivity | congruence].
Qed.

Lemma squares_product : forall pts : list (run num),
  map_exn (fun r : run num => square_product (r_speed r)) pts
  = Ok (map (fun r => nmul (r_speed r) (r_speed r)) pts).
Proof.
  induction pts as [|p pts IH]; simpl; [reflexivity|]. rewrite IH. reflexivity.
Qed.

(** With the square as the product the block always returns, and its
    result is defined iff there are three points and the denominator is
    not zero. *)
Lemma hr_at_mp_of_product : forall pts : list (run num),
  exists v, hr_at_mp_of square_product pts = Ok v
    /\ (v <> None <-> 3 <= len pts /\ truthy (ls_denom pts) = true).
Proof.
  intro pts. unfold hr_at_mp_of.
  rewrite squares_product. cbn [bind]. fold (ls_denom pts).
  destruct (3 <=? len pts) eqn:E3.
  - apply Z.leb_le in E3. destruct (truthy (ls_denom pts)) eqn:Ed.
    + unfold py_div. unfold truthy in Ed. apply negb_true_iff in Ed. rewrite Ed.
      unfold py_div_int.
      assert (En : (len pts =? 0) = false) by (apply Z.eqb_neq; lia).
      rewrite En. simpl. eexists. split; [reflexivity|].
      split; [intros _; split; [exact E3 | reflexivity] | intros _; discriminate].
    + exists None. split; [reflexivity|].
      split; [congruence | intros [_ H]; discriminate].
  - apply Z.leb_gt in E3. exists None. split; [reflexivity|].
    split; [congruence | intros [H _]; lia].
Qed.

(** The blocks of [analyse], when it returns. *)
Lemma analyse_blocks : forall (rows : list (row num)) a,
  analyse square rows = Ok a ->
  exists bw hrs,
    group_by_week (filter qualifies rows) [] = Ok bw
    /\ wk_ae_of bw = Ok (by_week a)
    /\ ae_trend_of (by_week a) = Ok (ae_trend a, ae_trend_pct a)
    /\ hr_at_mp_of square (points bw) = Ok (hr_at_mp a)
    /\ map_exn (fun r => float_of_hr (avg_hr r)) (filter qualifies rows) = Ok hrs
    /\ red_zone_hr a = red_zone_hr_of hrs
    /\ hr_buffer a = hr_buffer_of (red_zone_hr a) (hr_at_mp a).
Proof.
  intros rows a H. unfold analyse in H.
  apply bind_Ok in H. destruct H as (bw & Hbw & H).
  apply bind_Ok in H. destruct H as (wk & Hwk & H).
  apply bind_Ok in H. destruct H as ([word pct] & Htr & H).
  apply bind_Ok in H. destruct H as (at_mp & Hmp & H).
  apply bind_Ok in H. destruct H as (hrs & Hhrs & H).
  apply bind_Ok in H. destruct H as (delta & Hdelta & H).
  inversion H; subst; simpl.
  exists bw, hrs. repeat split; assumption.
Qed.

(** Without qualifying runs [analyse] returns and every block takes its
    fallback. *)
Lemma analyse_no_runs : forall rows : list (row num),
  filter qualifies rows = [] ->
  analyse square rows
  = Ok (mk_analysis [] "insufficient data" None None None
                    (red_zone_hr_of []) None None).
Proof.
  intros rows H. unfold analyse. rewrite H. reflexivity.
Qed.

End AnalysisFacts.

(** C4 (amended): without qualifying runs the largest average heart rate
    defaults to 175 bpm; the estimated maximum is 175 * 1.12 = 196 bpm and
    the red-zone threshold is 90 % of that estimate, 176.4 bpm. *)
Theorem red_zone_without_qualifying_runs :
  (forall (num : Type) (arith : PyNum num) (square : num -> exn num)
          (rows : list (row num)),
     filter qualifies rows = [] ->
     exists a, analyse square rows = Ok a
       /\ red_zone_hr a = round_nd 1 (nmul (est_max_hr_of []) (of_lit 0.90%Q))
       /\ est_max_hr_of (@nil num) = nmul (of_int 175) (of_lit 1.12%Q))
  /\ (round_nd 1 (est_max_hr_of (@nil float)) = of_int 196
      /\ nleb (of_int 196) (est_max_hr_of (@nil float)) = true
      /\ red_zone_hr_of (@nil float) = of_lit 176.4%Q)
  /\ (Qeq (est_max_hr_of (@nil Q)) 196
      /\ Qeq (red_zone_hr_of (@nil Q)) 176.4
      /\ Qeq (red_zone_hr_of (@nil Q)) (0.90 * est_max_hr_of (@nil Q))).
Proof.
  split; [|split].
  - intros num arith square rows H. eexists. split; [apply analyse_no_runs, H|].
    split; reflexivity.
  - repeat split; vm_compute; reflexivity.
  - repeat split; vm_compute; reflexivity.
Qed.

Lemma red_zone_without_qualifying_runs_witness :
  exists a, analyse square_overflows [export_A "Run"] = Ok a
    /\ red_zone_hr a = of_lit 176.4%Q.
Proof.
  destruct (proj1 red_zone_without_qualifying_runs float binary64 square_overflows
                  [export_A "Run"] eq_refl)
    as (a & Ha & Hr & _).
  exists a. split; [exact Ha|]. rewrite Hr. vm_compute. reflexivity.
Defined.

(** C4, as stated, fails: without qualifying runs the estimated maximum
    is not 175 bpm (it is 175 * 1.12), and the threshold is 176.4 bpm, not
    the 157.5 bpm that 90 % of 175 would be. *)
Lemma est_max_hr_fallback_is_not_175 :
  neqb (est_max_hr_of (@nil float)) (of_int 175) = false
  /\ nltb (of_int 195) (est_max_hr_of (@nil float)) = true
  /\ exists a, analyse square_overflows (@nil (row float)) = Ok a
       /\ red_zone_hr a = of_lit 176.4%Q
       /\ neqb (red_zone_hr a) (nmul (of_lit 0.90%Q) (of_int 175)) = false.
Proof.
  split; [vm_compute; reflexivity|]. split; [vm_compute; reflexivity|].
  eexists. split; [reflexivity|]. split; vm_compute; reflexivity.
Qed.

Section RegressionExact.

Local Open Scope Q_scope.

Lemma fold_Qplus_acc : forall (l : list Q) (acc : Q),
  fold_left Qplus l acc == acc + fold_left Qplus l 0.
Proof.
  induction l as [|x l IH]; intro acc; simpl; [ring|].
  rewrite (IH (acc + x)), (IH (0 + x)). ring.
Qed.

Lemma py_sum_cons : forall (x : Q) (l : list Q), py_sum (x :: l) == x + py_sum l.
Proof.
  intros x l. unfold py_sum. cbn [nadd exactQ of_int fold_left].
  rewrite fold_Qplus_acc. change (inject_Z 0) with 0. ring.
Qed.

Lemma py_sum_nil : py_sum (@nil Q) == 0.
Proof. reflexivity. Qed.

Lemma len_cons : forall (A : Type) (x : A) l, len (x :: l) = (len l + 1)%Z.
Proof. intros. unfold len. simpl List.length. lia. Qed.

Lemma Qsquare_nonneg : forall x : Q, 0 <= x * x.
Proof.
  intros [n d]. unfold Qle, Qmult. simpl. nia.
Qed.

Lemma py_sum_nonneg : forall l : list Q,
  (forall x, In x l -> 0 <= x) -> 0 <= py_sum l.
Proof.
  induction l as [|x l IH]; intro H.
  - rewrite py_sum_nil. apply Qle_refl.
  - rewrite py_sum_cons.
    apply (Qle_trans _ (0 + 0)); [rewrite Qplus_0_l; apply Qle_refl|].
    apply Qplus_le_compat; [apply H; left; reflexivity|].
    apply IH. intros y Hy. apply H. right. exact Hy.
Qed.

(** A sum of squares is zero only when every term is. *)
Lemma py_sum_zero_terms : forall l : list Q,
  (forall x, In x l -> 0 <= x) -> py_sum l == 0 -> forall x, In x l -> x == 0.
Proof.
  induction l as [|y l IH]; intros Hpos Hsum x Hin; [destruct Hin|].
  rewrite py_sum_cons in Hsum.
  assert (Hy : 0 <= y) by (apply Hpos; left; reflexivity).
  assert (Hl : 0 <= py_sum l).
  { apply py_sum_nonneg. intros z Hz. apply Hpos. right. exact Hz. }
  assert (Hy0 : y == 0).
  { apply Qle_antisym; [|exact Hy].
    apply (Qle_trans _ (y + py_sum l)); [|rewrite Hsum; apply Qle_refl].
    rewrite <- (Qplus_0_r y) at 1. apply Qplus_le_compat; [apply Qle_refl | exact Hl]. }
  destruct Hin as [<- | Hin]; [exact Hy0|].
  apply IH; [intros z Hz; apply Hpos; right; exact Hz | | exact Hin].
  rewrite Hy0 in Hsum. rewrite <- Hsum. ring.
Qed.

(** The sum of the squared deviations from any [mu]. *)
Lemma py_sum_deviations : forall (mu : Q) (pts : list (run Q)),
  py_sum (map (fun r => (r_speed r - mu) * (r_speed r - mu)) pts)
  == py_sum (map (fun r => nmul (r_speed r) (r_speed r)) pts)
     - 2 * mu * py_sum (map r_speed pts) + inject_Z (len pts) * mu * mu.
Proof.
  intros mu pts. induction pts as [|p pts IH].
  - simpl map. rewrite !py_sum_nil. unfold len. simpl. ring.
  - cbn [map]. rewrite !py_sum_cons, len_cons, inject_Z_plus, IH.
    cbn [nmul exactQ]. change (inject_Z 1) with 1. ring.
Qed.

Lemma inject_len_nonzero : forall (A : Type) (l : list A),
  (0 < len l)%Z -> ~ inject_Z (len l) == 0.
Proof.
  intros A l H H0. unfold Qeq in H0. simpl in H0. lia.
Qed.

(** The denominator of the least squares is the variance of the speeds
    times the square of the number of points. *)
Lemma ls_denom_variance : forall pts : list (run Q),
  (0 < len pts)%Z ->
  ls_denom pts == inject_Z (len pts) * inject_Z (len pts) * speed_variance pts.
Proof.
  intros pts Hn. pose proof (inject_len_nonzero _ pts Hn) as Hn0.
  unfold speed_variance. rewrite py_sum_deviations.
  unfold mean_speed, ls_denom. cbn [nsub nmul exactQ of_int].
  set (sx := py_sum (map r_speed pts)).
  set (sx2 := py_sum (map (fun r => (r_speed r * r_speed r)%Q) pts)).
  set (n := inject_Z (len pts)) in *.
  field. exact Hn0.
Qed.

Lemma ls_denom_zero_iff : forall pts : list (run Q),
  (0 < len pts)%Z -> (ls_denom pts == 0 <-> speed_variance pts == 0).
Proof.
  intros pts Hn. pose proof (inject_len_nonzero _ pts Hn) as Hn0.
  rewrite (ls_denom_variance pts Hn). split; intro H.
  - destruct (Qmult_integral _ _ H) as [H1 | H1]; [|exact H1].
    destruct (Qmult_integral _ _ H1); contradiction.
  - rewrite H. ring.
Qed.

Lemma py_sum_const : forall (e : Q) (l : list Q),
  (forall x, In x l -> x == e) -> py_sum l == inject_Z (len l) * e.
Proof.
  induction l as [|x l IH]; intro H.
  - rewrite py_sum_nil. unfold len. simpl. ring.
  - rewrite py_sum_cons, len_cons, inject_Z_plus, IH.
    + rewrite (H x (or_introl eq_refl)). change (inject_Z 1) with 1. ring.
    + intros y Hy. apply H. right. exact Hy.
Qed.

(** The variance is zero exactly when all speeds are equal. *)
Lemma variance_zero_iff : forall pts : list (run Q),
  (0 < len pts)%Z ->
  (speed_variance pts == 0
   <-> forall p q, In p pts -> In q pts -> r_speed p == r_speed q).
Proof.
  intros pts Hn. pose proof (inject_len_nonzero _ pts Hn) as Hn0.
  set (mu := mean_speed pts).
  set (devs := map (fun r => (r_speed r - mu) * (r_speed r - mu)) pts).
  assert (Hpos : forall x, In x devs -> 0 <= x).
  { intros x Hx. apply in_map_iff in Hx. destruct Hx as (r & <- & _).
    apply Qsquare_nonneg. }
  split.
  - intro Hv.
    assert (Hs : py_sum devs == 0).
    { unfold speed_variance in Hv. fold mu in Hv. fold devs in Hv.
      rewrite <- (Qmult_div_r (py_sum devs) (inject_Z (len pts)) Hn0), Hv. ring. }
    assert (Hmu : forall p, In p pts -> r_speed p == mu).
    { intros p Hp.
      assert (Hd : (r_speed p - mu) * (r_speed p - mu) == 0).
      { apply (py_sum_zero_terms devs Hpos Hs). unfold devs.
        apply in_map_iff. exists p. split; [reflexivity | exact Hp]. }
      destruct (Qmult_integral _ _ Hd) as [H | H];
        rewrite <- (Qplus_0_l mu), <- H; ring. }
    intros p q Hp Hq. rewrite (Hmu p Hp), (Hmu q Hq). reflexivity.
  - intro Heq. destruct pts as [|p0 pts]; [unfold len in Hn; simpl in Hn; lia|].
    assert (Hsx : py_sum (map r_speed (p0 :: pts))
                  == inject_Z (len (p0 :: pts)) * r_speed p0).
    { replace (len (p0 :: pts)) with (len (map r_speed (p0 :: pts)))
        by (unfold len; rewrite length_map; reflexivity).
      apply py_sum_const. intros x Hx. apply in_map_iff in Hx.
      destruct Hx as (r & <- & Hr). apply Heq; [exact Hr | left; reflexivity]. }
    assert (Hmu : mu == r_speed p0).
    { unfold mu, mean_speed. rewrite Hsx. field. exact Hn0. }
    assert (Hs : py_sum devs == 0).
    { rewrite (py_sum_const 0 devs); [ring|].
      intros x Hx. apply in_map_iff in Hx. destruct Hx as (r & <- & Hr).
      rewrite Hmu, (Heq r p0 Hr (or_introl eq_refl)). ring. }
    unfold speed_variance. fold mu. fold devs. rewrite Hs.
    field. exact Hn0.
Qed.

(** In exact arithmetic the regression block always returns, and its
    result is defined iff there are three points whose speeds have a
    variance. *)
Lemma hr_at_mp_of_exact : forall pts : list (run Q),
  exists v, hr_at_mp_of square_product pts = Ok v
    /\ (v <> None <-> (3 <= len pts)%Z /\ ~ speed_variance pts == 0).
Proof.
  intro pts. destruct (hr_at_mp_of_product pts) as (v & Hv & Hiff).
  exists v. split; [exact Hv|]. rewrite Hiff.
  unfold truthy. cbn [neqb exactQ of_int]. change (inject_Z 0) with 0.
  split; intros [H3 H]; (split; [exact H3|]).
  - intro Hz. apply (ls_denom_zero_iff pts ltac:(lia)) in Hz.
    apply Qeq_bool_iff in Hz. rewrite Hz in H. discriminate.
  - destruct (Qeq_bool (ls_denom pts) 0) eqn:E; [|reflexivity].
    exfalso. apply H. apply (ls_denom_zero_iff pts ltac:(lia)).
    apply Qeq_bool_iff. exact E.
Qed.

End RegressionExact.

(** C7 (amended): the regression result is defined iff at least 3
    qualifying runs lie in the plan weeks and, the sums being exact, their
    speeds have a non-zero variance, which is to say that they are not all
    equal.  In every arithmetic the result is defined only for at least 3
    such runs, an undefined result is the explicit absent value, and the
    block divides by nothing that is zero: it returns unless a square
    [speed ** 2] raises.  The heart-rate buffer is absent whenever the
    regression result is, and is the threshold minus the predicted heart
    rate whenever that heart rate is non-zero. *)
Theorem hr_at_mp_defined_iff :
  (forall (num : Type) (arith : PyNum num) (square : num -> exn num),
     (forall pts : list (run num),
        (exists v, hr_at_mp_of square pts = Ok v /\ (v <> None -> 3 <= len pts))
        \/ (exists p e, In p pts /\ square (r_speed p) = Raise e
                        /\ hr_at_mp_of square pts = Raise e))
     /\ (forall (rows : list (row num)) a,
           analyse square rows = Ok a ->
           exists bw,
             group_by_week (filter qualifies rows) [] = Ok bw
             /\ List.length (points bw)
                = List.length (filter in_plan (filter qualifies rows))
             /\ (hr_at_mp a <> None -> 3 <= len (points bw))
             /\ (hr_at_mp a = None -> hr_buffer a = None)
             /\ (forall h, hr_at_mp a = Some h -> truthy h = true ->
                   hr_buffer a = Some (round_nd 1 (nsub (red_zone_hr a) h)))))
  /\ (forall pts : list (run Q),
        (exists v, hr_at_mp_of square_product pts = Ok v
           /\ (v <> None <-> 3 <= len pts /\ ~ Qeq (speed_variance pts) 0))
        /\ (0 < len pts ->
            (Qeq (speed_variance pts) 0
             <-> forall p q, In p pts -> In q pts -> Qeq (r_speed p) (r_speed q))))
  /\ (forall (rows : list (row Q)) a,
        analyse square_product rows = Ok a ->
        exists bw,
          group_by_week (filter qualifies rows) [] = Ok bw
          /\ List.length (points bw)
             = List.length (filter in_plan (filter qualifies rows))
          /\ (hr_at_mp a <> None
              <-> 3 <= len (points bw) /\ ~ Qeq (speed_variance (points bw)) 0)).
Proof.
  split; [|split].
  - intros num arith square. split; [apply hr_at_mp_of_cases|].
    intros rows a Ha.
    destruct (analyse_blocks square rows a Ha)
      as (bw & hrs & Hbw & _ & _ & Hmp & _ & _ & Hbuf).
    exists bw. split; [exact Hbw|]. split.
    { rewrite (points_group_by_week _ _ _ Hbw). reflexivity. }
    split; [|split].
    + destruct (hr_at_mp_of_cases square (points bw))
        as [(v & Hv & H3) | (p & e & _ & _ & Hr)].
      * rewrite Hmp in Hv. inversion Hv; subst v. exact H3.
      * rewrite Hmp in Hr. discriminate.
    + intro Hn. rewrite Hbuf, Hn. reflexivity.
    + intros h Hh Ht. rewrite Hbuf, Hh. simpl. rewrite Ht. reflexivity.
  - intro pts. split; [apply hr_at_mp_of_exact | apply variance_zero_iff].
  - intros rows a Ha.
    destruct (analyse_blocks square_product rows a Ha)
      as (bw & hrs & Hbw & _ & _ & Hmp & _).
    exists bw. split; [exact Hbw|]. split.
    { rewrite (points_group_by_week _ _ _ Hbw). reflexivity. }
    destruct (hr_at_mp_of_exact (points bw)) as (v & Hv & Hiff).
    rewrite Hmp in Hv. inversion Hv; subst v. exact Hiff.
Qed.

Lemma hr_at_mp_defined_iff_witness :
  (exists a, analyse square_product three_weeks = Ok a
     /\ hr_at_mp a = Some (of_lit 165.2%Q)
     /\ hr_buffer a = Some (of_lit 1.1%Q))
  /\ ~ Qeq (speed_variance [mk_run "2025-12-23" 2 140 0 10;
                            mk_run "2025-12-30" 3 155 0 12;
                            mk_run "2026-01-07" 4 170 0 12]%Q) 0.
Proof.
  split.
  - assert (Ha : exists a, analyse square_product three_weeks = Ok a
                   /\ hr_at_mp a = Some (of_lit 165.2%Q)
                   /\ red_zone_hr a = of_lit 166.3%Q).
    { eexists. split; [vm_compute; reflexivity|]. split; vm_compute; reflexivity. }
    destruct Ha as (a & Ha & Hmp & Hred).
    destruct (proj2 (proj1 hr_at_mp_defined_iff float binary64 square_product)
                    three_weeks a Ha)
      as (bw & _ & _ & _ & _ & Hbuf).
    exists a. split; [exact Ha|]. split; [exact Hmp|].
    rewrite (Hbuf _ Hmp eq_refl), Hred. vm_compute. reflexivity.
  - intro H.
    pose proof (proj1 (proj2 (proj1 (proj2 hr_at_mp_defined_iff)
                                [mk_run "2025-12-23" 2 140 0 10;
                                 mk_run "2025-12-30" 3 155 0 12;
                                 mk_run "2026-01-07" 4 170 0 12]%Q) eq_refl) H) as Heq.
    specialize (Heq (mk_run "2025-12-23" 2 140 0 10)%Q
                    (mk_run "2025-12-30" 3 155 0 12)%Q
                    (or_introl eq_refl) (or_intror (or_introl eq_refl))).
    discriminate Heq.
Defined.

(** The buffer is also absent when the regression is defined and its
    prediction rounds to zero. *)
Example hr_buffer_absent_for_zero_prediction :
  exists a h, analyse square_product zero_prediction = Ok a
    /\ hr_at_mp a = Some h /\ truthy h = false /\ hr_buffer a = None.
Proof.
  eexists. eexists. split; [vm_compute; reflexivity|].
  repeat split; vm_compute; reflexivity.
Qed.

(** Rounding can hide a zero variance from the guard [if denom]: for five
    runs of one speed the computed denominator is not zero and a heart
    rate is predicted, whichever of the three doubles nearest to the exact
    square is taken for [speed ** 2]. *)
Example regression_defined_for_one_speed :
  (exists x, map_exn run_of same_speed = Ok x
     /\ forall p q, In p x -> In q x -> r_speed p = r_speed q)
  /\ (exists a, analyse square_below same_speed = Ok a
        /\ hr_at_mp a = Some (of_lit 188.6%Q))
  /\ (exists a, analyse square_product same_speed = Ok a
        /\ hr_at_mp a = Some (of_lit 188.6%Q))
  /\ (exists a, analyse square_above same_speed = Ok a
        /\ hr_at_mp a = Some (of_lit 111.4%Q)).
Proof.
  split; [|split; [|split]].
  - eexists. split; [vm_compute; reflexivity|].
    intros p q Hp Hq. simpl in Hp, Hq.
    repeat (destruct Hp as [<- | Hp]); try contradiction;
      repeat (destruct Hq as [<- | Hq]); try contradiction; reflexivity.
  - eexists. split; vm_compute; reflexivity.
  - eexists. split; vm_compute; reflexivity.
  - eexists. split; vm_compute; reflexivity.
Qed.

(** C7, as stated, fails: three qualifying runs with three different
    speeds, all before the plan starts, leave the regression undefined.
    No square is evaluated on the way. *)
Lemma regression_ignores_runs_outside_plan :
  filter qualifies before_plan = before_plan
  /\ (exists p1 p2 p3, map_exn run_of before_plan = Ok [p1; p2; p3]
        /\ nltb (r_speed p1) (r_speed p3) = true
        /\ nltb (r_speed p3) (r_speed p2) = true)
  /\ exists a, analyse square_overflows before_plan = Ok a /\ hr_at_mp a = None.
Proof.
  split; [vm_compute; reflexivity|]. split.
  - do 3 eexists. split; [vm_compute; reflexivity|]. split; vm_compute; reflexivity.
  - eexists. split; [vm_compute; reflexivity|]. reflexivity.
Qed.

(** *** Trend *)

Section TrendFacts.

Context {num : Type} {arith : PyNum num}.
Variable square : num -> exn num.

Lemma sorted_items_ascending : forall (A : Type) (l : list (Z * A)),
  ascending (map fst l) -> sorted_items l = l.
Proof.
  induction l as [|x l IH]; simpl; intro H; [reflexivity|].
  inversion H as [|? ? Hs Hall]; subst.
  rewrite (IH Hs). destruct l as [|y l']; simpl; [reflexivity|].
  inversion Hall as [|? ? Hxy _]; subst.
  assert (E : (fst y <? fst x) = false) by (apply Z.ltb_ge; lia).
  rewrite E. reflexivity.
Qed.

Lemma sorted_keys_ascending : forall (A : Type) (d : list (Z * A)),
  ascending (map fst d) -> sorted_keys d = map fst d.
Proof.
  intros A d H. unfold sorted_keys.
  rewrite sorted_items_ascending; rewrite map_map; simpl; [reflexivity | exact H].
Qed.

Lemma ae_at_keys : forall wk : list (Z * week_stats num),
  ascending (map fst wk) -> map (ae_at wk) (map fst wk) = week_aes wk.
Proof.
  induction wk as [|[k e] wk IH]; simpl; intro H; [reflexivity|].
  inversion H as [|? ? Hs Hall]; subst.
  rewrite Z.eqb_refl. f_equal. rewrite <- (IH Hs).
  apply map_ext_in. intros k' Hk'.
  rewrite Forall_forall in Hall. specialize (Hall k' Hk').
  assert (E : (k =? k') = false) by (apply Z.eqb_neq; lia).
  rewrite E. reflexivity.
Qed.

Lemma len_map : forall (A B : Type) (f : A -> B) (l : list A), len (map f l) = len l.
Proof. intros. unfold len. rewrite length_map. reflexivity. Qed.

Lemma len_firstn_half : forall (A : Type) (l : list A),
  len (firstn (Z.to_nat (len l / 2)) l) = len l / 2.
Proof.
  intros A l. unfold len. rewrite length_firstn.
  assert (H : 0 <= Z.of_nat (List.length l) / 2 <= Z.of_nat (List.length l)).
  { split; [apply Z.div_pos; lia | apply Z.div_le_upper_bound; lia]. }
  lia.
Qed.

Lemma len_skipn_half : forall (A : Type) (l : list A),
  len (skipn (Z.to_nat (len l / 2)) l) = len l - len l / 2.
Proof.
  intros A l. unfold len. rewrite length_skipn.
  assert (H : 0 <= Z.of_nat (List.length l) / 2 <= Z.of_nat (List.length l)).
  { split; [apply Z.div_pos; lia | apply Z.div_le_upper_bound; lia]. }
  lia.
Qed.

(** On a dictionary in week order the block "AE trend" computes the
    rounded trend of the efficiencies. *)
Lemma ae_trend_of_rounded : forall wk : list (Z * week_stats num),
  ascending (map fst wk) -> ae_trend_of wk = trend_rounded (week_aes wk).
Proof.
  intros wk H. unfold ae_trend_of, trend_rounded, mean.
  rewrite (sorted_keys_ascending _ wk H).
  assert (Hl : len (week_aes wk) = len (map fst wk)).
  { unfold week_aes. rewrite !len_map. reflexivity. }
  rewrite Hl.
  rewrite <- !firstn_map, <- !skipn_map. rewrite (ae_at_keys wk H).
  rewrite <- Hl. rewrite len_firstn_half, len_skipn_half. reflexivity.
Qed.

(** The keys of [by_week] are distinct. *)
Lemma week_append_keys : forall w x (m : list (Z * list (run num))),
  map fst (week_append w x m) = map fst m
  \/ (map fst (week_append w x m) = (map fst m ++ [w])%list /\ ~ In w (map fst m)).
Proof.
  induction m as [|[k l] m IH]; simpl.
  - right. split; [reflexivity | tauto].
  - destruct (k =? w) eqn:E; simpl; [left; reflexivity|].
    apply Z.eqb_neq in E.
    destruct IH as [-> | [-> Hn]]; [left; reflexivity|].
    right. split; [reflexivity | tauto].
Qed.

Lemma NoDup_snoc : forall (A : Type) (l : list A) x,
  NoDup l -> ~ In x l -> NoDup (l ++ [x]).
Proof.
  intros A l x Hl Hx. apply NoDup_rev in Hl.
  rewrite <- (rev_involutive (l ++ [x])). apply NoDup_rev.
  rewrite rev_app_distr. simpl. constructor; [|exact Hl].
  rewrite <- in_rev. exact Hx.
Qed.

Lemma group_by_week_keys : forall (rs : list (row num)) acc bw,
  NoDup (map fst acc) -> group_by_week rs acc = Ok bw -> NoDup (map fst bw).
Proof.
  induction rs as [|r rs IH]; simpl; intros acc bw Hacc H.
  - inversion H; subst. exact Hacc.
  - destruct (plan_week (date r)) as [[w|]|e]; simpl in H; [| eauto | discriminate].
    destruct (w =? 0); [eauto|].
    apply bind_Ok in H. destruct H as (x & _ & H).
    apply IH in H; [exact H|].
    destruct (week_append_keys w x acc) as [-> | [-> Hn]];
      [exact Hacc | apply NoDup_snoc; assumption].
Qed.

(** The sort of the items orders distinct keys strictly. *)
Lemma insert_by_week_perm : forall (A : Type) (x : Z * A) l,
  Permutation (insert_by_week x l) (x :: l).
Proof.
  induction l as [|y l IH]; simpl; [reflexivity|].
  destruct (fst y <? fst x); [|reflexivity].
  rewrite IH. apply perm_swap.
Qed.

Lemma sorted_items_perm : forall (A : Type) (l : list (Z * A)),
  Permutation (sorted_items l) l.
Proof.
  induction l as [|x l IH]; simpl; [reflexivity|].
  rewrite insert_by_week_perm. constructor. exact IH.
Qed.

Lemma insert_by_week_sorted : forall (A : Type) (x : Z * A) l,
  StronglySorted Z.le (map fst l) ->
  StronglySorted Z.le (map fst (insert_by_week x l)).
Proof.
  induction l as [|y l IH]; simpl; intro H.
  - repeat constructor.
  - inversion H as [|? ? Hs Hall]; subst.
    destruct (fst y <? fst x) eqn:E; simpl.
    + apply Z.ltb_lt in E. constructor; [apply IH, Hs|].
      assert (Hp : Permutation (fst x :: map fst l) (map fst (insert_by_week x l))).
      { symmetry. change (fst x :: map fst l) with (map fst (x :: l)).
        apply Permutation_map, insert_by_week_perm. }
      apply (Permutation_Forall Hp).
      constructor; [lia | exact Hall].
    + apply Z.ltb_ge in E. constructor; [exact H|].
      constructor; [exact E|].
      eapply Forall_impl; [|exact Hall]. simpl. intros; lia.
Qed.

Lemma sorted_items_sorted : forall (A : Type) (l : list (Z * A)),
  StronglySorted Z.le (map fst (sorted_items l)).
Proof.
  induction l as [|x l IH]; simpl; [constructor|].
  apply insert_by_week_sorted, IH.
Qed.

Lemma sorted_NoDup_ascending : forall ws : list Z,
  StronglySorted Z.le ws -> NoDup ws -> ascending ws.
Proof.
  induction ws as [|w ws IH]; intros Hs Hn; [constructor|].
  inversion Hs as [|? ? Hs' Hall]; subst.
  inversion Hn as [|? ? Hnotin Hn']; subst.
  constructor; [apply IH; assumption|].
  rewrite Forall_forall in *. intros y Hy. specialize (Hall y Hy).
  assert (y <> w) by (intro; subst; tauto). lia.
Qed.

Lemma map_exn_keys : forall (A B : Type) (f : A -> exn B) (l : list (Z * A)) out,
  map_exn (fun wr => e <- f (snd wr) ;; Ok (fst wr, e)) l = Ok out ->
  map fst out = map fst l.
Proof.
  induction l as [|x l IH]; simpl; intros out H.
  - inversion H; reflexivity.
  - apply bind_Ok in H. destruct H as (y & Hy & H).
    apply bind_Ok in Hy. destruct Hy as (e & _ & Hy). inversion Hy; subst.
    apply bind_Ok in H. destruct H as (ys & Hys & H). inversion H; subst.
    simpl. rewrite (IH ys Hys). reflexivity.
Qed.

(** [wk_ae] is filled in week order. *)
Lemma analyse_weeks_ascending : forall (rows : list (row num)) a,
  analyse square rows = Ok a -> ascending (map fst (by_week a)).
Proof.
  intros rows a Ha.
  destruct (analyse_blocks square rows a Ha) as (bw & hrs & Hbw & Hwk & _).
  unfold wk_ae_of in Hwk. apply map_exn_keys in Hwk. rewrite Hwk.
  apply sorted_NoDup_ascending; [apply sorted_items_sorted|].
  apply (Permutation_NoDup (l := map fst bw)).
  - apply Permutation_map. symmetry. apply sorted_items_perm.
  - apply (group_by_week_keys (filter qualifies rows) [] bw); [constructor | exact Hbw].
Qed.

Lemma trend_rounded_short : forall aes : list num,
  len aes < 2 -> trend_rounded aes = Ok ("insufficient data", None).
Proof.
  intros aes H. unfold trend_rounded.
  assert (E : (2 <=? len aes) = false) by (apply Z.leb_gt; exact H).
  rewrite E. reflexivity.
Qed.

Lemma trend_rounded_long : forall (aes : list num) word pct,
  trend_rounded aes = Ok (word, Some pct) ->
  2 <= len aes
  /\ exists first_ae second_ae q,
       mean (firstn (Z.to_nat (len aes / 2)) aes) = Ok first_ae
       /\ mean (skipn (Z.to_nat (len aes / 2)) aes) = Ok second_ae
       /\ py_div (nsub second_ae first_ae) first_ae = Ok q
       /\ pct = round_nd 1 (nmul q (of_int 100))
       /\ word = trend_word pct.
Proof.
  intros aes word pct H. unfold trend_rounded in H.
  destruct (2 <=? len aes) eqn:E; [|discriminate].
  apply Z.leb_le in E. split; [exact E|].
  apply bind_Ok in H. destruct H as (f & Hf & H).
  apply bind_Ok in H. destruct H as (s & Hs & H).
  apply bind_Ok in H. destruct H as (q & Hq & H).
  inversion H; subst. exists f, s, q. repeat split; assumption.
Qed.

End TrendFacts.

(** *** The trend in exact arithmetic *)

Section TrendExact.

Local Open Scope Q_scope.

Lemma Qltb_lt : forall x y : Q, Qltb x y = true <-> x < y.
Proof.
  intros x y. unfold Qltb. rewrite Qlt_alt.
  destruct (x ?= y); split; congruence.
Qed.

Lemma trend_word_exact : forall pct : Q,
  (trend_word pct = "improving"%string <-> 1 < pct)
  /\ (trend_word pct = "declining"%string <-> pct < -1)
  /\ (trend_word pct = "stable"%string <-> -1 <= pct <= 1).
Proof.
  intro pct. unfold trend_word. cbn [nltb exactQ of_int].
  destruct (Qltb (inject_Z 1) pct) eqn:E1.
  - apply Qltb_lt in E1. change (inject_Z 1) with 1 in E1.
    repeat split; intros; try reflexivity; try discriminate; try assumption.
    + exfalso. apply (Qlt_irrefl pct).
      apply Qlt_trans with (-1); [assumption|].
      apply Qlt_trans with 1; [reflexivity | assumption].
    + exfalso. destruct H as [_ H]. apply (Qlt_not_le _ _ E1 H).
  - assert (H1 : ~ 1 < pct).
    { intro H. apply Qltb_lt in H. change 1 with (inject_Z 1) in H. congruence. }
    apply Qnot_lt_le in H1.
    destruct (Qltb pct (inject_Z (-1))) eqn:E2.
    + apply Qltb_lt in E2. change (inject_Z (-1)) with (-1) in E2.
      repeat split; intros; try reflexivity; try discriminate; try assumption.
      * exfalso. apply (Qlt_not_le _ _ H H1).
      * exfalso. destruct H as [H _]. apply (Qlt_not_le _ _ E2 H).
    + assert (H2 : ~ pct < -1).
      { intro H. apply Qltb_lt in H. change (-1) with (inject_Z (-1)) in H. congruence. }
      apply Qnot_lt_le in H2.
      repeat split; intros; try reflexivity; try discriminate; try assumption.
      * exfalso. apply (Qlt_not_le _ _ H H1).
      * exfalso. apply (Qlt_not_le _ _ H H2).
Qed.

Lemma Forall_firstn_keep : forall (A : Type) (P : A -> Prop) n (l : list A),
  Forall P l -> Forall P (firstn n l).
Proof.
  induction n as [|n IH]; intros [|x l] H; simpl; try constructor;
    inversion H; subst; auto.
Qed.

Lemma Forall_skipn_keep : forall (A : Type) (P : A -> Prop) n (l : list A),
  Forall P l -> Forall P (skipn n l).
Proof.
  induction n as [|n IH]; intros [|x l] H; simpl; try constructor;
    inversion H; subst; auto.
Qed.

Lemma fold_sum_const : forall (e : Q) (xs : list Q) (acc : Q),
  Forall (fun x => x == e) xs ->
  fold_left Qplus xs acc == acc + inject_Z (len xs) * e.
Proof.
  induction xs as [|x xs IH]; intros acc H.
  - simpl. unfold len. simpl. ring.
  - inversion H as [|? ? Hx Hxs]; subst. simpl. rewrite (IH _ Hxs).
    unfold len. simpl List.length. rewrite Nat2Z.inj_succ, <- Z.add_1_r.
    rewrite inject_Z_plus, Hx. ring.
Qed.

(** The mean of a non-empty list of equal values is this value. *)
Lemma mean_const : forall (e : Q) (xs : list Q),
  (0 < len xs)%Z -> Forall (fun x => x == e) xs ->
  exists m, mean xs = Ok m /\ m == e.
Proof.
  intros e xs Hlen H. unfold mean, py_div_int.
  assert (E : (len xs =? 0)%Z = false) by (apply Z.eqb_neq; lia).
  rewrite E. eexists. split; [reflexivity|].
  cbn [ndiv exactQ of_int]. unfold py_sum. cbn [nadd exactQ of_int].
  rewrite (fold_sum_const e xs _ H).
  assert (Hn : ~ inject_Z (len xs) == 0).
  { intro H0. unfold Qeq in H0. simpl in H0. lia. }
  field. exact Hn.
Qed.

Lemma round_half_even_zero : forall q : Q, q == 0 -> round_half_even q = 0%Z.
Proof.
  intros q H. unfold Qeq in H. simpl in H. rewrite Z.mul_1_r in H.
  unfold round_half_even. rewrite H. simpl. reflexivity.
Qed.

(** Constant efficiency gives the trend "stable" with the percentage 0. *)
Lemma trend_rounded_const : forall (e : Q) (aes : list Q),
  (2 <= len aes)%Z -> Forall (fun x => x == e) aes -> ~ e == 0 ->
  exists pct, trend_rounded aes = Ok ("stable"%string, Some pct) /\ pct == 0.
Proof.
  intros e aes Hlen Hall He. unfold trend_rounded.
  assert (E : (2 <=? len aes)%Z = true) by (apply Z.leb_le; exact Hlen).
  rewrite E.
  assert (Hmid : (1 <= len aes / 2 <= len aes - 1)%Z).
  { split; [apply Z.div_le_lower_bound; lia|].
    assert (len aes / 2 < len aes)%Z by (apply Z.div_lt_upper_bound; lia). lia. }
  destruct (mean_const e (firstn (Z.to_nat (len aes / 2)) aes)) as (f & Hf & Hfe).
  { rewrite len_firstn_half. lia. }
  { apply Forall_firstn_keep, Hall. }
  destruct (mean_const e (skipn (Z.to_nat (len aes / 2)) aes)) as (s & Hs & Hse).
  { rewrite len_skipn_half. lia. }
  { apply Forall_skipn_keep, Hall. }
  rewrite Hf, Hs. simpl bind. unfold py_div. cbn [neqb exactQ of_int].
  assert (Ef : Qeq_bool f (inject_Z 0) = false).
  { destruct (Qeq_bool f (inject_Z 0)) eqn:Eb; [|reflexivity].
    apply Qeq_bool_eq in Eb. exfalso. apply He. rewrite <- Hfe. exact Eb. }
  rewrite Ef. simpl bind. cbn [ndiv nsub nmul round_nd exactQ of_int].
  assert (Hz : (s - f) / f * inject_Z 100 == 0).
  { rewrite Hfe, Hse. field. exact He. }
  unfold Qround_nd. rewrite round_half_even_zero.
  - eexists. split; reflexivity.
  - rewrite Hz. reflexivity.
Qed.

End TrendExact.

(** C6 (amended): the populated weeks are taken in week order and split at
    mid = count // 2; the percent change is (second - first) / first * 100
    of the two mean efficiencies, rounded to one decimal place; the trend
    is "improving" iff the rounded change is > 1, "declining" iff it is
    < -1, else "stable"; fewer than 2 weeks give "insufficient data" and no
    percentage; a constant non-zero efficiency gives "stable" and 0.0. *)
Theorem ae_trend_spec :
  (forall (num : Type) (arith : PyNum num),
     (forall wk : list (Z * week_stats num),
        ascending (map fst wk) -> ae_trend_of wk = trend_rounded (week_aes wk))
     /\ (forall (square : num -> exn num) (rows : list (row num)) a,
           analyse square rows = Ok a ->
           ascending (map fst (by_week a))
           /\ trend_rounded (week_aes (by_week a))
              = Ok (ae_trend a, ae_trend_pct a))
     /\ (forall aes : list num,
           len aes < 2 -> trend_rounded aes = Ok ("insufficient data", None))
     /\ (forall (aes : list num) word pct,
           trend_rounded aes = Ok (word, Some pct) ->
           2 <= len aes
           /\ exists first_ae second_ae q,
                mean (firstn (Z.to_nat (len aes / 2)) aes) = Ok first_ae
                /\ mean (skipn (Z.to_nat (len aes / 2)) aes) = Ok second_ae
                /\ py_div (nsub second_ae first_ae) first_ae = Ok q
                /\ pct = round_nd 1 (nmul q (of_int 100))
                /\ word = trend_word pct))
  /\ (forall pct : Q,
        (trend_word pct = "improving" <-> (1 < pct)%Q)
        /\ (trend_word pct = "declining" <-> (pct < -1)%Q)
        /\ (trend_word pct = "stable" <-> (-1 <= pct <= 1)%Q))
  /\ (forall (e : Q) (aes : list Q),
        2 <= len aes -> Forall (fun x => Qeq x e) aes -> ~ Qeq e 0 ->
        exists pct, trend_rounded aes = Ok ("stable", Some pct) /\ Qeq pct 0).
Proof.
  split; [|split].
  - intros num arith. split; [apply ae_trend_of_rounded|]. split; [|split].
    + intros square rows a Ha.
      pose proof (analyse_weeks_ascending square rows a Ha) as Hasc.
      split; [exact Hasc|].
      destruct (analyse_blocks square rows a Ha) as (bw & hrs & _ & _ & Htr & _).
      rewrite <- (ae_trend_of_rounded _ Hasc). exact Htr.
    + apply trend_rounded_short.
    + apply trend_rounded_long.
  - apply trend_word_exact.
  - apply trend_rounded_const.
Qed.

Lemma ae_trend_spec_witness :
  exists pct : Q,
    trend_rounded [25#1; 100#4; 50#2]%Q = Ok ("stable", Some pct) /\ Qeq pct 0.
Proof.
  apply (proj2 (proj2 ae_trend_spec) (25#1)%Q).
  - vm_compute. discriminate.
  - repeat constructor.
  - discriminate.
Defined.

(** C6, as stated, fails: with weekly efficiencies 25.00 and 25.26 the
    change is 1.04 %, which is > 1, but the script rounds it to 1.0 and
    reports "stable". *)
Lemma trend_rounds_before_classifying :
  exists a, analyse square_overflows two_weeks = Ok a
    /\ ae_trend a = "stable"
    /\ exists change,
         trend_unrounded (week_aes (by_week a)) = Ok ("improving", Some change)
         /\ nltb (of_int 1) change = true.
Proof.
  eexists. split; [vm_compute; reflexivity|]. split; [reflexivity|].
  eexists. split; vm_compute; reflexivity.
Qed.

(** ** Predictor *)

Section PredictFacts.

Context {num : Type} {arith : PyNum num}.
Variable pow : num -> num -> num.

(** When the reference distance is not zero, [predict] is the rounded sum
    of the Riegel baseline and the modifier. *)
Lemma predict_unfold : forall (rows : list (row num)) (a : analysis num),
  truthy (of_lit HM_DIST_M) = true ->
  riegel pow HM_PB_SECS (of_lit HM_DIST_M) TARGET_DIST_M = Ok (riegel_baseline pow)
  /\ predict pow rows a
     = (n <- round_int (nadd (riegel_baseline pow) (modifier_of (ae_trend_pct a))) ;;
        Ok (n, None)).
Proof.
  intros rows a H. unfold predict, riegel, py_div.
  unfold truthy in H. apply negb_true_iff in H. rewrite H. split; reflexivity.
Qed.

End PredictFacts.

Section PredictExact.

Local Open Scope Q_scope.

Lemma Qltb_ge : forall x y : Q, Qltb x y = false <-> y <= x.
Proof.
  intros x y. split.
  - intro H. apply Qnot_lt_le. intro Hlt. apply Qltb_lt in Hlt. congruence.
  - intro H. destruct (Qltb x y) eqn:E; [|reflexivity].
    apply Qltb_lt in E. exfalso. apply (Qlt_not_le _ _ E H).
Qed.

(** [max(-90, min(90, x))] clamps [x] to the interval from -90 to 90. *)
Lemma clamp_exact : forall x : Q,
  let m := py_max (of_int (-90)) (py_min (of_int 90) x) in
  -90 <= m <= 90
  /\ (-90 <= x <= 90 -> m == x)
  /\ (90 < x -> m == 90)
  /\ (x < -90 -> m == -90).
Proof.
  intro x. unfold py_max, py_min. cbn [nltb exactQ of_int].
  change (inject_Z 90) with 90. change (inject_Z (-90)) with (-90).
  destruct (Qltb x 90) eqn:E1.
  - apply Qltb_lt in E1. destruct (Qltb (-90) x) eqn:E2.
    + apply Qltb_lt in E2. cbv zeta. repeat split; intros; try lra.
    + apply Qltb_ge in E2. cbv zeta. repeat split; intros; try lra.
  - apply Qltb_ge in E1. destruct (Qltb (-90) 90) eqn:E2.
    + cbv zeta. repeat split; intros; try lra.
    + apply Qltb_ge in E2. lra.
Qed.

Lemma pct_or_0_exact : forall p : Q, pct_or_0 (Some p) == p.
Proof.
  intro p. unfold pct_or_0, truthy. cbn [neqb exactQ of_int].
  destruct (Qeq_bool p (inject_Z 0)) eqn:E; simpl; [|reflexivity].
  apply Qeq_bool_eq in E. rewrite E. reflexivity.
Qed.

(** The modifier: -15 s per +1 % of trend, clamped to 90 s either way;
    no trend percentage, no adjustment. *)
Lemma modifier_exact : forall p : option Q,
  -90 <= modifier_of p <= 90
  /\ (p = None -> modifier_of p == 0)
  /\ (forall x, p = Some x ->
        (-6 <= x <= 6 -> modifier_of p == -15 * x)
        /\ (6 < x -> modifier_of p == -90)
        /\ (x < -6 -> modifier_of p == 90)).
Proof.
  intro p. unfold modifier_of.
  destruct (clamp_exact (nmul (nopp (pct_or_0 p)) (of_int 15))) as (Hb & Hin & Hhi & Hlo).
  split; [exact Hb|]. split.
  - intros ->. reflexivity.
  - intros x ->. pose proof (pct_or_0_exact x) as Hx.
    cbn [nmul nopp exactQ of_int] in *. change (inject_Z 15) with 15 in *.
    repeat split; intro H.
    + rewrite Hin; [rewrite Hx; ring | rewrite Hx; lra].
    + rewrite Hlo; [reflexivity | rewrite Hx; lra].
    + rewrite Hhi; [reflexivity | rewrite Hx; lra].
Qed.

End PredictExact.



(** * Further properties of the code *)

(** ** Merger *)

(** X1: the merged list is sorted by date: no record is followed by one
    with an earlier date. *)
Theorem merge_sorted_by_date :
  forall (num : Type) (arith : PyNum num) (export_rows api_rows : list (row num)),
  Sorted date_le (merge export_rows api_rows).
Proof.
  intros. unfold merge. apply sorted_by_date_sorted.
Qed.

(** X2: no export id is lost, and no id is invented: every id of an
    export row is the id of a merged record, and every id of a merged
    record is the id of an export row or of an API row. *)
Theorem merge_ids_kept :
  forall (num : Type) (arith : PyNum num) (export_rows api_rows : list (row num)) k,
  (In k (map activity_id export_rows) ->
   In k (map activity_id (merge export_rows api_rows)))
  /\ (In k (map activity_id (merge export_rows api_rows)) ->
      In k (map activity_id export_rows) \/ In k (map activity_id api_rows)).
Proof.
  intros num arith es rs k. rewrite merge_ids_keys.
  destruct (seed_export_spec es) as (_ & Hk & _). split.
  - intro H. apply keys_fold_api_grow. apply Hk. exact H.
  - intro H. apply keys_fold_api_from in H. destruct H as [H|H]; [|auto].
    left. apply Hk. exact H.
Qed.

Lemma merge_ids_kept_witness :
  In "A" (map activity_id (merge [export_A "Run"] [normalised_B "Run" true])).
Proof.
  apply (merge_ids_kept float binary64 [export_A "Run"] [normalised_B "Run" true] "A").
  left. reflexivity.
Defined.

(** X3: no API row is lost: for each of them the merged list has a record
    with its id, or a record with its date and its distance rounded to
    0.1 km. *)
Theorem merge_represents_api_rows :
  forall (num : Type) (arith : PyNum num) (export_rows api_rows : list (row num)) a,
  In a api_rows ->
  In (activity_id a) (map activity_id (merge export_rows api_rows))
  \/ exists m, In m (merge export_rows api_rows) /\ same_run a m = true.
Proof.
  intros num arith es rs a Ha.
  apply in_split in Ha. destruct Ha as (pre & post & ->).
  set (m0 := fold_left merge_api_row pre (seed_export es)).
  assert (Hfold : fold_left merge_api_row (pre ++ a :: post) (seed_export es)
                  = fold_left merge_api_row post (merge_api_row m0 a)).
  { rewrite fold_left_app. reflexivity. }
  destruct (merge_api_row_represents m0 a) as [Hk | Hv].
  - left. apply merge_ids_keys. rewrite Hfold. apply keys_fold_api_grow, Hk.
  - right. destruct (fold_api_keeps_match a post _ Hv) as (k & v & Hin & Hs).
    exists v. split; [|exact Hs].
    unfold merge. apply (Permutation_in _ (Permutation_sym (sorted_by_date_perm _))).
    rewrite Hfold. apply in_map_iff. exists (k, v). auto.
Qed.

Lemma merge_represents_api_rows_witness :
  exists a1 a2 : row float,
    norm_api api_morning = Ok a1 /\ norm_api api_evening = Ok a2
    /\ (In (activity_id a2) (map activity_id (merge [] [a1; a2]))
        \/ exists m, In m (merge [] [a1; a2]) /\ same_run a2 m = true).
Proof.
  eexists. eexists. split; [vm_compute; reflexivity|].
  split; [vm_compute; reflexivity|].
  apply (merge_represents_api_rows float binary64). right. left. reflexivity.
Defined.

(** X4: the merge changes nothing but heart rates: every merged record is
    an input row up to its heart rate, and its heart rate is the one of an
    input row. *)
Theorem merge_only_changes_hr :
  forall (num : Type) (arith : PyNum num) (export_rows api_rows : list (row num)) m,
  In m (merge export_rows api_rows) ->
  (exists r, In r (export_rows ++ api_rows) /\ same_but_hr r m)
  /\ (exists r, In r (export_rows ++ api_rows) /\ avg_hr m = avg_hr r).
Proof.
  intros num arith es rs m Hm.
  apply (merge_values_ind
           (fun m => (exists r, In r (es ++ rs)%list /\ same_but_hr r m)
                     /\ (exists r, In r (es ++ rs)%list /\ avg_hr m = avg_hr r))
           es rs); auto.
  - intros r Hr. split; exists r; (split; [apply in_or_app; auto |]).
    + unfold same_but_hr. destruct r; reflexivity.
    + reflexivity.
  - intros r Hr. split; exists r; (split; [apply in_or_app; auto |]).
    + unfold same_but_hr. destruct r; reflexivity.
    + reflexivity.
  - intros r v Hr [(r1 & Hin1 & Hs1) _]. split.
    + exists r1. split; [exact Hin1|]. unfold same_but_hr in *.
      rewrite <- Hs1. reflexivity.
    + exists r. split; [apply in_or_app; auto | reflexivity].
Qed.

Lemma merge_only_changes_hr_witness :
  exists r, In r ([export_A "Run"] ++ [normalised_B "Run" true])%list
    /\ same_but_hr r (mk_row "A" "2025-12-22" "Run" (of_int 10) 2400 (Some (PInt 150))).
Proof.
  apply (merge_only_changes_hr float binary64 [export_A "Run"] [normalised_B "Run" true]).
  vm_compute. left. reflexivity.
Defined.

(** X5: without API rows the merged list holds exactly the export rows
    that are the last of their id: of several export rows with one id the
    last one is kept. *)
Theorem merge_export_only :
  forall (num : Type) (arith : PyNum num) (export_rows : list (row num)) v,
  In v (merge export_rows []) <-> last_with_its_id export_rows v.
Proof.
  intros num arith es v. rewrite <- seed_export_last. unfold merge. simpl.
  split.
  - intro H. apply (Permutation_in _ (sorted_by_date_perm _)) in H.
    apply in_map_iff in H. destruct H as ([k v'] & Hv & Hin). simpl in Hv. subst.
    exists k. exact Hin.
  - intros (k & Hin).
    apply (Permutation_in _ (Permutation_sym (sorted_by_date_perm _))).
    apply in_map_iff. exists (k, v). auto.
Qed.

(** X6: [norm_api] fills a missing distance and a missing time with 0,
    raises [TypeError] when one of them is [null], and returns exactly
    when neither is [null] and the time, if a real, converts to an
    integer. *)
Theorem norm_api_returns :
  forall (num : Type) (arith : PyNum num) (a : activity num),
  ((exists r, norm_api a = Ok r)
   <-> a_distance a <> Null /\ a_moving_time a <> Null
       /\ (forall x, a_moving_time a = JFloat x -> exists z, trunc_int x = Ok z))
  /\ (a_distance a = Null \/ a_moving_time a = Null -> norm_api a = Raise TypeError)
  /\ (a_distance a = Absent -> a_moving_time a = Absent ->
      exists r, norm_api a = Ok r
        /\ distance_km r = round_nd 2 (ndiv (of_int 0) (of_int 1000))
        /\ moving_secs r = 0).
Proof.
  intros num arith a. unfold norm_api. split; [|split].
  - split.
    + intros (r & H).
      destruct (a_distance a) as [| |zd|xd]; simpl in H; try discriminate;
        destruct (a_moving_time a) as [| |zm|xm]; simpl in H; try discriminate;
        (split; [discriminate|]); (split; [discriminate|]);
        intros x' Hx; try discriminate;
        inversion Hx; subst;
        destruct (trunc_int x') eqn:E; simpl in H; try discriminate; eauto.
    + intros (Hd & Hm & Hx).
      destruct (a_distance a) as [| |zd|xd]; try congruence; simpl;
        destruct (a_moving_time a) as [| |zm|xm]; try congruence; simpl; eauto;
        destruct (Hx xm eq_refl) as (z & ->); simpl; eauto.
  - intros [H | H].
    + rewrite H. reflexivity.
    + rewrite H. destruct (a_distance a); reflexivity.
  - intros Hd Hm. rewrite Hd, Hm. simpl. eexists. split; [reflexivity|].
    split; reflexivity.
Qed.

Lemma norm_api_returns_witness :
  norm_api (mk_activity (IdInt 5) "2026-01-01T00:00:00Z" None
                        Null (JInt 10) (@Absent float))
  = Raise TypeError.
Proof.
  apply (norm_api_returns float binary64). left. reflexivity.
Defined.

Section DateOfActivity.

Lemma substring_prefix : forall s rest : string,
  substring 0 (String.length s) (s ++ rest) = s.
Proof.
  induction s as [|c s IH]; intro rest; simpl.
  - destruct rest; reflexivity.
  - rewrite IH. reflexivity.
Qed.

Lemma fmt_02d_length_all :
  forallb (fun z => (String.length (fmt_02d z) =? 2)%nat) (Zrange 1 31) = true.
Proof. vm_compute. reflexivity. Qed.

Lemma length_append : forall s1 s2 : string,
  String.length (s1 ++ s2) = (String.length s1 + String.length s2)%nat.
Proof.
  induction s1 as [|c s1 IH]; intro s2; simpl; [reflexivity|].
  rewrite IH. reflexivity.
Qed.

(** A calendar date is written with ten characters. *)
Lemma strftime_ymd_length : forall y m d dt,
  date_new y m d = Ok dt -> String.length (strftime_ymd dt) = 10%nat.
Proof.
  intros y m d dt H. unfold date_new in H.
  destruct (_ && _) eqn:E; [|discriminate]. inversion H; subst dt.
  repeat (apply andb_true_iff in E; destruct E as [E ?]).
  apply Z.leb_le in E, H0, H1, H2, H3, H4.
  assert (Hd : d <= 31).
  { unfold days_in_month in H0. repeat destruct (_ =? _) in H0; simpl in H0;
      try destruct (is_leap y); lia. }
  unfold strftime_ymd. cbn [year month day].
  pose proof chk_year_all as A. rewrite forallb_forall in A.
  specialize (A y (Zrange_In 1 9999 y ltac:(lia) ltac:(lia))).
  pose proof fmt_02d_length_all as B. rewrite forallb_forall in B.
  pose proof (B m (Zrange_In 1 31 m ltac:(lia) ltac:(lia))) as Bm.
  pose proof (B d (Zrange_In 1 31 d ltac:(lia) ltac:(lia))) as Bd.
  apply Nat.eqb_eq in Bm, Bd.
  unfold chk_year in A.
  destruct (fmt_04d y) as [|a [|b [|c [|e [|? ?]]]]]; try discriminate.
  cbn [append String.length]. rewrite length_append. cbn [append String.length].
  rewrite Bm, Bd. reflexivity.
Qed.

End DateOfActivity.

(** X7: the normaliser and the week indexer fit together: when the local
    start time of an activity begins with a calendar date in the form
    YYYY-MM-DD, the date of the normalised record is that date, and the
    week indexer parses it back. *)
Theorem norm_api_date_is_parsed :
  forall (num : Type) (arith : PyNum num) (a : activity num) (r : row num)
         (y m d : Z) (dt : pydate) (rest : string),
  date_new y m d = Ok dt ->
  a_start_date_local a = strftime_ymd dt ++ rest ->
  norm_api a = Ok r ->
  date r = strftime_ymd dt
  /\ strptime_ymd (date r) = Ok dt
  /\ plan_week (date r) = plan_week (strftime_ymd dt)
  /\ exists w, plan_week (date r) = Ok w.
Proof.
  intros num arith a r y m d dt rest Hdt Hstart Hnorm.
  assert (Hdate : date r = strftime_ymd dt).
  { unfold norm_api in Hnorm.
    apply bind_Ok in Hnorm. destruct Hnorm as (dist & _ & Hnorm).
    apply bind_Ok in Hnorm. destruct Hnorm as (secs & _ & Hnorm).
    inversion Hnorm; subst r. cbn [date]. rewrite Hstart.
    rewrite <- (strftime_ymd_length y m d dt Hdt). apply substring_prefix. }
  pose proof (strptime_strftime y m d dt Hdt) as Hparse.
  rewrite Hdate. repeat split; try assumption.
  rewrite (plan_week_of_date _ _ Hparse). cbv zeta.
  destruct (_ <? 0); eauto.
Qed.

Lemma norm_api_date_is_parsed_witness :
  exists r : row float,
    norm_api api_morning = Ok r /\ strptime_ymd (date r) = Ok (mk_date 2026 1 10).
Proof.
  assert (Hn : exists r, norm_api api_morning = Ok r).
  { eexists. vm_compute. reflexivity. }
  destruct Hn as (r & Hr). exists r. split; [exact Hr|].
  apply (norm_api_date_is_parsed float binary64 api_morning r 2026 1 10
           (mk_date 2026 1 10) "T07:02:11Z"); [reflexivity | reflexivity | exact Hr].
Defined.

(** ** Analysis *)

Section WeeksMore.

Context {num : Type} {arith : PyNum num}.
Variable square : num -> exn num.

(** The remaining blocks of [analyse], when it returns. *)
Lemma analyse_more_blocks : forall (rows : list (row num)) a,
  analyse square rows = Ok a ->
  ae_delta_wk_of (by_week a) = Ok (ae_delta_wk a)
  /\ current_week a = last (map Some (sorted_keys (by_week a))) None.
Proof.
  intros rows a H. unfold analyse in H.
  apply bind_Ok in H. destruct H as (bw & Hbw & H).
  apply bind_Ok in H. destruct H as (wk & Hwk & H).
  apply bind_Ok in H. destruct H as ([word pct] & Htr & H).
  apply bind_Ok in H. destruct H as (at_mp & Hmp & H).
  apply bind_Ok in H. destruct H as (hrs & Hhrs & H).
  apply bind_Ok in H. destruct H as (delta & Hdelta & H).
  inversion H; subst; simpl. split; [assumption | reflexivity].
Qed.

Lemma week_append_ok : forall w x (m : list (Z * list (run num))),
  1 <= w <= 18 -> Forall week_ok m -> Forall week_ok (week_append w x m).
Proof.
  induction m as [|[k l] m IH]; simpl; intros Hw H.
  - constructor; [|constructor]. split; [exact Hw | discriminate].
  - inversion H as [|? ? Hh Ht]; subst. destruct (k =? w).
    + constructor; [|exact Ht]. destruct Hh as [Hk _]. split; [exact Hk|].
      simpl. destruct l; discriminate.
    + constructor; [exact Hh | apply IH; assumption].
Qed.

Lemma group_by_week_ok : forall (rs : list (row num)) acc bw,
  Forall week_ok acc -> group_by_week rs acc = Ok bw -> Forall week_ok bw.
Proof.
  induction rs as [|r rs IH]; simpl; intros acc bw Hacc H.
  - inversion H; subst. exact Hacc.
  - destruct (plan_week (date r)) as [[w|]|e] eqn:Ew; simpl in H; [| eauto | discriminate].
    destruct (w =? 0); [eauto|].
    apply bind_Ok in H. destruct H as (x & _ & H).
    apply IH in H; [exact H|].
    apply week_append_ok; [apply (plan_week_range _ _ Ew) | exact Hacc].
Qed.

Lemma week_entry_count : forall (runs : list (run num)) e,
  week_entry runs = Ok e -> w_n e = len runs.
Proof.
  intros runs e H. unfold week_entry in H.
  apply bind_Ok in H. destruct H as (m1 & _ & H).
  apply bind_Ok in H. destruct H as (m2 & _ & H).
  apply bind_Ok in H. destruct H as (ps & _ & H).
  apply bind_Ok in H. destruct H as (m3 & _ & H).
  inversion H; reflexivity.
Qed.

Lemma wk_ae_of_counts : forall (l : list (Z * list (run num))) out,
  map_exn (fun wr => e <- week_entry (snd wr) ;; Ok (fst wr, e)) l = Ok out ->
  map (fun kv => (fst kv, w_n (snd kv))) out = map (fun kv => (fst kv, len (snd kv))) l.
Proof.
  induction l as [|x l IH]; simpl; intros out H.
  - inversion H; reflexivity.
  - apply bind_Ok in H. destruct H as (y & Hy & H).
    apply bind_Ok in Hy. destruct Hy as (e & He & Hy). inversion Hy; subst.
    apply bind_Ok in H. destruct H as (ys & Hys & H). inversion H; subst.
    simpl. rewrite (IH ys Hys), (week_entry_count _ _ He). reflexivity.
Qed.

Lemma zsum_perm : forall l1 l2 : list Z, Permutation l1 l2 -> zsum l1 = zsum l2.
Proof.
  intros l1 l2 H. induction H; simpl; lia.
Qed.

Lemma zsum_points : forall bw : list (Z * list (run num)),
  zsum (map (fun kv => len (snd kv)) bw) = len (points bw).
Proof.
  unfold points, len. induction bw as [|[k l] bw IH]; simpl; [reflexivity|].
  rewrite length_app, Nat2Z.inj_add. simpl in IH. lia.
Qed.

(** The populated weeks of a returned analysis. *)
Lemma analyse_weeks_counts : forall (rows : list (row num)) a,
  analyse square rows = Ok a ->
  Forall (fun kv => 1 <= fst kv <= 18 /\ 1 <= w_n (snd kv)) (by_week a)
  /\ zsum (week_counts (by_week a))
     = len (filter in_plan (filter qualifies rows)).
Proof.
  intros rows a Ha.
  destruct (analyse_blocks square rows a Ha) as (bw & hrs & Hbw & Hwk & _).
  pose proof (group_by_week_ok _ [] bw (Forall_nil _) Hbw) as Hok.
  unfold wk_ae_of in Hwk. apply wk_ae_of_counts in Hwk.
  assert (Hperm : Permutation (sorted_items bw) bw) by apply sorted_items_perm.
  split.
  - rewrite Forall_forall. intros [k e] Hin.
    apply (in_map (fun kv => (fst kv, w_n (snd kv)))) in Hin. rewrite Hwk in Hin.
    apply in_map_iff in Hin. destruct Hin as ([k' l] & Heq & Hin).
    simpl in Heq. inversion Heq as [[Hk' Hn]]. subst k'.
    apply (Permutation_in _ Hperm) in Hin.
    rewrite Forall_forall in Hok. destruct (Hok _ Hin) as [Hk Hl]. simpl in Hk, Hl.
    split; [exact Hk|]. simpl. rewrite <- Hn. unfold len.
    destruct l; [congruence | simpl List.length; lia].
  - unfold week_counts.
    replace (map (fun kv => w_n (snd kv)) (by_week a))
      with (map snd (map (fun kv => (fst kv, w_n (snd kv))) (by_week a)))
      by (rewrite map_map; reflexivity).
    rewrite Hwk, map_map. simpl.
    rewrite (zsum_perm _ (map (fun kv => len (snd kv)) bw)).
    + rewrite zsum_points. unfold len.
      rewrite (points_group_by_week _ _ _ Hbw). reflexivity.
    + apply Permutation_map, Hperm.
Qed.

Lemma last_Some : forall (l : list Z),
  (last (map Some l) None = None <-> l = [])
  /\ (forall w, last (map Some l) None = Some w ->
        exists init, l = (init ++ [w])%list).
Proof.
  induction l as [|x l IH]; simpl.
  - split; [tauto | discriminate].
  - destruct l as [|y l]; simpl in *.
    + split; [split; discriminate|]. intros w H. inversion H; subst. exists []. reflexivity.
    + destruct IH as [IH1 IH2]. split.
      * split; [|discriminate]. intro H. apply IH1 in H. discriminate.
      * intros w H. destruct (IH2 w H) as (init & Hinit).
        exists (x :: init). rewrite Hinit. reflexivity.
Qed.

Lemma ascending_last_max : forall (init : list Z) w,
  ascending (init ++ [w]) -> forall k, In k (init ++ [w]) -> k <= w.
Proof.
  induction init as [|x init IH]; simpl; intros w H k Hk.
  - destruct Hk as [-> | []]. lia.
  - inversion H as [|? ? Hs Hall]; subst. destruct Hk as [<- | Hk].
    + rewrite Forall_forall in Hall. specialize (Hall w).
      assert (x < w) by (apply Hall, in_or_app; simpl; auto). lia.
    + apply IH; assumption.
Qed.

Lemma ae_at_In : forall (wk : list (Z * week_stats num)) k e,
  ascending (map fst wk) -> In (k, e) wk -> ae_at wk k = w_ae e.
Proof.
  induction wk as [|[k0 e0] wk IH]; simpl; intros k e H Hin; [tauto|].
  inversion H as [|? ? Hs Hall]; subst. destruct Hin as [Heq | Hin].
  - inversion Heq; subst. rewrite Z.eqb_refl. reflexivity.
  - rewrite Forall_forall in Hall.
    assert (k0 < k) by (apply Hall; apply (in_map fst) in Hin; exact Hin).
    assert (E : (k0 =? k) = false) by (apply Z.eqb_neq; lia).
    rewrite E. apply IH; assumption.
Qed.

Lemma two_last : forall (A : Type) (l : list A),
  (2 <= List.length l)%nat -> exists init x y, l = (init ++ [x; y])%list.
Proof.
  intros A l. induction l as [|a l IH] using rev_ind; simpl; intro H; [lia|].
  destruct l as [|b l] using rev_ind.
  - simpl in H. lia.
  - exists l, b, a. rewrite <- app_assoc. reflexivity.
Qed.

(** The week-over-week delta on a dictionary in week order. *)
Lemma ae_delta_wk_of_two : forall (init : list (Z * week_stats num)) p sp c sc,
  let wk := (init ++ [(p, sp); (c, sc)])%list in
  ascending (map fst wk) -> p <> 0 -> c <> 0 ->
  ae_delta_wk_of wk
  = (q <- py_div (nsub (w_ae sc) (w_ae sp)) (w_ae sp) ;;
     Ok (Some (round_nd 1 (nmul q (of_int 100))))).
Proof.
  intros init p sp c sc wk Hasc Hp Hc. unfold ae_delta_wk_of.
  rewrite (sorted_keys_ascending _ wk Hasc).
  assert (Hkeys : map fst wk = ((map fst init ++ [p]) ++ [c])%list).
  { subst wk. rewrite map_app, <- app_assoc. reflexivity. }
  rewrite Hkeys.
  assert (Hlen : (2 <=? len ((map fst init ++ [p]) ++ [c])) = true).
  { apply Z.leb_le. unfold len. rewrite !length_app. simpl. lia. }
  rewrite Hlen, removelast_last.
  replace (map Some ((map fst init ++ [p]) ++ [c]))
    with (map Some (map fst init ++ [p]) ++ [Some c])%list
    by (rewrite (map_app Some (map fst init ++ [p])%list); reflexivity).
  replace (map Some (map fst init ++ [p]))
    with (map Some (map fst init) ++ [Some p])%list
    by (rewrite (map_app Some (map fst init)); reflexivity).
  rewrite !last_last.
  apply Z.eqb_neq in Hp, Hc. rewrite Hp, Hc. simpl negb. cbv iota. simpl andb. cbv iota.
  rewrite (ae_at_In wk c sc Hasc), (ae_at_In wk p sp Hasc);
    [reflexivity | |]; subst wk; apply in_or_app; right; simpl; auto.
Qed.

Lemma ae_delta_wk_of_short : forall wk : list (Z * week_stats num),
  len wk < 2 -> ae_delta_wk_of wk = Ok None.
Proof.
  intros wk H. unfold ae_delta_wk_of, sorted_keys.
  assert (Hl : len (map fst (sorted_items (map (fun kv => (fst kv, tt)) wk))) = len wk).
  { unfold len. rewrite length_map.
    rewrite (Permutation_length (sorted_items_perm _ _)), length_map. reflexivity. }
  rewrite Hl. assert (E : (2 <=? len wk) = false) by (apply Z.leb_gt; exact H).
  rewrite E. destruct (last _ None); reflexivity.
Qed.

(** A qualifying row whose date is not a date makes the grouping fail. *)
Lemma group_by_week_raises : forall (rs : list (row num)) r e,
  In r rs -> plan_week (date r) = Raise e ->
  forall acc, exists e', group_by_week rs acc = Raise e'.
Proof.
  induction rs as [|r0 rs IH]; simpl; intros r e Hin Hr acc; [tauto|].
  destruct Hin as [-> | Hin].
  - rewrite Hr. simpl. eauto.
  - destruct (plan_week (date r0)) as [[w|]|e0]; simpl; eauto.
    destruct (w =? 0); eauto.
    destruct (run_of r0); simpl; eauto.
Qed.

End WeeksMore.

(** X8: in a returned analysis every populated week has a number from 1
    to 18 and at least one run, and the run counts of the weeks add up to
    the number of qualifying rows whose date lies in the plan. *)
Theorem analyse_week_counts :
  forall (num : Type) (arith : PyNum num) (square : num -> exn num)
         (rows : list (row num)) (a : analysis num),
  analyse square rows = Ok a ->
  Forall (fun kv => 1 <= fst kv <= 18 /\ 1 <= w_n (snd kv)) (by_week a)
  /\ zsum (week_counts (by_week a))
     = len (filter in_plan (filter qualifies rows)).
Proof.
  intros num arith square rows a Ha. apply (analyse_weeks_counts square rows a Ha).
Qed.

Lemma analyse_week_counts_witness :
  exists a, analyse square_product three_weeks = Ok a /\ zsum (week_counts (by_week a)) = 3.
Proof.
  assert (Ha : exists a, analyse square_product three_weeks = Ok a).
  { eexists. vm_compute. reflexivity. }
  destruct Ha as (a & Ha). exists a. split; [exact Ha|].
  destruct (analyse_week_counts float binary64 square_product three_weeks a Ha) as (_ & H).
  rewrite H. vm_compute. reflexivity.
Defined.

(** X9: the current week of a returned analysis is the largest populated
    week; it is absent exactly when no qualifying row lies in the plan. *)
Theorem analyse_current_week :
  forall (num : Type) (arith : PyNum num) (square : num -> exn num)
         (rows : list (row num)) (a : analysis num),
  analyse square rows = Ok a ->
  (current_week a = None <-> filter in_plan (filter qualifies rows) = [])
  /\ (forall w, current_week a = Some w ->
        In w (map fst (by_week a))
        /\ forall k, In k (map fst (by_week a)) -> k <= w).
Proof.
  intros num arith square rows a Ha.
  destruct (analyse_more_blocks square rows a Ha) as (_ & Hcur).
  pose proof (analyse_weeks_ascending square rows a Ha) as Hasc.
  destruct (analyse_weeks_counts square rows a Ha) as (Hok & Hsum).
  rewrite (sorted_keys_ascending _ _ Hasc) in Hcur. rewrite Hcur.
  destruct (last_Some (map fst (by_week a))) as [Hnone Hsome].
  split.
  - rewrite Hnone. split.
    + intro H. apply map_eq_nil in H. rewrite H in Hsum. simpl in Hsum.
      unfold len in Hsum. destruct (filter in_plan _); [reflexivity | simpl in Hsum; lia].
    + intro H. rewrite H in Hsum. unfold len in Hsum. simpl in Hsum.
      destruct (by_week a) as [|[k e] wk]; [reflexivity|]. exfalso.
      inversion Hok as [|? ? [_ Hn] Hrest]; subst. simpl in Hn.
      unfold week_counts in Hsum. simpl in Hsum.
      assert (Hnn : 0 <= zsum (map (fun kv : Z * week_stats num => w_n (snd kv)) wk)).
      { clear - Hrest. induction Hrest as [|[k' e'] l [_ Hn'] _ IH]; simpl in *; lia. }
      lia.
  - intros w Hw. destruct (Hsome w Hw) as (init & Hinit). split.
    + rewrite Hinit. apply in_or_app. simpl. auto.
    + rewrite Hinit in *. apply ascending_last_max. exact Hasc.
Qed.

Lemma analyse_current_week_witness :
  exists a, analyse square_product three_weeks = Ok a /\ current_week a = Some 3
    /\ forall k, In k (map fst (by_week a)) -> k <= 3.
Proof.
  assert (Ha : exists a, analyse square_product three_weeks = Ok a /\ current_week a = Some 3).
  { eexists. split; vm_compute; reflexivity. }
  destruct Ha as (a & Ha & Hc). exists a. split; [exact Ha|]. split; [exact Hc|].
  apply (proj2 (analyse_current_week float binary64 square_product three_weeks a Ha) 3 Hc).
Defined.

(** X10: in a returned analysis the week-over-week delta and the trend
    percentage are present exactly when at least two weeks are populated;
    the delta is the change from the week before the last to the last
    week, in percent of the former and rounded to one decimal place. *)
Theorem analyse_delta_wk :
  forall (num : Type) (arith : PyNum num) (square : num -> exn num)
         (rows : list (row num)) (a : analysis num),
  analyse square rows = Ok a ->
  (ae_delta_wk a = None <-> len (by_week a) < 2)
  /\ (ae_trend_pct a = None <-> len (by_week a) < 2)
  /\ (forall init p sp c sc,
        by_week a = (init ++ [(p, sp); (c, sc)])%list ->
        exists q, py_div (nsub (w_ae sc) (w_ae sp)) (w_ae sp) = Ok q
          /\ ae_delta_wk a = Some (round_nd 1 (nmul q (of_int 100)))).
Proof.
  intros num arith square rows a Ha.
  destruct (analyse_more_blocks square rows a Ha) as (Hdelta & _).
  destruct (analyse_blocks square rows a Ha) as (bw & hrs & _ & _ & Htr & _).
  pose proof (analyse_weeks_ascending square rows a Ha) as Hasc.
  destruct (analyse_weeks_counts square rows a Ha) as (Hok & _).
  assert (Hval : forall init p sp c sc,
             by_week a = (init ++ [(p, sp); (c, sc)])%list ->
             exists q, py_div (nsub (w_ae sc) (w_ae sp)) (w_ae sp) = Ok q
               /\ ae_delta_wk a = Some (round_nd 1 (nmul q (of_int 100)))).
  { intros init p sp c sc Hwk. rewrite Hwk in Hdelta, Hasc, Hok.
    rewrite Forall_forall in Hok.
    assert (Hp : p <> 0).
    { destruct (Hok (p, sp)) as [H _]; [apply in_or_app; simpl; auto | simpl in H; lia]. }
    assert (Hc : c <> 0).
    { destruct (Hok (c, sc)) as [H _]; [apply in_or_app; simpl; auto | simpl in H; lia]. }
    rewrite (ae_delta_wk_of_two init p sp c sc Hasc Hp Hc) in Hdelta.
    apply bind_Ok in Hdelta. destruct Hdelta as (q & Hq & H).
    exists q. split; [exact Hq|]. inversion H. reflexivity. }
  assert (Hlong : 2 <= len (by_week a) -> ae_delta_wk a <> None /\ ae_trend_pct a <> None).
  { intro H2. split.
    - destruct (two_last _ (by_week a)) as (init & [p sp] & [c sc] & Hwk);
        [unfold len in H2; lia|].
      destruct (Hval init p sp c sc Hwk) as (q & _ & ->). discriminate.
    - rewrite (ae_trend_of_rounded _ Hasc) in Htr. unfold trend_rounded in Htr.
      unfold week_aes in Htr. rewrite len_map in Htr.
      apply Z.leb_le in H2. rewrite H2 in Htr.
      apply bind_Ok in Htr. destruct Htr as (f & _ & Htr).
      apply bind_Ok in Htr. destruct Htr as (s & _ & Htr).
      apply bind_Ok in Htr. destruct Htr as (q & _ & Htr).
      inversion Htr. discriminate. }
  split; [|split; [|exact Hval]].
  - split.
    + intro Hn. destruct (Z_lt_ge_dec (len (by_week a)) 2) as [Hlt | Hge]; [exact Hlt|].
      exfalso. apply (proj1 (Hlong ltac:(lia))). exact Hn.
    + intro Hlt. rewrite (ae_delta_wk_of_short _ Hlt) in Hdelta. congruence.
  - split.
    + intro Hn. destruct (Z_lt_ge_dec (len (by_week a)) 2) as [Hlt | Hge]; [exact Hlt|].
      exfalso. apply (proj2 (Hlong ltac:(lia))). exact Hn.
    + intro Hlt. rewrite (ae_trend_of_rounded _ Hasc) in Htr.
      rewrite trend_rounded_short in Htr; [congruence|].
      unfold week_aes. rewrite len_map. exact Hlt.
Qed.

Lemma analyse_delta_wk_witness :
  exists a, analyse square_overflows two_weeks = Ok a /\ ae_delta_wk a <> None.
Proof.
  assert (Ha : exists a, analyse square_overflows two_weeks = Ok a /\ len (by_week a) = 2).
  { eexists. split; vm_compute; reflexivity. }
  destruct Ha as (a & Ha & Hl). exists a. split; [exact Ha|].
  destruct (analyse_delta_wk float binary64 square_overflows two_weeks a Ha) as (H & _).
  intro Hn. apply H in Hn. rewrite Hl in Hn. discriminate.
Defined.

(** X11: a qualifying row whose date the week indexer cannot parse makes
    the whole analysis raise; it is not skipped. *)
Theorem analyse_raises_on_bad_date :
  forall (num : Type) (arith : PyNum num) (square : num -> exn num)
         (rows : list (row num)) (r : row num) e,
  In r rows -> qualifies r = true -> strptime_ymd (date r) = Raise e ->
  exists e', analyse square rows = Raise e'.
Proof.
  intros num arith square rows r e Hin Hq Hbad.
  assert (Hpw : plan_week (date r) = Raise e).
  { unfold plan_week. rewrite Hbad. reflexivity. }
  destruct (group_by_week_raises (filter qualifies rows) r e) with (acc := @nil (Z * list (run num)))
    as (e' & He'); [apply filter_In; auto | exact Hpw |].
  exists e'. unfold analyse. rewrite He'. reflexivity.
Qed.

Lemma analyse_raises_on_bad_date_witness :
  exists e', analyse square_overflows [mk_row "9" "2026-02-30" "Run" (of_int 10) 3000
                             (Some (PFloat (of_int 150 : float)))] = Raise e'.
Proof.
  apply (analyse_raises_on_bad_date float binary64 square_overflows _
           (mk_row "9" "2026-02-30" "Run" (of_int 10) 3000 (Some (PFloat (of_int 150))))
           ValueError).
  - left. reflexivity.
  - vm_compute. reflexivity.
  - reflexivity.
Defined.

(** ** Exact arithmetic: rounding, regression, red zone, status *)

Section RoundingExact.

Lemma round_half_even_bounds_Z : forall (n : Z) (d : positive),
  let r := round_half_even (Qmake n d) in
  2 * n - Z.pos d <= 2 * Z.pos d * r <= 2 * n + Z.pos d.
Proof.
  intros n d. unfold round_half_even. cbn [Qnum Qden].
  pose proof (Z.div_mod n (Z.pos d) ltac:(lia)) as Hdm.
  pose proof (Z.mod_pos_bound n (Z.pos d) ltac:(lia)) as Hb.
  destruct (Z.compare_spec (2 * (n mod Z.pos d)) (Z.pos d)) as [E | E | E].
  - destruct (Z.even (n / Z.pos d)); cbv zeta; nia.
  - cbv zeta. nia.
  - cbv zeta. nia.
Qed.

(** The rounded value is within one half of the argument. *)
Lemma round_half_even_bounds : forall q : Q,
  (q - (1 # 2) <= inject_Z (round_half_even q) <= q + (1 # 2))%Q.
Proof.
  intros [n d]. pose proof (round_half_even_bounds_Z n d) as H. cbv zeta in H.
  unfold Qle, Qminus, Qplus, Qopp, inject_Z. cbn [Qnum Qden].
  rewrite !Pos2Z.inj_mul. split; nia.
Qed.

(** Equal rationals round to the same integer. *)
Lemma round_half_even_comp : forall p q : Q,
  Qeq p q -> round_half_even p = round_half_even q.
Proof.
  intros [n1 d1] [n2 d2] H. unfold Qeq in H. cbn [Qnum Qden] in H.
  assert (Hf : n1 / Z.pos d1 = n2 / Z.pos d2).
  { apply (Qfloor_comp (Qmake n1 d1) (Qmake n2 d2)). exact H. }
  unfold round_half_even. cbn [Qnum Qden]. rewrite <- Hf.
  pose proof (Z.div_mod n1 (Z.pos d1) ltac:(lia)) as H1.
  pose proof (Z.div_mod n2 (Z.pos d2) ltac:(lia)) as H2.
  rewrite <- Hf in H2.
  assert (Hc : (2 * (n1 mod Z.pos d1) ?= Z.pos d1) = (2 * (n2 mod Z.pos d2) ?= Z.pos d2)).
  { rewrite (Zmult_compare_compat_r _ _ (Z.pos d2) ltac:(lia)).
    rewrite (Zmult_compare_compat_r (2 * (n2 mod Z.pos d2)) _ (Z.pos d1) ltac:(lia)).
    f_equal; nia. }
  rewrite Hc. reflexivity.
Qed.

Lemma Qround_nd_comp : forall nd (p q : Q),
  Qeq p q -> Qround_nd nd p = Qround_nd nd q.
Proof.
  intros nd p q H. unfold Qround_nd. f_equal.
  apply round_half_even_comp. rewrite H. reflexivity.
Qed.

End RoundingExact.

Section RegressionLine.

Local Open Scope Q_scope.

(** The sums of the regression for points on a line. *)
Lemma sums_on_line : forall (a b : Q) (pts : list (run Q)),
  on_line a b pts ->
  py_sum (map r_hr pts)
  == a * py_sum (map r_speed pts) + inject_Z (len pts) * b
  /\ py_sum (map (fun r => nmul (r_speed r) (r_hr r)) pts)
     == a * py_sum (map (fun r => nmul (r_speed r) (r_speed r)) pts)
        + b * py_sum (map r_speed pts).
Proof.
  intros a b pts H. induction H as [|p pts Hp _ [IH1 IH2]].
  - simpl map. rewrite !py_sum_nil. unfold len. simpl. split; ring.
  - cbn [map]. rewrite !py_sum_cons, len_cons, inject_Z_plus, IH1, IH2.
    cbn [nmul exactQ]. rewrite Hp. change (inject_Z 1) with 1. split; ring.
Qed.

End RegressionLine.

(** X12: in exact arithmetic the regression recovers a line: when at
    least three points lie on hr = a * speed + b and the least-squares
    denominator is not zero, the predicted heart rate is the value of the
    line at the marathon-pace speed, rounded to one decimal place. *)
Theorem regression_recovers_line :
  forall (a b : Q) (pts : list (run Q)),
  3 <= len pts -> on_line a b pts -> ~ Qeq (ls_denom pts) 0 ->
  hr_at_mp_of square_product pts = Ok (Some (round_nd 1 (a * mp_speed + b)%Q)).
Proof.
  intros a b pts Hlen Hline Hden.
  destruct (sums_on_line a b pts Hline) as [Hsy Hsxy].
  unfold hr_at_mp_of. rewrite squares_product. cbn [bind]. fold (ls_denom pts).
  assert (E3 : (3 <=? len pts) = true) by (apply Z.leb_le; exact Hlen).
  rewrite E3.
  assert (Ed : Qeq_bool (ls_denom pts) (inject_Z 0) = false).
  { destruct (Qeq_bool (ls_denom pts) (inject_Z 0)) eqn:E; [|reflexivity].
    apply Qeq_bool_eq in E. contradiction. }
  unfold truthy, py_div, py_div_int. cbn [neqb exactQ of_int]. rewrite Ed.
  assert (En : (len pts =? 0) = false) by (apply Z.eqb_neq; lia).
  rewrite En. cbn [negb bind]. do 2 f_equal.
  cbn [round_nd exactQ]. apply Qround_nd_comp.
  assert (Hn : ~ Qeq (inject_Z (len pts)) 0).
  { intro H0. unfold Qeq in H0. simpl in H0. lia. }
  unfold ls_denom in *. cbn [nadd nsub nmul ndiv exactQ of_int] in *.
  set (sx := py_sum (map r_speed pts)) in *.
  set (sx2 := py_sum (map (fun r => (r_speed r * r_speed r)%Q) pts)) in *.
  set (n := inject_Z (len pts)) in *.
  rewrite Hsxy, Hsy. field. split; assumption.
Qed.

Lemma regression_recovers_line_witness :
  hr_at_mp_of square_product
              [mk_run "2025-12-23" 2 140 0 10; mk_run "2025-12-30" 3 155 0 12;
               mk_run "2026-01-07" 4 170 0 12]%Q
  = Ok (Some (round_nd 1 (15 * mp_speed + 110)%Q)).
Proof.
  apply (regression_recovers_line 15 110).
  - vm_compute. discriminate.
  - repeat constructor.
  - vm_compute. discriminate.
Defined.

Section RedZoneMore.

Context {num : Type} {arith : PyNum num}.
Variable square : num -> exn num.

Lemma fold_py_max_In : forall (xs : list num) (x : num),
  In (fold_left py_max xs x) (x :: xs).
Proof.
  induction xs as [|y xs IH]; intro x; simpl; [auto|].
  destruct (IH (py_max x y)) as [H | H]; [|auto].
  rewrite <- H. unfold py_max. destruct (nltb x y); auto.
Qed.

Lemma map_exn_In : forall (A B : Type) (f : A -> exn B) (l : list A) out,
  map_exn f l = Ok out ->
  (forall y, In y out -> exists x, In x l /\ f x = Ok y)
  /\ (forall x, In x l -> exists y, In y out /\ f x = Ok y).
Proof.
  induction l as [|x l IH]; simpl; intros out H.
  - inversion H; subst. split; intros ? [].
  - apply bind_Ok in H. destruct H as (y & Hy & H).
    apply bind_Ok in H. destruct H as (ys & Hys & H). inversion H; subst.
    destruct (IH ys Hys) as [IH1 IH2]. split.
    + intros y' [<- | Hin]; [eauto|]. destruct (IH1 y' Hin) as (x' & ? & ?). eauto.
    + intros x' [<- | Hin]; [simpl; eauto|].
      destruct (IH2 x' Hin) as (y' & ? & ?). simpl. eauto.
Qed.

End RedZoneMore.

Section RedZoneExact.

Local Open Scope Q_scope.

Lemma py_max_ge : forall x y : Q, x <= py_max x y /\ y <= py_max x y.
Proof.
  intros x y. unfold py_max. cbn [nltb exactQ].
  destruct (Qltb x y) eqn:E.
  - apply Qltb_lt in E. split; lra.
  - apply Qltb_ge in E. split; lra.
Qed.

Lemma fold_py_max_ge : forall (xs : list Q) (x : Q),
  forall y, In y (x :: xs) -> y <= fold_left py_max xs x.
Proof.
  induction xs as [|z xs IH]; intros x y Hy.
  - destruct Hy as [<- | []]. simpl. lra.
  - simpl fold_left. destruct (py_max_ge x z) as [H1 H2].
    pose proof (IH (py_max x z) (py_max x z) (or_introl eq_refl)) as Hm.
    destruct Hy as [<- | [<- | Hy]]; [lra | lra |].
    apply IH. right. exact Hy.
Qed.

End RedZoneExact.

(** X13: with qualifying runs the red-zone threshold of a returned
    analysis is round(h * 1.12 * 0.90, 1) for the heart rate h of one of
    the qualifying rows; in exact arithmetic no qualifying row has a
    larger heart rate. *)
Theorem red_zone_from_max_hr :
  (forall (num : Type) (arith : PyNum num) (square : num -> exn num)
          (rows : list (row num)) (a : analysis num),
     analyse square rows = Ok a -> filter qualifies rows <> [] ->
     exists r h, In r (filter qualifies rows)
       /\ float_of_hr (avg_hr r) = Ok h
       /\ red_zone_hr a = round_nd 1 (nmul (nmul h (of_lit 1.12%Q)) (of_lit 0.90%Q)))
  /\ (forall (square : Q -> exn Q) (rows : list (row Q)) (a : analysis Q),
        analyse square rows = Ok a -> filter qualifies rows <> [] ->
        exists h : Q,
          red_zone_hr a = round_nd 1 (h * 1.12 * 0.90)%Q
          /\ forall r h', In r rows -> qualifies r = true ->
               float_of_hr (avg_hr r) = Ok h' -> (h' <= h)%Q).
Proof.
  split.
  - intros num arith square rows a Ha Hne.
    destruct (analyse_blocks square rows a Ha) as (bw & hrs & _ & _ & _ & _ & Hhrs & Hred & _).
    destruct (map_exn_In _ _ _ _ _ Hhrs) as [Hout Hin].
    destruct hrs as [|h0 hrs].
    { destruct (filter qualifies rows) as [|r0 l]; [congruence|].
      destruct (Hin r0 (or_introl eq_refl)) as (y & [] & _). }
    pose proof (fold_py_max_In hrs h0) as Hmax.
    destruct (Hout _ Hmax) as (r & Hr & Hfr).
    exists r, (fold_left py_max hrs h0). split; [exact Hr|]. split; [exact Hfr|].
    rewrite Hred. reflexivity.
  - intros square rows a Ha Hne.
    destruct (analyse_blocks square rows a Ha) as (bw & hrs & _ & _ & _ & _ & Hhrs & Hred & _).
    destruct (map_exn_In _ _ _ _ _ Hhrs) as [Hout Hin].
    destruct hrs as [|h0 hrs].
    { destruct (filter qualifies rows) as [|r0 l]; [congruence|].
      destruct (Hin r0 (or_introl eq_refl)) as (y & [] & _). }
    exists (fold_left py_max hrs h0). split; [rewrite Hred; reflexivity|].
    intros r h' Hr Hq Hf.
    destruct (Hin r) as (y & Hy & Hfy); [apply filter_In; auto|].
    rewrite Hf in Hfy. inversion Hfy; subst y.
    apply fold_py_max_ge. exact Hy.
Qed.

Lemma red_zone_from_max_hr_witness :
  exists a r h, analyse square_product three_weeks = Ok a
    /\ In r (filter qualifies three_weeks)
    /\ float_of_hr (avg_hr r) = Ok h
    /\ red_zone_hr a = round_nd 1 (nmul (nmul h (of_lit 1.12%Q)) (of_lit 0.90%Q)).
Proof.
  assert (Ha : exists a, analyse square_product three_weeks = Ok a).
  { eexists. vm_compute. reflexivity. }
  destruct Ha as (a & Ha).
  destruct (proj1 red_zone_from_max_hr float binary64 square_product three_weeks a Ha)
    as (r & h & H1 & H2 & H3).
  - vm_compute. discriminate.
  - exists a, r, h. auto.
Defined.

(** X14: in exact arithmetic, when the Riegel baseline is within one
    second of 9132 s, the predicted time is between 9041 s and 9223 s
    whatever the analysis says, so the status is AHEAD or ON TRACK and
    never CLOSE or OFF PACE. *)
Theorem status_is_ahead_or_on_track :
  forall (pow : Q -> Q -> Q) (rows : list (row Q)) (a : analysis Q),
  (9131 <= riegel_baseline pow <= 9133)%Q ->
  exists n, predict pow rows a = Ok (n, None)
    /\ 9041 <= n <= 9223
    /\ (status (build_status n) = "AHEAD" \/ status (build_status n) = "ON TRACK").
Proof.
  intros pow rows a Hbase.
  assert (Hd : truthy (of_lit HM_DIST_M : Q) = true) by (vm_compute; reflexivity).
  destruct (predict_unfold pow rows a Hd) as (_ & Hp).
  destruct (modifier_exact (ae_trend_pct a)) as (Hm & _).
  set (m := modifier_of (ae_trend_pct a)) in *.
  exists (round_half_even (riegel_baseline pow + m)%Q).
  split; [rewrite Hp; reflexivity|].
  pose proof (round_half_even_bounds (riegel_baseline pow + m)%Q) as Hr.
  set (n := round_half_even (riegel_baseline pow + m)%Q) in *.
  assert (Hn : 9041 <= n <= 9223).
  { split.
    - assert (H : (inject_Z 9040 < inject_Z n)%Q).
      { change (inject_Z 9040) with 9040%Q. lra. }
      rewrite <- Zlt_Qlt in H. lia.
    - assert (H : (inject_Z n < inject_Z 9224)%Q).
      { change (inject_Z 9224) with 9224%Q. lra. }
      rewrite <- Zlt_Qlt in H. lia. }
  split; [exact Hn|].
  unfold build_status, TARGET_SECS.
  destruct (180 <? 9300 - n) eqn:E1; [left; reflexivity|].
  destruct (-60 <=? 9300 - n) eqn:E2; [right; reflexivity|].
  apply Z.leb_gt in E2. lia.
Qed.

Lemma status_is_ahead_or_on_track_witness :
  exists n, predict (fun _ _ => (20849315 # 10000000)%Q) []
                    (mk_analysis [] "insufficient data" None None None
                                 (red_zone_hr_of []) None None)
            = Ok (n, None)
    /\ 9041 <= n <= 9223.
Proof.
  destruct (status_is_ahead_or_on_track (fun _ _ => (20849315 # 10000000)%Q) []
              (mk_analysis [] "insufficient data" None None None
                           (red_zone_hr_of []) None None))
    as (n & Hn & Hr & _).
  - vm_compute. split; discriminate.
  - exists n. auto.
Defined.

(** ** Formatting and fetching *)

(** X16: from one hour on, and for negative arguments, [fmt_time] writes
    a time as [build_status] writes the predicted time; below one hour
    [fmt_time] drops the hours, which [build_status] writes as 0. *)
Theorem fmt_time_and_predicted_time :
  forall secs : Z,
  (secs / 3600 <> 0 -> fmt_time secs = predicted_time (build_status secs))
  /\ (0 <= secs < 3600 ->
      predicted_time (build_status secs) = "0:" ++ fmt_02d (secs / 60) ++ ":" ++ fmt_02d (secs mod 60)
      /\ fmt_time secs = str_of_Z (secs / 60) ++ ":" ++ fmt_02d (secs mod 60)).
Proof.
  intro secs.
  assert (Hs : (secs mod 3600) mod 60 = secs mod 60).
  { pose proof (Z.div_mod secs 3600 ltac:(lia)) as H.
    rewrite H at 2. rewrite Z.add_comm.
    replace (3600 * (secs / 3600)) with ((60 * (secs / 3600)) * 60) by lia.
    rewrite Z.mod_add by lia. reflexivity. }
  assert (Hpt : predicted_time (build_status secs)
                = str_of_Z (secs / 3600) ++ ":" ++ fmt_02d (secs mod 3600 / 60)
                  ++ ":" ++ fmt_02d (secs mod 60)).
  { unfold build_status.
    destruct (180 <? TARGET_SECS - secs); [reflexivity|].
    destruct (-60 <=? TARGET_SECS - secs); [reflexivity|].
    destruct (-300 <=? TARGET_SECS - secs); reflexivity. }
  split.
  - intro Hh. rewrite Hpt. unfold fmt_time. apply Z.eqb_neq in Hh. rewrite Hh, Hs.
    reflexivity.
  - intros Hr.
    assert (H0 : secs / 3600 = 0) by (apply Z.div_small; lia).
    assert (Hm : secs mod 3600 = secs) by (apply Z.mod_small; lia).
    split.
    + rewrite Hpt, H0, Hm. reflexivity.
    + unfold fmt_time. rewrite H0, Hm. reflexivity.
Qed.

Lemma fmt_time_and_predicted_time_witness :
  fmt_time 9132 = "2:32:12" /\ fmt_time 2400 = "40:00".
Proof.
  split.
  - rewrite (proj1 (fmt_time_and_predicted_time 9132)); [reflexivity | discriminate].
  - rewrite (proj2 (proj2 (fmt_time_and_predicted_time 2400) ltac:(lia))). reflexivity.
Defined.

Section FetchFacts.

Variable A : Type.

Lemma fetch_only_runs : forall (pages : list (list (option string * A))) x,
  In x (fetch_api_runs pages) -> is_run x = true.
Proof.
  induction pages as [|batch rest IH]; simpl; intros x H; [tauto|].
  destruct batch as [|b batch]; [destruct H|].
  apply in_app_or in H. destruct H as [H | H].
  - apply filter_In in H. tauto.
  - destruct (len (b :: batch) <? 200); [destruct H | auto].
Qed.

Lemma fetch_full_then_short : forall (full : list (list (option string * A))) short later,
  Forall (fun batch => 200 <= len batch) full ->
  len short < 200 ->
  fetch_api_runs (full ++ short :: later)
  = filter is_run (List.concat full ++ short).
Proof.
  induction full as [|batch full IH]; simpl; intros short later Hfull Hshort.
  - destruct short as [|s short]; [reflexivity|].
    apply Z.ltb_lt in Hshort. rewrite Hshort, app_nil_r. reflexivity.
  - inversion Hfull as [|? ? Hb Hrest]; subst.
    destruct batch as [|b batch]; [unfold len in Hb; simpl in Hb; lia|].
    assert (E : (len (b :: batch) <? 200) = false) by (apply Z.ltb_ge; exact Hb).
    rewrite E, (IH short later Hrest Hshort).
    rewrite <- app_assoc, !filter_app. reflexivity.
Qed.

Lemma fetch_all_full : forall full : list (list (option string * A)),
  Forall (fun batch => 200 <= len batch) full ->
  fetch_api_runs full = filter is_run (List.concat full).
Proof.
  intros full H.
  rewrite <- (app_nil_r (List.concat full)).
  rewrite <- (fetch_full_then_short full [] [] H); [|reflexivity].
  clear H. induction full as [|batch full IH]; simpl; [reflexivity|].
  destruct batch; [reflexivity|]. rewrite IH. reflexivity.
Qed.

End FetchFacts.

(** X17: the fetch loop keeps only activities of type "Run"; it reads
    full pages (200 or more entries) up to and including the first shorter
    page and returns the runs of these pages in order; what the server
    would answer after the first shorter page has no effect. *)
Theorem fetch_api_runs_pages :
  forall (A : Type) (full : list (list (option string * A))) (short : list (option string * A))
         (later : list (list (option string * A))),
  Forall (fun batch => 200 <= len batch) full ->
  len short < 200 ->
  fetch_api_runs (full ++ short :: later) = filter is_run (List.concat full ++ short)
  /\ fetch_api_runs full = filter is_run (List.concat full)
  /\ (forall x, In x (fetch_api_runs (full ++ short :: later)) ->
        fst x = Some "Run").
Proof.
  intros A full short later Hfull Hshort. split; [|split].
  - apply fetch_full_then_short; assumption.
  - apply fetch_all_full; assumption.
  - intros x Hx. apply fetch_only_runs in Hx. unfold is_run in Hx.
    destruct (fst x) as [t|]; [|discriminate].
    apply String.eqb_eq in Hx. subst. reflexivity.
Qed.

Lemma fetch_api_runs_pages_witness :
  fetch_api_runs ([] ++ [(Some "Ride", 1); (Some "Run", 2); (None, 3)] :: [[(Some "Run", 4)]])
  = [(Some "Run", 2)].
Proof.
  rewrite (proj1 (fetch_api_runs_pages Z [] [(Some "Ride", 1); (Some "Run", 2); (None, 3)]
                    [[(Some "Run", 4)]] (Forall_nil _) eq_refl)).
  reflexivity.
Defined.

(** ** The .env loader *)

Section EnvFacts.

Lemma append_assoc : forall a b c : string, (a ++ b) ++ c = a ++ (b ++ c).
Proof.
  induction a as [|x a IH]; intros b c; simpl; [reflexivity|].
  rewrite IH. reflexivity.
Qed.

Lemma lstrip_space : forall ws s, all_space ws = true -> lstrip (ws ++ s) = lstrip s.
Proof.
  induction ws as [|c ws IH]; simpl; intros s H; [reflexivity|].
  apply andb_true_iff in H. destruct H as [Hc Hws]. rewrite Hc. apply IH, Hws.
Qed.

Lemma rstrip_all_space : forall ws, all_space ws = true -> rstrip ws = "".
Proof.
  induction ws as [|c ws IH]; simpl; intro H; [reflexivity|].
  apply andb_true_iff in H. destruct H as [Hc Hws]. rewrite (IH Hws), Hc. reflexivity.
Qed.

Lemma rstrip_app_empty : forall a b, rstrip b = "" -> rstrip (a ++ b) = rstrip a.
Proof.
  induction a as [|c a IH]; simpl; intros b H; [exact H|].
  rewrite (IH b H). reflexivity.
Qed.

Lemma rstrip_app_keep : forall a b, rstrip b <> "" -> rstrip (a ++ b) = a ++ rstrip b.
Proof.
  induction a as [|c a IH]; simpl; intros b H; [reflexivity|].
  rewrite (IH b H). destruct (a ++ rstrip b) eqn:E; [|reflexivity].
  exfalso. destruct a; simpl in E; [contradiction | discriminate].
Qed.

Lemma rstrip_eq_sign : forall t, rstrip (String "=" t) = String "=" (rstrip t).
Proof.
  intro t. simpl. destruct (rstrip t); reflexivity.
Qed.

Lemma lstrip_length : forall s, (String.length (lstrip s) <= String.length s)%nat.
Proof.
  induction s as [|c s IH]; simpl; [lia|].
  destruct (py_isspace c); simpl; lia.
Qed.

Lemma lstrip_fixed_head : forall c s, lstrip (String c s) = String c s -> py_isspace c = false.
Proof.
  intros c s H. simpl in H. destruct (py_isspace c); [|reflexivity].
  pose proof (lstrip_length s) as Hl. rewrite H in Hl. simpl in Hl. lia.
Qed.

Lemma space_is_not_eq : forall c, py_isspace c = true -> Ascii.eqb c "=" = false.
Proof.
  intros c H. destruct (Ascii.eqb_spec c "=") as [-> | _]; [discriminate | reflexivity].
Qed.

Lemma split_eq_app : forall k x, no_eq k = true -> split_eq (k ++ String "=" x) = Some (k, x).
Proof.
  induction k as [|c k IH]; simpl; intros x H; [reflexivity|].
  apply andb_true_iff in H. destruct H as [Hc Hk].
  apply negb_true_iff in Hc. rewrite Hc, (IH x Hk). reflexivity.
Qed.

Lemma no_eq_app_space : forall k ws,
  no_eq k = true -> all_space ws = true -> no_eq (k ++ ws) = true.
Proof.
  induction k as [|c k IH]; simpl; intros ws Hk Hws.
  - induction ws as [|w ws IHw]; simpl; [reflexivity|].
    simpl in Hws. apply andb_true_iff in Hws. destruct Hws as [Hw Hws].
    rewrite (space_is_not_eq w Hw), (IHw Hws). reflexivity.
  - apply andb_true_iff in Hk. destruct Hk as [Hc Hk].
    rewrite Hc, (IH ws Hk Hws). reflexivity.
Qed.

(** The stripped value part of an assignment line. *)
Lemma strip_value : forall ws3 v ws4,
  all_space ws3 = true -> all_space ws4 = true -> trimmed v ->
  strip (rstrip (ws3 ++ v ++ ws4)) = v.
Proof.
  intros ws3 v ws4 H3 H4 [Hl Hr].
  rewrite <- append_assoc, (rstrip_app_empty _ ws4 (rstrip_all_space ws4 H4)).
  destruct v as [|c v].
  - rewrite (rstrip_app_empty ws3 "" eq_refl), (rstrip_all_space ws3 H3). reflexivity.
  - assert (Hne : rstrip (String c v) <> "") by (rewrite Hr; discriminate).
    rewrite (rstrip_app_keep ws3 _ Hne), Hr. unfold strip.
    rewrite (rstrip_app_keep ws3 _ Hne), Hr, (lstrip_space ws3 _ H3). exact Hl.
Qed.

Lemma strip_key : forall k ws2,
  all_space ws2 = true -> trimmed k -> strip (k ++ ws2) = k.
Proof.
  intros k ws2 H2 [Hl Hr]. unfold strip.
  rewrite (rstrip_app_empty k ws2 (rstrip_all_space ws2 H2)), Hr. exact Hl.
Qed.

(** An assignment line, with any white space around the key and the
    value, sets the key to the value. *)
Lemma env_step_assignment : forall env ws1 k ws2 ws3 v ws4,
  all_space ws1 = true -> all_space ws2 = true ->
  all_space ws3 = true -> all_space ws4 = true ->
  trimmed k -> trimmed v -> no_eq k = true -> starts_with_hash k = false ->
  env_step env (ws1 ++ k ++ ws2 ++ "=" ++ ws3 ++ v ++ ws4) = env_set k v env.
Proof.
  intros env ws1 k ws2 ws3 v ws4 H1 H2 H3 H4 Hk Hv Hnoeq Hhash.
  unfold env_step.
  set (X := rstrip (ws3 ++ v ++ ws4)).
  assert (HT : rstrip ("=" ++ ws3 ++ v ++ ws4) = String "=" X).
  { change ("=" ++ ws3 ++ v ++ ws4) with (String "=" (ws3 ++ v ++ ws4)).
    apply rstrip_eq_sign. }
  assert (Hline : strip (ws1 ++ k ++ ws2 ++ "=" ++ ws3 ++ v ++ ws4)
                  = lstrip (k ++ ws2 ++ String "=" X)).
  { unfold strip.
    assert (Hn : String "=" X <> "") by discriminate.
    rewrite <- HT in Hn.
    rewrite (rstrip_app_keep ws1).
    - rewrite (rstrip_app_keep k).
      + rewrite (rstrip_app_keep ws2 _ Hn), HT. apply lstrip_space, H1.
      + rewrite (rstrip_app_keep ws2 _ Hn), HT. destruct ws2; discriminate.
    - rewrite (rstrip_app_keep k).
      + rewrite (rstrip_app_keep ws2 _ Hn), HT. destruct k, ws2; discriminate.
      + rewrite (rstrip_app_keep ws2 _ Hn), HT. destruct ws2; discriminate. }
  rewrite Hline.
  assert (HX : strip X = v) by (apply strip_value; assumption).
  destruct k as [|c k].
  - change ("" ++ ws2 ++ String "=" X) with (ws2 ++ String "=" X).
    rewrite (lstrip_space ws2 _ H2). simpl. rewrite HX. reflexivity.
  - pose proof (lstrip_fixed_head c k (proj1 Hk)) as Hc.
    assert (Hl : lstrip (String c k ++ ws2 ++ String "=" X)
                 = (String c k ++ ws2) ++ String "=" X).
    { rewrite append_assoc. simpl. rewrite Hc. reflexivity. }
    rewrite Hl.
    pose proof (split_eq_app _ X (no_eq_app_space _ ws2 Hnoeq H2)) as Hsplit.
    set (L := (String c k ++ ws2) ++ String "=" X) in *.
    assert (Hne : String.eqb L "" = false) by reflexivity.
    assert (Hh : starts_with_hash L = false) by exact Hhash.
    rewrite Hne, Hh, Hsplit. cbn [negb andb].
    rewrite (strip_key _ ws2 H2 Hk), HX. reflexivity.
Qed.

Lemma env_get_set_same : forall k v env, env_get k (env_set k v env) = Some v.
Proof.
  induction env as [|[k' v'] env IH]; simpl.
  - rewrite String.eqb_refl. reflexivity.
  - destruct (String.eqb k' k) eqn:E; simpl; rewrite E; [reflexivity | exact IH].
Qed.

Lemma env_get_set_other : forall k k' v env,
  k' <> k -> env_get k' (env_set k v env) = env_get k' env.
Proof.
  induction env as [|[k0 v0] env IH]; simpl; intro H.
  - assert (E : String.eqb k k' = false) by (apply String.eqb_neq; congruence).
    rewrite E. reflexivity.
  - destruct (String.eqb k0 k) eqn:E; simpl.
    + apply String.eqb_eq in E. subst k0.
      assert (E' : String.eqb k k' = false) by (apply String.eqb_neq; congruence).
      rewrite E'. reflexivity.
    + destruct (String.eqb k0 k'); [reflexivity | apply IH, H].
Qed.

Lemma load_env_snoc : forall lines line,
  load_env (lines ++ [line]) = env_step (load_env lines) line.
Proof.
  intros. unfold load_env. rewrite fold_left_app. reflexivity.
Qed.

Lemma env_step_ignored : forall env line,
  strip line = ""
  \/ starts_with_hash (strip line) = true
  \/ split_eq (strip line) = None ->
  env_step env line = env.
Proof.
  intros env line H. unfold env_step.
  destruct H as [H | [H | H]]; rewrite H.
  - reflexivity.
  - rewrite andb_false_r. reflexivity.
  - destruct (_ && _); reflexivity.
Qed.

End EnvFacts.

(** X18: an assignment line of the .env file, with any white space
    around the key and around the value, sets the key to the value: after
    it the key is looked up as the value, whatever earlier lines said, and
    no other key changes.  The value may contain further "=" signs. *)
Theorem load_env_assignment :
  forall (lines : list string) (ws1 k ws2 ws3 v ws4 : string),
  all_space ws1 = true -> all_space ws2 = true ->
  all_space ws3 = true -> all_space ws4 = true ->
  trimmed k -> trimmed v -> no_eq k = true -> starts_with_hash k = false ->
  let line := ws1 ++ k ++ ws2 ++ "=" ++ ws3 ++ v ++ ws4 in
  load_env (lines ++ [line]) = env_set k v (load_env lines)
  /\ env_get k (load_env (lines ++ [line])) = Some v
  /\ (forall k', k' <> k ->
        env_get k' (load_env (lines ++ [line])) = env_get k' (load_env lines)).
Proof.
  intros lines ws1 k ws2 ws3 v ws4 H1 H2 H3 H4 Hk Hv Hnoeq Hhash line.
  assert (E : load_env (lines ++ [line]) = env_set k v (load_env lines)).
  { rewrite load_env_snoc. apply env_step_assignment; assumption. }
  rewrite E. split; [reflexivity|]. split.
  - apply env_get_set_same.
  - intros k' Hk'. apply env_get_set_other, Hk'.
Qed.

Lemma load_env_assignment_witness :
  env_get "TOKEN" (load_env (["TOKEN=old"] ++ ["  TOKEN = a=b " ++ String (ascii_of_nat 10) ""]))
  = Some "a=b".
Proof.
  apply (load_env_assignment ["TOKEN=old"] "  " "TOKEN" " " " " "a=b"
           (" " ++ String (ascii_of_nat 10) ""));
    try reflexivity; split; reflexivity.
Defined.

(** X19: a line of the .env file that is blank, that is a comment (its
    first character after white space is "#"), or that has no "=" changes
    nothing: the file reads as without it. *)
Theorem load_env_ignores :
  forall (before after : list string) (line : string),
  strip line = ""
  \/ starts_with_hash (strip line) = true
  \/ split_eq (strip line) = None ->
  load_env (before ++ line :: after) = load_env (before ++ after).
Proof.
  intros before after line H. unfold load_env.
  rewrite !fold_left_app. simpl. rewrite (env_step_ignored _ line H). reflexivity.
Qed.

Lemma load_env_ignores_witness :
  load_env (["A=1"] ++ "  # B=2" :: ["C=3"]) = load_env (["A=1"] ++ ["C=3"]).
Proof.
  apply load_env_ignores. right. left. reflexivity.
Defined.

(** ** Week indexer and pace *)

(** X20: for a date string that parses, [plan_week] gives week w exactly
    for the seven days 7 (w - 1) .. 7 w - 1 after the plan start, for w
    from 1 to 18, and no week exactly before the start and from day 126
    on; it raises exactly when the string does not parse. *)
Theorem plan_week_inverse :
  forall (s : string),
  (forall d w, strptime_ymd s = Ok d ->
     let days := toordinal d - toordinal PLAN_START in
     (plan_week s = Ok (Some w) <-> 1 <= w <= 18 /\ 7 * (w - 1) <= days < 7 * w)
     /\ (plan_week s = Ok None <-> days < 0 \/ 126 <= days))
  /\ (forall e, plan_week s = Raise e <-> strptime_ymd s = Raise e).
Proof.
  intro s. split.
  - intros d w Hs days. rewrite (plan_week_of_date s d Hs). cbv zeta. fold days.
    pose proof (Z.div_mod days 7 ltac:(lia)) as Hdm.
    pose proof (Z.mod_pos_bound days 7 ltac:(lia)) as Hb.
    destruct (days <? 0) eqn:E0.
    + apply Z.ltb_lt in E0. split; split.
      * discriminate.
      * intros [Hw Hd]. lia.
      * auto.
      * reflexivity.
    + apply Z.ltb_ge in E0.
      assert (H1 : (1 <=? days / 7 + 1) = true) by (apply Z.leb_le; lia).
      rewrite H1. simpl andb.
      destruct (days / 7 + 1 <=? 18) eqn:E18.
      * apply Z.leb_le in E18. split; split.
        -- intro H. inversion H. subst w. lia.
        -- intros [Hw Hd]. do 2 f_equal. lia.
        -- discriminate.
        -- intros [H | H]; lia.
      * apply Z.leb_gt in E18. split; split.
        -- discriminate.
        -- intros [Hw Hd]. lia.
        -- intros _. right. lia.
        -- reflexivity.
  - intro e. unfold plan_week. destruct (strptime_ymd s) as [d|e0]; simpl.
    + split; [|discriminate]. destruct (_ <? 0); discriminate.
    + split; intro H; inversion H; reflexivity.
Qed.

Lemma plan_week_inverse_witness :
  plan_week "2026-04-26" = Ok (Some 18) /\ plan_week "2026-04-27" = Ok None.
Proof.
  split.
  - apply (proj1 (plan_week_inverse "2026-04-26") (mk_date 2026 4 26) 18 eq_refl).
    vm_compute. repeat split; discriminate.
  - apply (proj1 (plan_week_inverse "2026-04-27") (mk_date 2026 4 27) 0 eq_refl).
    right. vm_compute. discriminate.
Defined.

(** X21: [fmt_pace] raises [ZeroDivisionError] for the speed zero, and
    on doubles for no other speed; in exact arithmetic the speed of n
    seconds per kilometre, n > 0, is written as the minutes n // 60 and
    the seconds n % 60. *)
Theorem fmt_pace_spec :
  (forall (num : Type) (arith : PyNum num) (speed : num),
     neqb speed (of_int 0) = true -> fmt_pace speed = Raise ZeroDivisionError)
  /\ (forall speed : float,
        fmt_pace speed = Raise ZeroDivisionError -> neqb speed (of_int 0) = true)
  /\ (forall n : Z, 0 < n ->
        fmt_pace (1000 / inject_Z n)%Q
        = Ok (str_of_Z (n / 60) ++ ":" ++ fmt_02d (n mod 60) ++ "/km")).
Proof.
  split; [|split].
  - intros num arith speed. unfold fmt_pace, py_div. intros ->. reflexivity.
  - intro speed. unfold fmt_pace, py_div.
    destruct (neqb speed (of_int 0)); [reflexivity|]. simpl.
    unfold b64_trunc_int. destruct (Prim2SF _); simpl; discriminate.
  - intros n Hn. unfold fmt_pace, py_div. cbn [neqb exactQ of_int ndiv trunc_int].
    assert (Hq : ~ Qeq (1000 / inject_Z n) 0).
    { intro H. assert (Hn0 : ~ Qeq (inject_Z n) 0).
      { intro H0. unfold Qeq in H0. simpl in H0. lia. }
      apply Hn0. 
      assert (H1 : Qeq (1000 / inject_Z n * inject_Z n) 1000) by (field; exact Hn0).
      rewrite H in H1. exfalso. revert H1. unfold Qeq. simpl. lia. }
    assert (E : Qeq_bool (1000 / inject_Z n) (inject_Z 0) = false).
    { destruct (Qeq_bool _ _) eqn:E; [|reflexivity].
      apply Qeq_bool_eq in E. contradiction. }
    rewrite E. cbn [bind].
    assert (Ht : truncate (inject_Z 1000 / (1000 / inject_Z n)) = n).
    { assert (Heq : Qeq (inject_Z 1000 / (1000 / inject_Z n)) (inject_Z n)).
      { change (inject_Z 1000) with 1000%Q.
        field; repeat split; intro H0; unfold Qeq in H0; simpl in H0; lia. }
      unfold truncate. 
      destruct (inject_Z 1000 / (1000 / inject_Z n))%Q as [p q] eqn:Epq.
      unfold Qeq in Heq. cbn [Qnum Qden inject_Z] in *.
      rewrite Z.mul_1_r in Heq. rewrite Heq.
      rewrite Z.quot_mul by lia. reflexivity. }
    rewrite Ht. reflexivity.
Qed.

Lemma fmt_pace_spec_witness :
  fmt_pace (1000 / inject_Z 250)%Q = Ok "4:10/km".
Proof.
  rewrite (proj2 (proj2 fmt_pace_spec) 250); [reflexivity | lia].
Defined.
